(** * edgar.httprequests: throttled, retried, identity-carrying HTTP requests

    A shallow embedding of [edgar/httprequests.py].  Python objects with
    mutable state (the [Throttler] of every decorated function, the [headers]
    dictionaries handed around through [**kwargs], the process environment,
    the monotonic clock) live in an explicit [World]; a Python call is a
    function from a world to a result and a new world, and a raised exception
    is the [Raise] result.  The clock is read in seconds as a rational
    number; floating-point rounding and threads are outside the model.
    The headers of a response are looked up as [httpx.Headers] does it,
    without regard to the case of the name.  The download helpers are
    embedded over the library calls they make ([Imports]): what [httpx],
    [gzip], the codecs and [orjson] do with a response, the cutting of a
    body into lines included, is left open, what the helpers do with the
    answers is not. *)

From Stdlib Require Import QArith Lqa ZArith List Lia Bool Ascii String.
From stdpp Require Import gmap strings list fin_maps.

Local Open Scope string_scope.

(** ** Module constants (lines 16-19) *)

Definition attempts : nat := 6.
Definition retry_timeout : Q := 40.
Definition wait_initial : Q := 1 # 10.
Definition max_requests_per_second : Z := 8.

(** ** Exceptions *)

Inductive exn : Type :=
| RequestError (message : string)             (* httpx.RequestError and subclasses *)
| TooManyRequestsError (url message : string) (* class TooManyRequestsError(Exception) *)
| IdentityNotSetException (message : string)  (* class IdentityNotSetException(Exception) *)
| ValueError (message : string)
| KeyError (key : string)
| AttributeError (message : string).

(** [isinstance(e, httpx.RequestError)]: the two exception classes of the
    module derive from [Exception] directly. *)
Definition is_RequestError (e : exn) : bool :=
  match e with
  | RequestError _ => true
  | _ => false
  end.

Inductive Result (A : Type) : Type :=
| Ok (a : A)
| Raise (e : exn)
| OutOfFuel.
Arguments Ok {A} a.
Arguments Raise {A} e.
Arguments OutOfFuel {A}.

(** ** RequestRate (lines 33-45) *)

Record RequestRate : Type := mkRequestRate {
  max_requests : Z;
  time_window : Z
}.

Definition RequestRate_init (max_requests time_window : Z) : Result RequestRate :=
  if (max_requests <=? 0)%Z then
    Raise (ValueError "max_requests must be a positive integer")
  else if (time_window <=? 0)%Z then
    Raise (ValueError "time_window must be a positive integer")
  else Ok (mkRequestRate max_requests time_window).

(** ** Throttler (lines 48-99) *)

Record Throttler : Type := mkThrottler {
  request_rate : RequestRate;
  sleep_interval : Q;
  request_timestamps : list Q;          (* deque, left end first *)
  decorated_function : option string;
  total_calls : nat;
  peak_call_rate : Q
}.

Definition Throttler_init (request_rate : RequestRate) (sleep_interval : Q) : Throttler :=
  {| request_rate := request_rate;
     sleep_interval := sleep_interval;
     request_timestamps := [];
     decorated_function := None;
     total_calls := 0;
     peak_call_rate := 0 |}.

Definition with_timestamps (th : Throttler) (ts : list Q) : Throttler :=
  {| request_rate := request_rate th;
     sleep_interval := sleep_interval th;
     request_timestamps := ts;
     decorated_function := decorated_function th;
     total_calls := total_calls th;
     peak_call_rate := peak_call_rate th |}.

(** The [while] loop of [get_ticket]: pop from the left while the oldest
    timestamp is [<= current_time - time_window]. *)
Fixpoint popleft_expired (threshold : Q) (ts : list Q) : list Q :=
  match ts with
  | [] => []
  | t :: rest =>
      if Qle_bool t threshold then popleft_expired threshold rest else ts
  end.

Definition get_ticket (current_time : Q) (th : Throttler) : bool * Throttler :=
  let ts := popleft_expired (current_time - inject_Z (time_window (request_rate th)))
                            (request_timestamps th) in
  if (Z.of_nat (length ts) <? max_requests (request_rate th))%Z
  then (true, with_timestamps th (ts ++ [current_time]))
  else (false, with_timestamps th ts).

Definition Qmax (x y : Q) : Q := if Qle_bool x y then y else x.

Definition update_metrics (th : Throttler) : Throttler :=
  let current_call_rate :=
    (inject_Z (Z.of_nat (length (request_timestamps th)))
     / inject_Z (time_window (request_rate th)))%Q in
  {| request_rate := request_rate th;
     sleep_interval := sleep_interval th;
     request_timestamps := request_timestamps th;
     decorated_function := decorated_function th;
     total_calls := S (total_calls th);
     peak_call_rate := Qmax (peak_call_rate th) current_call_rate |}.

Record Metrics : Type := mkMetrics {
  m_decorated_function : option string;
  m_total_calls : nat;
  m_peak_call_rate : Q;
  m_request_rate_limit : Z
}.

Definition get_metrics (th : Throttler) : Metrics :=
  {| m_decorated_function := decorated_function th;
     m_total_calls := total_calls th;
     m_peak_call_rate := peak_call_rate th;
     m_request_rate_limit := max_requests (request_rate th) |}.

(** A run of [get_ticket] calls, one per clock reading, on one throttler:
    the answers, in order, and the throttler afterwards. *)
Fixpoint get_tickets (readings : list Q) (th : Throttler) : list bool * Throttler :=
  match readings with
  | [] => ([], th)
  | t :: rest =>
      let (ok, th1) := get_ticket t th in
      let (oks, th2) := get_tickets rest th1 in
      (ok :: oks, th2)
  end.

(** The clock readings of the admitted calls of a run. *)
Fixpoint admitted (readings : list Q) (oks : list bool) : list Q :=
  match readings, oks with
  | t :: rest, true :: oks' => t :: admitted rest oks'
  | _ :: rest, false :: oks' => admitted rest oks'
  | _, _ => []
  end.

(** [t] lies in the trailing window that ends at [T]: [T - W < t <= T]. *)
Definition in_window (W T t : Q) : bool :=
  negb (Qle_bool t (T - W)) && Qle_bool t T.

Definition count_in_window (W T : Q) (ts : list Q) : nat :=
  length (filter (fun t => in_window W T t = true) ts).

(** Readings of a monotonic clock. *)
Inductive ascending : list Q -> Prop :=
| ascending_nil : ascending []
| ascending_cons t ts :
    Forall (fun u => (t <= u)%Q) ts -> ascending ts -> ascending (t :: ts).

(** ** The world the module runs in *)

(** The five functions decorated with [throttle_requests]; every decoration
    builds a [Throttler] of its own (line 110), captured by the wrapper. *)
Inductive entry_point : Type :=
| EP_get_with_retry
| EP_get_with_retry_async
| EP_stream_with_retry
| EP_post_with_retry
| EP_post_with_retry_async.

Global Instance entry_point_eq_dec : EqDecision entry_point.
Proof. solve_decision. Defined.

Definition entry_point_name (e : entry_point) : string :=
  match e with
  | EP_get_with_retry => "get_with_retry"
  | EP_get_with_retry_async => "get_with_retry_async"
  | EP_stream_with_retry => "stream_with_retry"
  | EP_post_with_retry => "post_with_retry"
  | EP_post_with_retry_async => "post_with_retry_async"
  end.

Definition all_entry_points : list entry_point :=
  [EP_get_with_retry; EP_get_with_retry_async; EP_stream_with_retry;
   EP_post_with_retry; EP_post_with_retry_async].

(** A Python [dict] of strings, and a reference to one in the store. *)
Abbreviation dict := (gmap string string).
Definition ref : Type := nat.

(** [**kwargs]: the [headers] entry holds a reference to a dictionary object;
    [data] and [json] reach [post_with_retry] as keywords through the
    wrappers. *)
Record Kwargs : Type := mkKwargs {
  kw_headers : option ref;
  kw_data : option string;
  kw_json : option string;
  kw_other : dict
}.

Definition no_kwargs : Kwargs :=
  {| kw_headers := None; kw_data := None; kw_json := None; kw_other := ∅ |}.

Definition set_kw_headers (kwargs : Kwargs) (h : ref) : Kwargs :=
  {| kw_headers := Some h;
     kw_data := kw_data kwargs;
     kw_json := kw_json kwargs;
     kw_other := kw_other kwargs |}.

(** The headers of a response, [httpx.Headers]: the fields in the order
    they were received, each a name and a value.  The class belongs to the
    library; what the module uses of it is the lookup by name. *)
Definition Headers : Type := list (string * string).

(** [bytes.lower()]: the ASCII letters A-Z become a-z. *)
Definition lower_ascii (c : ascii) : ascii :=
  let n := N_of_ascii c in
  if ((65 <=? n) && (n <=? 90))%N then ascii_of_N (n + 32) else c.

Fixpoint lower (s : string) : string :=
  match s with
  | EmptyString => EmptyString
  | String c rest => String (lower_ascii c) (lower rest)
  end.

(** [headers[key]]: names are compared in lower case, the values of all
    the fields of that name are joined by a comma and a space, and
    [KeyError], here [None], is raised when there is no such field. *)
Definition Headers_getitem (h : Headers) (key : string) : option string :=
  match List.filter (fun field => String.eqb (lower (fst field)) (lower key)) h with
  | [] => None
  | fields => Some (String.concat ", " (List.map snd fields))
  end.

(** [headers.get(key)]: [None] where [headers[key]] raises. *)
Definition Headers_get (h : Headers) (key : string) : option string :=
  Headers_getitem h key.

Record Response : Type := mkResponse {
  status_code : Z;
  headers : Headers;
  content : string
}.

Inductive http_method : Type := GET | POST.

(** What reaches the transport: the call, its keywords, and the content the
    [headers] object has at that moment. *)
Record Request : Type := mkRequest {
  req_method : http_method;
  req_stream : bool;
  req_url : string;
  req_kwargs : Kwargs;
  req_headers : option dict
}.

(** The transport answers with a response or fails with an
    [httpx.RequestError]; the call takes [elapsed_ms] milliseconds. *)
Record Reply : Type := mkReply {
  outcome : Response + string;
  elapsed_ms : N
}.

Inductive event : Type :=
| EvTicket (e : entry_point) (t : Q)   (* get_ticket returned True at time t *)
| EvSleep (seconds : Q)               (* time.sleep *)
| EvRequest (r : Request)             (* a call of the httpx client *)
| EvCallable.                         (* identity_callable() was called *)

Record World : Type := mkWorld {
  now : Q;                                  (* time.monotonic() *)
  environ : dict;                           (* os.environ *)
  heap : list dict;                         (* dictionary objects, by reference *)
  throttlers : entry_point -> Throttler;
  network : nat -> Request -> Reply;        (* reply to the n-th transport call *)
  retry_wait : Q -> nat -> Q;               (* wait drawn from wait_initial after attempt n *)
  trace : list event                        (* newest first *)
}.

(** An [identity_callable]: reads the world, returns a string or [None]. *)
Definition callable : Type := World -> option string.

Definition set_now (t : Q) (w : World) : World :=
  {| now := t; environ := environ w; heap := heap w; throttlers := throttlers w;
     network := network w; retry_wait := retry_wait w; trace := trace w |}.

Definition set_heap (h : list dict) (w : World) : World :=
  {| now := now w; environ := environ w; heap := h; throttlers := throttlers w;
     network := network w; retry_wait := retry_wait w; trace := trace w |}.

Definition set_throttler (e : entry_point) (th : Throttler) (w : World) : World :=
  {| now := now w; environ := environ w; heap := heap w;
     throttlers := fun e' => if decide (e' = e) then th else throttlers w e';
     network := network w; retry_wait := retry_wait w; trace := trace w |}.

Definition log (ev : event) (w : World) : World :=
  {| now := now w; environ := environ w; heap := heap w; throttlers := throttlers w;
     network := network w; retry_wait := retry_wait w; trace := ev :: trace w |}.

(** ** Calls as state transformers *)

Definition M (A : Type) : Type := World -> Result A * World.

Definition ret {A} (a : A) : M A := fun w => (Ok a, w).
Definition raise {A} (e : exn) : M A := fun w => (Raise e, w).
Definition out_of_fuel {A} : M A := fun w => (OutOfFuel, w).

Definition bind {A B} (m : M A) (k : A -> M B) : M B :=
  fun w =>
    match m w with
    | (Ok a, w') => k a w'
    | (Raise e, w') => (Raise e, w')
    | (OutOfFuel, w') => (OutOfFuel, w')
    end.

Declare Scope py_scope.
Delimit Scope py_scope with py.
Notation "x <- m ;; k" := (bind m (fun x => k))
  (at level 100, m at next level, right associativity) : py_scope.
Notation "m ;;; k" := (bind m (fun _ => k))
  (at level 100, right associativity) : py_scope.
Local Open Scope py_scope.

Definition time_sleep (seconds : Q) : M unit :=
  fun w => (Ok tt, log (EvSleep seconds) (set_now (now w + seconds)%Q w)).

Definition is_request (ev : event) : bool :=
  match ev with EvRequest _ => true | _ => false end.

Definition is_ticket (ev : event) : bool :=
  match ev with EvTicket _ _ => true | _ => false end.

Definition is_ticket_of (e : entry_point) (ev : event) : bool :=
  match ev with EvTicket e' _ => bool_decide (e' = e) | _ => false end.

Definition count_events (p : event -> bool) (w : World) : nat :=
  length (List.filter p (trace w)).

Definition requests_sent (w : World) : nat := count_events is_request w.
Definition tickets_taken (w : World) : nat := count_events is_ticket w.

(** The httpx client: [client.get], [client.post], [client.stream]. *)
Definition client_request (m : http_method) (streaming : bool)
    (url : string) (kwargs : Kwargs) : M Response :=
  fun w =>
    let r := {| req_method := m; req_stream := streaming; req_url := url;
                req_kwargs := kwargs;
                req_headers := h ← kw_headers kwargs; heap w !! h |} in
    let reply := network w (requests_sent w) r in
    let w' := log (EvRequest r)
                  (set_now (now w + (Z.of_N (elapsed_ms reply) # 1000))%Q w) in
    match outcome reply with
    | inl response => (Ok response, w')
    | inr message => (Raise (RequestError message), w')
    end.

(** ** Throttling (lines 62-84, 104-124) *)

Definition Throttler_get_ticket (e : entry_point) : M bool :=
  fun w =>
    let (ok, th) := get_ticket (now w) (throttlers w e) in
    (Ok ok, if ok then log (EvTicket e (now w)) (set_throttler e th w)
            else set_throttler e th w).

Fixpoint wait_for_ticket (fuel : nat) (e : entry_point) : M unit :=
  match fuel with
  | O => out_of_fuel
  | S n =>
      ok <- Throttler_get_ticket e ;;
      if ok then ret tt
      else (fun w => time_sleep (sleep_interval (throttlers w e)) w) ;;;
           wait_for_ticket n e
  end.

Definition Throttler_update_metrics (e : entry_point) : M unit :=
  fun w => (Ok tt, set_throttler e (update_metrics (throttlers w e)) w).

(** [throttle_requests(request_rate, requests_per_second, **kwargs)] up to
    the construction of the throttler (lines 105-110). *)
Definition new_throttler (request_rate : option RequestRate)
    (requests_per_second : option Z) (sleep_interval : Q) : Result Throttler :=
  match requests_per_second with
  | Some n =>
      match RequestRate_init n 1 with
      | Ok rate => Ok (Throttler_init rate sleep_interval)
      | Raise e => Raise e
      | OutOfFuel => OutOfFuel
      end
  | None =>
      match request_rate with
      | Some rate => Ok (Throttler_init rate sleep_interval)
      | None => Raise (ValueError "Either request_rate or requests_per_second must be provided")
      end
  end.

Definition set_decorated_function (name : string) (th : Throttler) : Throttler :=
  {| request_rate := request_rate th;
     sleep_interval := sleep_interval th;
     request_timestamps := request_timestamps th;
     decorated_function := Some name;
     total_calls := total_calls th;
     peak_call_rate := peak_call_rate th |}.

(** The throttler of an entry point as the module creates it when imported:
    [@throttle_requests(requests_per_second=max_requests_per_second)]. *)
Definition module_throttler (e : entry_point) : Throttler :=
  set_decorated_function (entry_point_name e)
    (Throttler_init (mkRequestRate max_requests_per_second 1) (1 # 10)).

(** The wrapper of [throttle_requests]: ticket, call, metrics. *)
Definition throttle_requests {A} (e : entry_point) (fuel : nat) (func : M A) : M A :=
  wait_for_ticket fuel e ;;;
  result <- func ;;
  Throttler_update_metrics e ;;;
  ret result.

(** ** is_redirect and with_identity (lines 127-148) *)

Definition is_redirect (response : Response) : bool :=
  bool_decide (status_code response ∈ [301; 302]%Z).

Definition new_dict : M ref :=
  fun w => (Ok (length (heap w)), set_heap (heap w ++ [∅]) w).

Definition dict_setitem (h : ref) (key value : string) : M unit :=
  fun w => (Ok tt, set_heap (alter (insert key value) h (heap w)) w).

Definition resolve_identity (identity : option string)
    (identity_callable : option callable) : M (option string) :=
  match identity with
  | Some i => ret (Some i)
  | None =>
      match identity_callable with
      | Some f => fun w => (Ok (f w), log EvCallable w)
      | None => fun w => (Ok (environ w !! "EDGAR_IDENTITY"), w)
      end
  end.

Definition with_identity {A}
    (func : string -> option string -> option callable -> Kwargs -> M A)
    (url : string) (identity : option string)
    (identity_callable : option callable) (kwargs : Kwargs) : M A :=
  identity <- resolve_identity identity identity_callable ;;
  match identity with
  | None => raise (IdentityNotSetException "User-Agent identity is not set")
  | Some i =>
      h <- match kw_headers kwargs with
           | Some h => ret h
           | None => new_dict
           end ;;
      dict_setitem h "User-Agent" i ;;;
      func url (Some i) identity_callable (set_kw_headers kwargs h)
  end.

(** ** The retry layer (stamina.retry, line 12) *)

Section Retry.
Context {St A : Type}.
Variable on : exn -> bool.          (* isinstance(e, on) *)
Variable clock : St -> Q.
Variable pause : nat -> St -> St.   (* the wait after failed attempt n *)

(** Modelled from the spec: [stamina.retry] is imported, its code is not
    part of the module.  Section 4.3: invoke the attempt; on a transient
    error wait and retry; once [attempts] are used up or the timeout has
    elapsed, the last transient error goes to the caller; any other error
    propagates at once.  [remaining] counts the attempts still allowed
    after the running one. *)
Fixpoint retry_from (remaining attempt_number : nat) (timeout start : Q)
    (attempt : St -> Result A * St) (s : St) : Result A * St :=
  match attempt s with
  | (Raise e, s') =>
      if on e then
        match remaining with
        | O => (Raise e, s')
        | S r =>
            if Qle_bool timeout (clock s' - start) then (Raise e, s')
            else retry_from r (S attempt_number) timeout start attempt
                            (pause attempt_number s')
        end
      else (Raise e, s')
  | other => other
  end.

(** Modelled from the spec: the decorated call of [stamina.retry], which is
    not part of the module: the first attempt starts the clock of the
    timeout, and [attempts] is the total number of attempts allowed. *)
Definition retry (attempts : nat) (timeout : Q)
    (attempt : St -> Result A * St) (s : St) : Result A * St :=
  retry_from (pred attempts) 1 timeout (clock s) attempt s.
End Retry.

Definition stamina_pause (n : nat) (w : World) : World :=
  snd (time_sleep (retry_wait w wait_initial n) w).

(** [@retry(on=httpx.RequestError, attempts=attempts, timeout=retry_timeout,
    wait_initial=wait_initial)] *)
Definition with_retry {A} (attempt : M A) : M A :=
  retry is_RequestError now stamina_pause attempts retry_timeout attempt.

(** ** The entry points (lines 151-304) *)

Abbreviation pipeline A :=
  (string -> option string -> option callable -> Kwargs -> M A).

(** The three decorators of every entry point, outermost first. *)
Definition decorate {A} (e : entry_point) (fuel : nat) (func : pipeline A) : pipeline A :=
  fun url identity identity_callable kwargs =>
    with_retry
      (with_identity
         (fun url identity identity_callable kwargs =>
            throttle_requests e fuel (func url identity identity_callable kwargs))
         url identity identity_callable kwargs).

(** The body shared by [get_with_retry], [post_with_retry] and their async
    twins; [self] is the decorated function the body calls on a redirect. *)
Definition request_body (m : http_method) (self : pipeline Response) : pipeline Response :=
  fun url identity identity_callable kwargs =>
    response <- client_request m false url kwargs ;;
    if (status_code response =? 429)%Z then
      raise (TooManyRequestsError url "Too Many Requests")
    else if is_redirect response then
      match Headers_getitem (headers response) "Location" with
      | Some location => self location identity identity_callable kwargs
      | None => raise (KeyError "Location")
      end
    else ret response.

Fixpoint get_with_retry (fuel : nat) : pipeline Response :=
  match fuel with
  | O => fun _ _ _ _ => out_of_fuel
  | S n => decorate EP_get_with_retry fuel (request_body GET (get_with_retry n))
  end.

Fixpoint post_with_retry (fuel : nat) : pipeline Response :=
  match fuel with
  | O => fun _ _ _ _ => out_of_fuel
  | S n => decorate EP_post_with_retry fuel (request_body POST (post_with_retry n))
  end.

(** A call of a generator function or of an [async def] function binds the
    arguments and returns an object; the body runs when the object is
    iterated or awaited. *)
Record Frame : Type := mkFrame {
  f_url : string;
  f_identity : option string;
  f_identity_callable : option callable;
  f_kwargs : Kwargs
}.

Definition suspended : pipeline Frame :=
  fun url identity identity_callable kwargs =>
    ret (mkFrame url identity identity_callable kwargs).

Definition get_with_retry_async (fuel : nat) : pipeline Frame :=
  decorate EP_get_with_retry_async fuel suspended.

Definition post_with_retry_async (fuel : nat) : pipeline Frame :=
  decorate EP_post_with_retry_async fuel suspended.

Definition stream_with_retry (fuel : nat) : pipeline Frame :=
  decorate EP_stream_with_retry fuel suspended.

(** [await get_with_retry_async(...)], [await post_with_retry_async(...)]:
    the coroutine runs to its end. *)
Fixpoint await_get (fuel : nat) (c : Frame) : M Response :=
  match fuel with
  | O => out_of_fuel
  | S n =>
      request_body GET
        (fun url identity identity_callable kwargs =>
           c' <- get_with_retry_async n url identity identity_callable kwargs ;;
           await_get n c')
        (f_url c) (f_identity c) (f_identity_callable c) (f_kwargs c)
  end.

Fixpoint await_post (fuel : nat) (c : Frame) : M Response :=
  match fuel with
  | O => out_of_fuel
  | S n =>
      request_body POST
        (fun url identity identity_callable kwargs =>
           c' <- post_with_retry_async n url identity identity_callable kwargs ;;
           await_post n c')
        (f_url c) (f_identity c) (f_identity_callable c) (f_kwargs c)
  end.

(** What a generator of [stream_with_retry] yields. *)
Inductive Item : Type :=
| IResponse (response : Response)
| IGenerator (generator : Frame).

(** The generator of [stream_with_retry] run to exhaustion (lines 228-237):
    the items it yields, in order. *)
Definition stream_items (fuel : nat) (g : Frame) : M (list Item) :=
  response <- client_request GET true (f_url g) (f_kwargs g) ;;
  if (status_code response =? 429)%Z then
    raise (TooManyRequestsError (f_url g) "Too Many Requests")
  else if is_redirect response then
    match Headers_getitem (headers response) "Location" with
    | Some location =>
        inner <- stream_with_retry fuel location (f_identity g)
                   (f_identity_callable g) (f_kwargs g) ;;
        ret [IGenerator inner]
    | None => raise (KeyError "Location")
    end
  else ret [IResponse response].

(** ** The download helpers (lines 307-426) *)

(** A Python [str] as the helpers return it: a sequence of code points.
    Bytes are [string]s, one character per byte. *)
Definition str : Type := list N.

(** [Union[str, bytes]] *)
Inductive Payload : Type :=
| Text (s : str)
| Bytes (b : string).

Definition is_text (payload : Payload) : bool :=
  match payload with Text _ => true | Bytes _ => false end.

(** An exception raised inside a library the helpers call
    ([httpx.HTTPStatusError], [gzip.BadGzipFile], [orjson.JSONDecodeError]);
    the helpers catch none of them. *)
Inductive library_error : Type :=
| LibraryError (class_name : string).

(** How a call of a helper ends. *)
Inductive Outcome (A : Type) : Type :=
| Returned (a : A)
| Raised (x : exn)                    (* an exception of the request pipeline *)
| LibraryRaised (x : library_error)
| Unfinished.                         (* the model of the pipeline ran out of fuel *)
Arguments Returned {A} a.
Arguments Raised {A} x.
Arguments LibraryRaised {A} x.
Arguments Unfinished {A}.

(** What the helpers take from outside the module (lines 1-14): the tuple
    [edgar.core.text_extensions] and the library calls they make. *)
Record Imports : Type := mkImports {
  text_extensions : list string;               (* from edgar.core *)
  raise_for_status : Response -> Outcome unit; (* httpx.Response.raise_for_status *)
  response_text : Response -> str;             (* httpx.Response.text *)
  iter_lines : Response -> list str;           (* httpx.Response.iter_lines, read to the end *)
  utf8_decode : string -> option str;          (* bytes.decode('utf-8'); None: UnicodeDecodeError *)
  gzip_read : string -> Outcome string;        (* gzip.open(BytesIO(content), 'rb').read() *)
  gzip_decompress : string -> Outcome string;  (* gzip.decompress *)
  Json : Type;
  json_loads : Payload -> Outcome Json         (* orjson.loads *)
}.

Definition Helper (A : Type) : Type := World -> Outcome A * World.

Definition returned {A} (a : A) : Helper A := fun w => (Returned a, w).

(** A call of the pipeline from a helper. *)
Definition called {A} (m : M A) : Helper A :=
  fun w =>
    match m w with
    | (Ok a, w') => (Returned a, w')
    | (Raise x, w') => (Raised x, w')
    | (OutOfFuel, w') => (Unfinished, w')
    end.

(** A call of a library from a helper. *)
Definition library {A} (o : Outcome A) : Helper A := fun w => (o, w).

Definition and_then {A B} (m : Helper A) (k : A -> Helper B) : Helper B :=
  fun w =>
    match m w with
    | (Returned a, w') => k a w'
    | (Raised x, w') => (Raised x, w')
    | (LibraryRaised x, w') => (LibraryRaised x, w')
    | (Unfinished, w') => (Unfinished, w')
    end.

Declare Scope helper_scope.
Delimit Scope helper_scope with helper.
Notation "x <- m ;; k" := (and_then m (fun x => k))
  (at level 100, m at next level, right associativity) : helper_scope.
Notation "m ;;; k" := (and_then m (fun _ => k))
  (at level 100, right associativity) : helper_scope.
Local Open Scope helper_scope.

(** [s.endswith(suffix)] *)
Fixpoint endswith (s suffix : string) : bool :=
  if decide (s = suffix) then true
  else match s with
       | EmptyString => false
       | String _ rest => endswith rest suffix
       end.

(** [s.endswith(suffixes)] for a tuple, and
    [any([s.endswith(ext) for ext in suffixes])]. *)
Definition endswith_any (s : string) (suffixes : list string) : bool :=
  existsb (endswith s) suffixes.

(** Lines 307-312. *)
Definition inspect_response (lib : Imports) (response : Response) : Helper unit :=
  if (status_code response =? 200)%Z then returned tt
  else library (raise_for_status lib response).

(** [content.decode('latin-1')]: every byte is the code point of its value. *)
Definition latin1_decode (content : string) : str :=
  List.map N_of_ascii (list_ascii_of_string content).

(** Lines 315-322. *)
Definition decode_content (lib : Imports) (content : string) : str :=
  match utf8_decode lib content with
  | Some text => text
  | None => latin1_decode content
  end.

(** Lines 325-362. *)
Definition download_file (lib : Imports) (fuel : nat) (url : string)
    (as_text : option bool) : Helper Payload :=
  let as_text :=
    match as_text with
    | None => endswith_any url (text_extensions lib)
    | Some b => b
    end in
  response <- called (get_with_retry fuel url None None no_kwargs) ;;
  inspect_response lib response ;;;
  let as_text :=
    if negb as_text then endswith_any url (text_extensions lib) else as_text in
  if endswith url "gz" then
    file_content <- library (gzip_read lib (content response)) ;;
    if as_text then returned (Text (decode_content lib file_content))
    else returned (Bytes file_content)
  else if as_text then returned (Text (response_text lib response))
  else returned (Bytes (content response)).

(** Lines 365-394, awaited. *)
Definition download_file_async (lib : Imports) (fuel : nat) (url : string)
    (as_text : option bool) : Helper Payload :=
  let as_text :=
    match as_text with
    | None => endswith_any url (text_extensions lib)
    | Some b => b
    end in
  c <- called (get_with_retry_async fuel url None None no_kwargs) ;;
  response <- called (await_get fuel c) ;;
  inspect_response lib response ;;;
  if as_text then returned (Text (response_text lib response))
  else if decide (Headers_get (headers response) "Content-Encoding" = Some "gzip") then
    content <- library (gzip_decompress lib (content response)) ;;
    returned (Bytes content)
  else returned (Bytes (content response)).

(** Lines 397-408. *)
Definition download_json (lib : Imports) (fuel : nat) (data_url : string) :
    Helper (Json lib) :=
  content <- download_file lib fuel data_url (Some true) ;;
  library (json_loads lib content).

(** Lines 411-412. *)
Definition download_text (lib : Imports) (fuel : nat) (url : string) :
    Helper Payload :=
  download_file lib fuel url (Some true).

(** Lines 415-426, awaited. *)
Definition download_json_async (lib : Imports) (fuel : nat) (data_url : string) :
    Helper (Json lib) :=
  content <- download_file_async lib fuel data_url (Some true) ;;
  library (json_loads lib content).

Local Close Scope helper_scope.

(** ** download_text_between_tags (lines 429-458) *)

(** A [str] literal of ASCII characters. *)
Definition literal (s : string) : str :=
  List.map N_of_ascii (list_ascii_of_string s).

(** [s.startswith(prefix)] *)
Fixpoint startswith (s prefix : str) : bool :=
  match prefix, s with
  | [], _ => true
  | _ :: _, [] => false
  | p :: prefix', c :: s' => (c =? p)%N && startswith s' prefix'
  end.

(** The inner [for line in response.iter_lines()] loop on the pair
    [(is_header, content)]; the lines are those the library yields. *)
Fixpoint scan_lines (tag_start tag_end : str) (lines : list str)
    (st : bool * str) : bool * str :=
  match lines with
  | [] => st
  | line :: rest =>
      if decide (line = []) then scan_lines tag_start tag_end rest st
      else if startswith line tag_start then
        scan_lines tag_start tag_end rest (true, snd st)
      else if startswith line tag_end then st
      else if fst st then
        scan_lines tag_start tag_end rest
          (true, (snd st ++ line ++ literal (String "010" ""))%list)
      else scan_lines tag_start tag_end rest st
  end.

Fixpoint scan_items (lib : Imports) (tag_start tag_end : str) (items : list Item)
    (st : bool * str) : Result str :=
  match items with
  | [] => Ok (snd st)
  | IResponse response :: rest =>
      scan_items lib tag_start tag_end rest
        (scan_lines tag_start tag_end (iter_lines lib response) st)
  | IGenerator _ :: _ =>
      Raise (AttributeError "'generator' object has no attribute 'iter_lines'")
  end.

Definition download_text_between_tags (lib : Imports) (fuel : nat)
    (url : string) (tag : str) : M str :=
  let tag_start := (literal "<" ++ tag ++ literal ">")%list in
  let tag_end := (literal "</" ++ tag ++ literal ">")%list in
  g <- stream_with_retry fuel url None None no_kwargs ;;
  items <- stream_items fuel g ;;
  fun w => (scan_items lib tag_start tag_end items (false, []), w).

(** ** Notions used by the statements *)

(** The throttler of [e] is as the module built it and holds no timestamp
    of the future. *)
Definition ready (e : entry_point) (w : World) : Prop :=
  request_rate (throttlers w e) = mkRequestRate max_requests_per_second 1 /\
  sleep_interval (throttlers w e) = (1 # 10)%Q /\
  Forall (fun t => (t <= now w)%Q) (request_timestamps (throttlers w e)).

(** The world in which the function wrapped by [with_identity] starts, once
    the identity [i] is known (lines 142-144). *)
Definition with_user_agent (i : string) (kwargs : Kwargs) (w : World) : World :=
  snd ((h <- match kw_headers kwargs with
             | Some h => ret h
             | None => new_dict
             end ;;
        dict_setitem h "User-Agent" i) w).

(** The reference [kwargs["headers"]] holds after line 144. *)
Definition headers_ref (kwargs : Kwargs) (w : World) : ref :=
  match kw_headers kwargs with
  | Some h => h
  | None => length (heap w)
  end.

(** The requests sent so far, oldest first. *)
Definition requests_of (w : World) : list Request :=
  rev (omap (fun ev => match ev with EvRequest r => Some r | _ => None end)
            (trace w)).

(** The world after the transport call. *)
Definition after_request (m : http_method) (streaming : bool) (url : string)
    (kwargs : Kwargs) (w : World) : World :=
  snd (client_request m streaming url kwargs w).

Definition request_made (m : http_method) (streaming : bool) (url : string)
    (kwargs : Kwargs) (w : World) : Request :=
  {| req_method := m; req_stream := streaming; req_url := url;
     req_kwargs := kwargs;
     req_headers := kw_headers kwargs ≫= fun h => heap w !! h |}.

(** A use of the module: one of the five entry points is called, and a
    coroutine or generator is awaited or iterated on the spot. *)
Inductive call : Type :=
| CallGet (url : string) (identity : option string)
      (identity_callable : option callable) (kwargs : Kwargs)
| CallGetAsync (url : string) (identity : option string)
      (identity_callable : option callable) (kwargs : Kwargs)
| CallStream (url : string) (identity : option string)
      (identity_callable : option callable) (kwargs : Kwargs)
| CallPost (url : string) (identity : option string)
      (identity_callable : option callable) (kwargs : Kwargs)
| CallPostAsync (url : string) (identity : option string)
      (identity_callable : option callable) (kwargs : Kwargs).

Definition run_call (fuel : nat) (c : call) : M unit :=
  match c with
  | CallGet url identity identity_callable kwargs =>
      get_with_retry fuel url identity identity_callable kwargs ;;; ret tt
  | CallGetAsync url identity identity_callable kwargs =>
      c <- get_with_retry_async fuel url identity identity_callable kwargs ;;
      await_get fuel c ;;; ret tt
  | CallStream url identity identity_callable kwargs =>
      g <- stream_with_retry fuel url identity identity_callable kwargs ;;
      stream_items fuel g ;;; ret tt
  | CallPost url identity identity_callable kwargs =>
      post_with_retry fuel url identity identity_callable kwargs ;;; ret tt
  | CallPostAsync url identity identity_callable kwargs =>
      c <- post_with_retry_async fuel url identity identity_callable kwargs ;;
      await_post fuel c ;;; ret tt
  end.

(** The call of the entry point [e] with the given arguments. *)
Definition call_of (e : entry_point) (url : string) (identity : option string)
    (identity_callable : option callable) (kwargs : Kwargs) : call :=
  match e with
  | EP_get_with_retry => CallGet url identity identity_callable kwargs
  | EP_get_with_retry_async => CallGetAsync url identity identity_callable kwargs
  | EP_stream_with_retry => CallStream url identity identity_callable kwargs
  | EP_post_with_retry => CallPost url identity identity_callable kwargs
  | EP_post_with_retry_async => CallPostAsync url identity identity_callable kwargs
  end.

(** The [headers] keyword, when given, refers to an object of the store. *)
Definition allocated (kwargs : Kwargs) (w : World) : Prop :=
  forall l, kw_headers kwargs = Some l -> (l < length (heap w))%nat.

(** Between [w] and [w'] a transport call was made, the first of them for
    [url], and the headers it was handed held [i] as [User-Agent]. *)
Definition sends_as (i : string) (url : string) (w w' : World) : Prop :=
  exists r more h,
    requests_of w' = (requests_of w ++ r :: more)%list /\
    req_url r = url /\
    req_headers r = Some h /\ h !! "User-Agent" = Some i.

(** The end of the wrapper of [throttle_requests] (lines 118-120): metrics
    are updated when the wrapped call returns, not when it raises. *)
Definition throttle_epilogue {A} (e : entry_point) (rw : Result A * World) :
    Result A * World :=
  match rw with
  | (Ok result, w) => (Ok result, snd (Throttler_update_metrics e w))
  | (Raise x, w) => (Raise x, w)
  | (OutOfFuel, w) => (OutOfFuel, w)
  end.

(** One attempt of a decorated function: what the retry layer calls. *)
Definition attempt {A} (e : entry_point) (fuel : nat) (func : pipeline A) : pipeline A :=
  with_identity
    (fun url identity identity_callable kwargs =>
       throttle_requests e fuel (func url identity identity_callable kwargs)).

(** ** Scenarios: a mock transport and a freshly imported module *)

Definition answer (status : Z) (hs : Headers) : Reply :=
  {| outcome := inl (mkResponse status hs ""); elapsed_ms := 20 |}.

Definition failure (message : string) : Reply :=
  {| outcome := inr message; elapsed_ms := 20 |}.

(** The transport answers the n-th call with the n-th reply of the script,
    whatever the request. *)
Definition scripted (replies : list Reply) : nat -> Request -> Reply :=
  fun n _ => List.nth n replies (answer 200 []).

Definition imported (env : dict) (net : nat -> Request -> Reply) : World :=
  {| now := 0;
     environ := env;
     heap := [];
     throttlers := module_throttler;
     network := net;
     retry_wait := fun initial _ => initial;
     trace := [] |}.

(** A burst of calls: [n] calls of each of the five entry points, one after
    the other, the deferred ones run to their end. *)
Fixpoint repeat_call {A} (n : nat) (m : M A) : M unit :=
  match n with
  | O => ret tt
  | S n' => m ;;; repeat_call n' m
  end.

Definition burst (fuel n : nat) (url : string) (identity : option string) : M unit :=
  repeat_call n (get_with_retry fuel url identity None no_kwargs) ;;;
  repeat_call n (c <- get_with_retry_async fuel url identity None no_kwargs ;;
                 await_get fuel c) ;;;
  repeat_call n (g <- stream_with_retry fuel url identity None no_kwargs ;;
                 stream_items fuel g) ;;;
  repeat_call n (post_with_retry fuel url identity None no_kwargs) ;;;
  repeat_call n (c <- post_with_retry_async fuel url identity None no_kwargs ;;
                 await_post fuel c).

(** The times at which tickets were granted, newest first. *)
Definition ticket_times (w : World) : list Q :=
  omap (fun ev => match ev with EvTicket _ t => Some t | _ => None end) (trace w).

Definition is_sleep (ev : event) : bool :=
  match ev with EvSleep _ => true | _ => false end.

(** The identity every resolution of a call yields: the explicit argument,
    or a callable that always answers the same, or the environment. *)
Definition resolves_to (i : string) (env : dict) (identity : option string)
    (identity_callable : option callable) : Prop :=
  match identity, identity_callable with
  | Some j, _ => j = i
  | None, Some f => forall w, f w = Some i
  | None, None => env !! "EDGAR_IDENTITY" = Some i
  end.

(** A transport call that was handed the dictionary object [l], which held
    [content] at that moment. *)
Definition carries (l : ref) (content : option dict) (ev : event) : Prop :=
  match ev with
  | EvRequest r => kw_headers (req_kwargs r) = Some l /\ req_headers r = content
  | _ => True
  end.

(** What a call leaves of the caller's dictionary [l], which held [d]: the
    store differs in the [User-Agent] entry of that object only, and every
    transport call made on the way was handed that object, so written. *)
Definition written_in_place (l : ref) (i : string) (d : dict) (w w' : World) : Prop :=
  heap w' = <[l := <["User-Agent" := i]> d]> (heap w) /\
  exists new, trace w' = (new ++ trace w)%list /\
              Forall (carries l (Some (<["User-Agent" := i]> d))) new.

(** Between [w] and [w'] transport calls were made, and each of them was
    handed the caller's dictionary [l], which held [d] with [User-Agent]
    set to [i]. *)
Definition forwarded (l : ref) (i : string) (d : dict) (w w' : World) : Prop :=
  exists r more,
    requests_of w' = (requests_of w ++ r :: more)%list /\
    Forall (fun r => kw_headers (req_kwargs r) = Some l /\
                     req_headers r = Some (<["User-Agent" := i]> d))
           (r :: more).

(** An attempt on a bare counter of invocations: it raises a transient error
    while the counter is below [k] and returns the counter afterwards. *)
Definition flaky (k : nat) (s : nat) : Result nat * nat :=
  (if (s <? k)%nat then Raise (RequestError "timed out") else Ok s, S s).

(** ** Notions used by the further properties *)

(** A call of a method of one throttler, and a run of such calls. *)
Inductive throttler_call : Type :=
| GetTicket (current_time : Q)   (* [get_ticket] when the clock reads [current_time] *)
| UpdateMetrics.                 (* [update_metrics] *)

Definition throttler_step (th : Throttler) (c : throttler_call) : Throttler :=
  match c with
  | GetTicket current_time => snd (get_ticket current_time th)
  | UpdateMetrics => update_metrics th
  end.

Definition throttler_run (calls : list throttler_call) (th : Throttler) : Throttler :=
  fold_left throttler_step calls th.

Definition is_update (c : throttler_call) : bool :=
  match c with UpdateMetrics => true | GetTicket _ => false end.

(** The transport answers the calls from number [n] on with the redirects
    of [chain], each to the location beside it, and then with [final]. *)
Fixpoint answers_chain (net : nat -> Request -> Reply) (n : nat)
    (chain : list (Response * string)) (final : Response) : Prop :=
  match chain with
  | [] => forall req, outcome (net n req) = inl final
  | (redirect, location) :: rest =>
      (forall req, outcome (net n req) = inl redirect) /\
      (status_code redirect = 301 \/ status_code redirect = 302)%Z /\
      Headers_getitem (headers redirect) "Location" = Some location /\
      answers_chain net (S n) rest final
  end.

(** The lines the loop of [download_text_between_tags] tells apart (lines
    445-457): the line that starts the capture, the line that ends the
    scan of a response, and the lines that are captured in between. *)
Definition opens (tag_start line : str) : bool :=
  negb (bool_decide (line = [])) && startswith line tag_start.

Definition closes (tag_start tag_end line : str) : bool :=
  negb (bool_decide (line = [])) && negb (startswith line tag_start)
  && startswith line tag_end.

Definition kept (tag_start tag_end line : str) : bool :=
  negb (bool_decide (line = [])) && negb (startswith line tag_start)
  && negb (startswith line tag_end).

(** The lines, each followed by a newline. *)
Fixpoint joined (lines : list str) : str :=
  match lines with
  | [] => []
  | line :: rest => (line ++ literal (String "010" "") ++ joined rest)%list
  end.

(** [str.splitlines()]: a line ends at LF, CR, CR LF, VT, FF, FS, GS, RS,
    NEL, LS or PS, and a line end that ends the text opens no further
    line. *)
Definition is_line_boundary (c : N) : bool :=
  existsb (N.eqb c) [10; 11; 12; 13; 28; 29; 30; 133; 8232; 8233]%N.

Fixpoint splitlines_from (line text : str) : list str :=
  match text with
  | [] => if decide (line = []) then [] else [line]
  | c :: rest =>
      if is_line_boundary c then
        line :: match rest with
                | c' :: rest' =>
                    if ((c =? 13) && (c' =? 10))%N then splitlines_from [] rest'
                    else splitlines_from [] rest
                | [] => splitlines_from [] rest
                end
      else splitlines_from (line ++ [c])%list rest
  end.

Definition splitlines (text : str) : list str := splitlines_from [] text.

Definition is_callable_call (ev : event) : bool :=
  match ev with EvCallable => true | _ => false end.

(** Stand-ins for the libraries in the scenarios: [raise_for_status] raises
    outside 2xx, text is read as latin-1 and split into lines as
    [str.splitlines] does, UTF-8 decoding accepts ASCII only, and a gzip
    file is its content behind the two magic bytes. *)
Definition stand_in : Imports :=
  {| text_extensions := [".txt"; ".htm"; ".html"; ".xml"; ".json"];
     raise_for_status := fun response =>
       if ((200 <=? status_code response) && (status_code response <? 300))%Z
       then Returned tt
       else LibraryRaised (LibraryError "HTTPStatusError");
     response_text := fun response => latin1_decode (content response);
     iter_lines := fun response => splitlines (latin1_decode (content response));
     utf8_decode := fun content =>
       if forallb (fun c => (N_of_ascii c <? 128)%N) (list_ascii_of_string content)
       then Some (latin1_decode content)
       else None;
     gzip_read := fun content =>
       match content with
       | String "031" (String "139" rest) => Returned rest
       | _ => LibraryRaised (LibraryError "BadGzipFile")
       end;
     gzip_decompress := fun content =>
       match content with
       | String "031" (String "139" rest) => Returned rest
       | _ => LibraryRaised (LibraryError "BadGzipFile")
       end;
     Json := Payload;
     json_loads := fun payload => Returned payload |}.

Definition answer_with (status : Z) (hs : Headers) (content : string) : Reply :=
  {| outcome := inl (mkResponse status hs content); elapsed_ms := 20 |}.

(** What the call of a deferred entry point throttled as [e] does to the
    world [w]: it returns [frame], one ticket and one counted call later,
    and sends nothing. *)
Definition ticket_only (e : entry_point) (frame : Frame) (w : World)
    (rw : Result Frame * World) : Prop :=
  fst rw = Ok frame /\
  requests_sent (snd rw) = requests_sent w /\
  tickets_taken (snd rw) = S (tickets_taken w) /\
  total_calls (throttlers (snd rw) e) = S (total_calls (throttlers w e)).

(** What running the body held by [c] does to the world [w] when it ends
    with [result] after its first transport call: one request, for the URL
    and with the keywords the frame holds, no ticket, the throttlers as they
    were, and the clock moved on by the time the transport took. *)
Definition request_only {A} (m : http_method) (streaming : bool) (c : Frame)
    (w : World) (result : Result A) (rw : Result A * World) : Prop :=
  fst rw = result /\
  requests_of (snd rw)
  = (requests_of w ++ [request_made m streaming (f_url c) (f_kwargs c) w])%list /\
  tickets_taken (snd rw) = tickets_taken w /\
  throttlers (snd rw) = throttlers w /\
  now (snd rw)
  = (now w + (Z.of_N (elapsed_ms (network w (requests_sent w)
                        (request_made m streaming (f_url c) (f_kwargs c) w)))
              # 1000))%Q.

(** What following the redirects of [chain] from [url] means for the
    result [rw] of a call made in the world [w]: the final response comes
    back, and one ticket was taken and one request sent for [url] and for
    every location in turn, all with the method [m] and the keywords
    [kwargs]. *)
Definition chain_followed (m : http_method) (url : string) (kwargs : Kwargs)
    (chain : list (Response * string)) (final : Response) (w : World)
    (rw : Result Response * World) : Prop :=
  fst rw = Ok final /\
  requests_sent (snd rw) = (requests_sent w + S (length chain))%nat /\
  tickets_taken (snd rw) = (tickets_taken w + S (length chain))%nat /\
  exists rs,
    requests_of (snd rw) = (requests_of w ++ rs)%list /\
    List.map req_url rs = url :: List.map snd chain /\
    Forall (fun r => req_method r = m /\ req_kwargs r = kwargs) rs.

(** What a call through the throttler of [e] leaves in its counters: the
    ticket is taken in any case; the call is counted unless it raised. *)
Definition counted (e : entry_point) (w : World) (raised : bool)
    {A} (rw : Result A * World) : Prop :=
  tickets_taken (snd rw) = S (tickets_taken w) /\
  total_calls (throttlers (snd rw) e)
  = if raised then total_calls (throttlers w e)
    else S (total_calls (throttlers w e)).

(** What a call made without [headers] leaves in the store and hands to the
    transport: one new dictionary, which holds the [User-Agent] entry. *)
Definition fresh_headers (i : string) (w : World) {A}
    (rw : Result A * World) : Prop :=
  heap (snd rw) = (heap w ++ [{[ "User-Agent" := i ]}])%list /\
  exists r,
    requests_of (snd rw) = (requests_of w ++ [r])%list /\
    kw_headers (req_kwargs r) = Some (length (heap w)) /\
    req_headers r = Some {[ "User-Agent" := i ]}.

(** [[f(x) for x in xs]] *)
Fixpoint for_each {A B} (f : A -> M B) (xs : list A) : M (list B) :=
  match xs with
  | [] => ret []
  | x :: rest => b <- f x ;; bs <- for_each f rest ;; ret (b :: bs)
  end.

(** The timestamps of the tickets the throttler of [e] has granted, oldest
    first. *)
Definition tickets_of (e : entry_point) (w : World) : list Q :=
  rev (omap (fun ev => match ev with
                       | EvTicket e' t => if decide (e' = e) then Some t else None
                       | _ => None
                       end) (trace w)).

(** A caller that makes the calls one after the other, whatever each of
    them returns or raises. *)
Definition run_calls (fuel : nat) (calls : list call) (w : World) : World :=
  fold_left (fun w c => snd (run_call fuel c w)) calls w.

(** ** Notions used by the proofs *)

Local Close Scope string_scope.

(** [m] keeps [Inv], relates the world before to the world after by [Rel],
    and returns a value that satisfies [Q]. *)
Definition keeps {A} (Inv : World -> Prop) (Rel : World -> World -> Prop)
    (Q : A -> Prop) (m : M A) : Prop :=
  forall w, Inv w ->
    Inv (snd (m w)) /\ Rel w (snd (m w)) /\ forall a, fst (m w) = Ok a -> Q a.

Definition anything {A} : A -> Prop := fun _ => True.

(** The requests sent up to [w] are the first of those sent up to [w']. *)
Definition grows (w w' : World) : Prop :=
  exists more, requests_of w' = requests_of w ++ more.

(** The arguments a suspended call holds are admissible. *)
Definition okframe (okargs : option string -> option callable -> Kwargs -> Prop)
    (c : Frame) : Prop :=
  okargs (f_identity c) (f_identity_callable c) (f_kwargs c).

(** What a run of admissions keeps true: [history] is every timestamp ever
    admitted, [last] a lower bound of the clock. *)
Record window_inv (rate : RequestRate) (last : Q) (history : list Q)
    (th : Throttler) : Prop := {
  inv_rate : request_rate th = rate;
  inv_split : exists purged,
      history = purged ++ request_timestamps th /\
      Forall (fun t => (t <= last - inject_Z (time_window rate))%Q) purged;
  inv_past : Forall (fun t => (t <= last)%Q) history;
  inv_ascending : ascending history;
  inv_length :
    (Z.of_nat (length (request_timestamps th)) <= max_requests rate)%Z;
  inv_bound : forall T,
      (Z.of_nat (count_in_window (inject_Z (time_window rate)) T history)
       <= max_requests rate)%Z
}.

(** The worlds [wait_for_ticket] goes through, as a step relation: either
    the ticket is granted now, or the call sleeps and tries again. *)
Inductive waits (e : entry_point) : World -> World -> Prop :=
| waits_granted w th :
    get_ticket (now w) (throttlers w e) = (true, th) ->
    waits e w (log (EvTicket e (now w)) (set_throttler e th w))
| waits_sleep w th w' :
    get_ticket (now w) (throttlers w e) = (false, th) ->
    waits e (snd (time_sleep (sleep_interval th) (set_throttler e th w))) w' ->
    waits e w w'.

(** What taking a ticket through the throttler of [e] changes and what it
    leaves alone. *)
Record ticket_step (e : entry_point) (w w' : World) : Prop := {
  ts_network : network w' = network w;
  ts_retry_wait : retry_wait w' = retry_wait w;
  ts_environ : environ w' = environ w;
  ts_heap : heap w' = heap w;
  ts_others : forall e', e' <> e -> throttlers w' e' = throttlers w e';
  ts_rate : request_rate (throttlers w' e) = request_rate (throttlers w e);
  ts_sleep : sleep_interval (throttlers w' e) = sleep_interval (throttlers w e);
  ts_calls : total_calls (throttlers w' e) = total_calls (throttlers w e);
  ts_requests : requests_of w' = requests_of w;
  ts_sent : requests_sent w' = requests_sent w;
  ts_tickets : tickets_taken w' = S (tickets_taken w)
}.

(** Nothing but the store and the log of callable calls may differ. *)
Record quiet (w w' : World) : Prop := {
  q_now : now w' = now w;
  q_network : network w' = network w;
  q_retry_wait : retry_wait w' = retry_wait w;
  q_environ : environ w' = environ w;
  q_throttlers : throttlers w' = throttlers w;
  q_requests : requests_of w' = requests_of w;
  q_sent : requests_sent w' = requests_sent w;
  q_tickets : tickets_taken w' = tickets_taken w
}.

(** Where the body of an entry point starts: identity resolved, headers
    written, ticket taken, nothing sent yet. *)
Record body_entry (e : entry_point) (i : string) (kwargs : Kwargs)
    (w w1 : World) : Prop := {
  be_network : network w1 = network w;
  be_retry_wait : retry_wait w1 = retry_wait w;
  be_environ : environ w1 = environ w;
  be_heap : heap w1 = heap (with_user_agent i kwargs w);
  be_others : forall e', e' <> e -> throttlers w1 e' = throttlers w e';
  be_requests : requests_of w1 = requests_of w;
  be_sent : requests_sent w1 = requests_sent w;
  be_tickets : tickets_taken w1 = S (tickets_taken w);
  be_ready : ready e w1;
  be_clock : (now w <= now w1)%Q;
  be_soon : (now w1 <= now w + (11 # 10))%Q
}.

(** One transport call: the request [r] is logged and the clock moves on
    by the time the call took. *)
Record request_step (e : entry_point) (r : Request) (w w' : World) : Prop := {
  rs_network : network w' = network w;
  rs_retry_wait : retry_wait w' = retry_wait w;
  rs_environ : environ w' = environ w;
  rs_heap : heap w' = heap w;
  rs_throttlers : throttlers w' = throttlers w;
  rs_requests : requests_of w' = requests_of w ++ [r];
  rs_sent : requests_sent w' = S (requests_sent w);
  rs_tickets : tickets_taken w' = tickets_taken w;
  rs_ready : ready e w -> ready e w';
  rs_clock : (now w <= now w')%Q;
  rs_elapsed :
    now w' = (now w + (Z.of_N (elapsed_ms (network w (requests_sent w) r)) # 1000))%Q
}.

(** [update_metrics] on the throttler of [e]. *)
Record metrics_step (e : entry_point) (w w' : World) : Prop := {
  ms_now : now w' = now w;
  ms_network : network w' = network w;
  ms_retry_wait : retry_wait w' = retry_wait w;
  ms_environ : environ w' = environ w;
  ms_heap : heap w' = heap w;
  ms_others : forall e', e' <> e -> throttlers w' e' = throttlers w e';
  ms_calls : total_calls (throttlers w' e) = S (total_calls (throttlers w e));
  ms_requests : requests_of w' = requests_of w;
  ms_sent : requests_sent w' = requests_sent w;
  ms_tickets : tickets_taken w' = tickets_taken w
}.

(** Where a redirect hop starts: one ticket and one request later. *)
Record hop_entry (e : entry_point) (m : http_method) (streaming : bool)
    (url : string) (kwargs : Kwargs) (w w2 : World) : Prop := {
  he_network : network w2 = network w;
  he_retry_wait : retry_wait w2 = retry_wait w;
  he_environ : environ w2 = environ w;
  he_sent : requests_sent w2 = S (requests_sent w);
  he_tickets : tickets_taken w2 = S (tickets_taken w);
  he_ready : ready e w2;
  he_requests : exists r,
      requests_of w2 = requests_of w ++ [r] /\
      req_url r = url /\ req_method r = m /\ req_stream r = streaming /\
      req_kwargs r = kwargs
}.


(** The frame of any call made through the throttler of [e]: the
    environment, the other throttlers and the settings of this one stay. *)
Record steady (e : entry_point) (w w' : World) : Prop := {
  st_network : network w' = network w;
  st_retry_wait : retry_wait w' = retry_wait w;
  st_environ : environ w' = environ w;
  st_others : forall e', e' <> e -> throttlers w' e' = throttlers w e';
  st_rate : request_rate (throttlers w' e) = request_rate (throttlers w e);
  st_sleep : sleep_interval (throttlers w' e) = sleep_interval (throttlers w e);
  st_function :
    decorated_function (throttlers w' e) = decorated_function (throttlers w e)
}.

(** What every call of a method keeps true of the counters. *)
Record metrics_inv (rate : RequestRate) (th : Throttler) : Prop := {
  mi_rate : request_rate th = rate;
  mi_length : (Z.of_nat (length (request_timestamps th)) <= max_requests rate)%Z;
  mi_low : (0 <= peak_call_rate th)%Q;
  mi_high : (peak_call_rate th
             <= inject_Z (max_requests rate) / inject_Z (time_window rate))%Q
}.

(** What every call keeps of the throttlers: the waits of the retry layer
    are not negative, the polling interval is as the module set it, the
    tickets of every entry point, with its deque, are as [window_inv]
    has them, up to the clock, and its counters as [metrics_inv] has
    them. *)
Record limited (w : World) : Prop := {
  lim_wait : forall n, (0 <= retry_wait w wait_initial n)%Q;
  lim_sleep : forall e, sleep_interval (throttlers w e) = (1 # 10)%Q;
  lim_window : forall e,
      window_inv (mkRequestRate max_requests_per_second 1) (now w)
                 (tickets_of e w) (throttlers w e);
  lim_metrics : forall e,
      metrics_inv (mkRequestRate max_requests_per_second 1) (throttlers w e)
}.

(** * Properties *)

(** ** Rational comparisons *)

Lemma Qle_bool_true (x y : Q) : Qle_bool x y = true <-> (x <= y)%Q.
Proof. apply Qle_bool_iff. Qed.

Lemma Qle_bool_false (x y : Q) : Qle_bool x y = false <-> (y < x)%Q.
Proof.
  split; intros H.
  - apply Qnot_le_lt. intros Hle. apply Qle_bool_iff in Hle. congruence.
  - destruct (Qle_bool x y) eqn:E; [|reflexivity].
    apply Qle_bool_iff in E. exfalso. apply (Qlt_not_le _ _ H E).
Qed.

Lemma in_window_true (W T t : Q) :
  in_window W T t = true <-> (T - W < t)%Q /\ (t <= T)%Q.
Proof.
  unfold in_window. rewrite andb_true_iff, negb_true_iff.
  rewrite Qle_bool_false, Qle_bool_true. reflexivity.
Qed.

(** ** RequestRate *)

Lemma RequestRate_init_rejects (n w : Z) :
  (n <= 0 \/ w <= 0)%Z ->
  exists message, RequestRate_init n w = Raise (ValueError message).
Proof.
  intros H. unfold RequestRate_init.
  destruct (Z.leb_spec n 0); [eauto|].
  destruct (Z.leb_spec w 0); [eauto|lia].
Qed.

Lemma RequestRate_init_accepts (n w : Z) :
  (0 < n)%Z -> (0 < w)%Z ->
  RequestRate_init n w = Ok (mkRequestRate n w).
Proof.
  intros Hn Hw. unfold RequestRate_init.
  destruct (Z.leb_spec n 0); [lia|].
  destruct (Z.leb_spec w 0); [lia|reflexivity].
Qed.

Lemma RequestRate_init_Ok (n w : Z) (rate : RequestRate) :
  RequestRate_init n w = Ok rate ->
  (0 < n)%Z /\ (0 < w)%Z /\ rate = mkRequestRate n w.
Proof.
  unfold RequestRate_init.
  destruct (Z.leb_spec n 0); [discriminate|].
  destruct (Z.leb_spec w 0); [discriminate|].
  intros [= <-]. auto.
Qed.

Lemma get_ticket_request_rate (t : Q) (th : Throttler) :
  request_rate (snd (get_ticket t th)) = request_rate th.
Proof. unfold get_ticket. now destruct (_ <? _)%Z. Qed.

Lemma get_ticket_sleep_interval (t : Q) (th : Throttler) :
  sleep_interval (snd (get_ticket t th)) = sleep_interval th.
Proof. unfold get_ticket. now destruct (_ <? _)%Z. Qed.

Lemma get_tickets_request_rate (readings : list Q) (th : Throttler) :
  request_rate (snd (get_tickets readings th)) = request_rate th.
Proof.
  revert th. induction readings as [|t rest IH]; intros th; simpl; [reflexivity|].
  destruct (get_ticket t th) as [ok th1] eqn:E1.
  destruct (get_tickets rest th1) as [oks th2] eqn:E2. simpl.
  change th2 with (snd (oks, th2)). rewrite <- E2, IH.
  change th1 with (snd (ok, th1)). rewrite <- E1.
  apply get_ticket_request_rate.
Qed.

(** ** The sliding window of one throttler *)

Lemma popleft_expired_split (threshold : Q) (ts : list Q) :
  exists k,
    popleft_expired threshold ts = drop k ts /\
    Forall (fun t => (t <= threshold)%Q) (take k ts).
Proof.
  induction ts as [|t rest [k [Hd Hf]]]; simpl.
  - exists 0%nat. split; [reflexivity|constructor].
  - destruct (Qle_bool t threshold) eqn:E.
    + exists (S k). simpl. split; [exact Hd|].
      constructor; [now apply Qle_bool_true|exact Hf].
    + exists 0%nat. split; [reflexivity|constructor].
Qed.

Lemma ascending_drop (k : nat) (ts : list Q) :
  ascending ts -> ascending (drop k ts).
Proof.
  revert ts. induction k as [|k IH]; intros ts H; [now rewrite drop_0|].
  destruct ts as [|t rest]; [constructor|]. simpl.
  inversion H; subst. now apply IH.
Qed.

Lemma ascending_snoc (ts : list Q) (x : Q) :
  ascending ts -> Forall (fun t => (t <= x)%Q) ts -> ascending (ts ++ [x]).
Proof.
  induction 1 as [|t ts Hle Hasc IH]; intros Hx; simpl.
  - repeat constructor.
  - inversion Hx; subst. constructor; [|now apply IH].
    apply Forall_app. split; [exact Hle|]. now repeat constructor.
Qed.

Lemma count_in_window_app (W T : Q) (l1 l2 : list Q) :
  count_in_window W T (l1 ++ l2) =
  (count_in_window W T l1 + count_in_window W T l2)%nat.
Proof. unfold count_in_window. now rewrite filter_app, length_app. Qed.

Lemma count_in_window_le_length (W T : Q) (l : list Q) :
  (count_in_window W T l <= length l)%nat.
Proof. unfold count_in_window. apply length_filter. Qed.

Lemma count_in_window_expired (W T : Q) (l : list Q) :
  Forall (fun t => (t <= T - W)%Q) l -> count_in_window W T l = 0%nat.
Proof.
  unfold count_in_window. induction 1 as [|t l Ht _ IH]; [reflexivity|].
  rewrite filter_cons_False; [exact IH|].
  rewrite in_window_true. intros [Hlt _]. apply (Qlt_not_le _ _ Hlt Ht).
Qed.

Lemma count_in_window_single (W T t : Q) :
  count_in_window W T [t] = if in_window W T t then 1%nat else 0%nat.
Proof.
  unfold count_in_window. destruct (in_window W T t) eqn:E.
  - now rewrite filter_cons_True.
  - rewrite filter_cons_False; [reflexivity|congruence].
Qed.

Lemma window_inv_step (rate : RequestRate) (last t : Q) (history : list Q)
    (th : Throttler) :
  (last <= t)%Q ->
  window_inv rate last history th ->
  window_inv rate t
    (history ++ (if fst (get_ticket t th) then [t] else []))
    (snd (get_ticket t th)).
Proof.
  intros Hlt [Hrate [purged [Hsplit Hpurged]] Hpast Hasc Hlen Hbound].
  assert (Hpast' : Forall (fun u => (u <= t)%Q) history).
  { eapply Forall_impl; [exact Hpast|]. simpl. intros u Hu. lra. }
  unfold get_ticket. rewrite Hrate.
  destruct (popleft_expired_split (t - inject_Z (time_window rate))
              (request_timestamps th)) as [k [Hdrop Htake]].
  rewrite Hdrop.
  assert (Hsplit' : history = (purged ++ take k (request_timestamps th))
                              ++ drop k (request_timestamps th)).
  { now rewrite <- app_assoc, take_drop. }
  assert (Hpurged' : Forall (fun u => (u <= t - inject_Z (time_window rate))%Q)
                            (purged ++ take k (request_timestamps th))).
  { apply Forall_app. split; [|exact Htake].
    eapply Forall_impl; [exact Hpurged|]. simpl. intros u Hu. lra. }
  destruct (Z.ltb_spec (Z.of_nat (length (drop k (request_timestamps th))))
                       (max_requests rate)) as [Hroom|Hfull]; simpl.
  - split; simpl.
    + exact Hrate.
    + exists (purged ++ take k (request_timestamps th)).
      split; [|exact Hpurged'].
      rewrite Hsplit' at 1. now rewrite <- !app_assoc.
    + apply Forall_app. split; [exact Hpast'|]. repeat constructor. lra.
    + now apply ascending_snoc.
    + rewrite length_app. simpl. lia.
    + intros T. rewrite count_in_window_app, count_in_window_single.
      destruct (in_window (inject_Z (time_window rate)) T t) eqn:Hin.
      * apply in_window_true in Hin. destruct Hin as [Hlo Hhi].
        rewrite Hsplit', count_in_window_app.
        rewrite count_in_window_expired.
        2:{ eapply Forall_impl; [exact Hpurged'|]. simpl. intros u Hu. lra. }
        pose proof (count_in_window_le_length (inject_Z (time_window rate)) T
                      (drop k (request_timestamps th))).
        lia.
      * specialize (Hbound T). lia.
  - rewrite app_nil_r. split; simpl.
    + exact Hrate.
    + exists (purged ++ take k (request_timestamps th)). now split.
    + exact Hpast'.
    + exact Hasc.
    + rewrite length_drop. lia.
    + exact Hbound.
Qed.

Lemma window_inv_run (rate : RequestRate) (readings : list Q) :
  forall (last : Q) (history : list Q) (th : Throttler),
    ascending readings ->
    Forall (fun t => (last <= t)%Q) readings ->
    window_inv rate last history th ->
    exists last',
      window_inv rate last'
        (history ++ admitted readings (fst (get_tickets readings th)))
        (snd (get_tickets readings th)).
Proof.
  induction readings as [|t rest IH]; intros last history th Hasc Hlast Hinv.
  - simpl. rewrite app_nil_r. eauto.
  - simpl. inversion Hasc as [|? ? Hle Hrest]; subst.
    inversion Hlast as [|? ? Ht _]; subst.
    pose proof (window_inv_step rate last t history th Ht Hinv) as Hstep.
    destruct (get_ticket t th) as [ok th1]. simpl in Hstep.
    specialize (IH t _ th1 Hrest Hle Hstep).
    destruct (get_tickets rest th1) as [oks th2]. simpl in *.
    destruct IH as [last' IH]. exists last'.
    destruct ok; simpl.
    + now rewrite <- app_assoc in IH.
    + now rewrite app_nil_r in IH.
Qed.

Lemma window_inv_init (rate : RequestRate) (sleep last : Q) :
  (0 <= max_requests rate)%Z ->
  window_inv rate last [] (Throttler_init rate sleep).
Proof.
  intros Hn. split; simpl.
  - reflexivity.
  - exists []. split; [reflexivity|constructor].
  - constructor.
  - constructor.
  - exact Hn.
  - intros T. unfold count_in_window. simpl. lia.
Qed.

Lemma window_inv_deque_ascending (rate : RequestRate) (last : Q)
    (history : list Q) (th : Throttler) :
  window_inv rate last history th -> ascending (request_timestamps th).
Proof.
  intros [_ [purged [Hsplit _]] _ Hasc _ _].
  replace (request_timestamps th) with (drop (length purged) history).
  - now apply ascending_drop.
  - rewrite Hsplit. now rewrite drop_app_length.
Qed.

Lemma get_ticket_shape (t : Q) (th : Throttler) :
  exists k,
    request_timestamps (snd (get_ticket t th)) =
    drop k (request_timestamps th) ++ (if fst (get_ticket t th) then [t] else []).
Proof.
  unfold get_ticket.
  destruct (popleft_expired_split (t - inject_Z (time_window (request_rate th)))
              (request_timestamps th)) as [k [Hdrop _]].
  exists k. rewrite Hdrop.
  destruct (_ <? _)%Z; simpl; [reflexivity|now rewrite app_nil_r].
Qed.

(** C2.  A throttler built from [RequestRate(N, W)] and asked for tickets at
    the readings of a monotonic clock never has more than [N] admitted
    timestamps inside a trailing window [(T - W, T]], whatever [T]; its
    deque stays ascending; and one [get_ticket] turns the deque into a
    suffix of itself, followed by the new timestamp when it admits. *)
Theorem sliding_window_never_exceeds (N W : Z) (rate : RequestRate) (sleep : Q)
    (readings : list Q) (T : Q) :
  RequestRate_init N W = Ok rate ->
  ascending readings ->
  (Z.of_nat (count_in_window (inject_Z W) T
               (admitted readings
                  (fst (get_tickets readings (Throttler_init rate sleep)))))
   <= N)%Z
  /\ ascending (admitted readings
                  (fst (get_tickets readings (Throttler_init rate sleep))))
  /\ ascending (request_timestamps
                  (snd (get_tickets readings (Throttler_init rate sleep))))
  /\ (Z.of_nat (length (request_timestamps
                  (snd (get_tickets readings (Throttler_init rate sleep))))) <= N)%Z
  /\ forall t th, exists k,
       request_timestamps (snd (get_ticket t th)) =
       drop k (request_timestamps th) ++ (if fst (get_ticket t th) then [t] else []).
Proof.
  intros Hinit Hasc.
  apply RequestRate_init_Ok in Hinit. destruct Hinit as [HN [HW ->]].
  set (rate := mkRequestRate N W).
  assert (Hrun : exists last,
             window_inv rate last
               ([] ++ admitted readings
                        (fst (get_tickets readings (Throttler_init rate sleep))))
               (snd (get_tickets readings (Throttler_init rate sleep)))).
  { destruct readings as [|t rest].
    - exists 0%Q. simpl. apply window_inv_init. simpl. lia.
    - apply (window_inv_run rate (t :: rest) t); [exact Hasc| |].
      + inversion Hasc; subst. constructor; [lra|assumption].
      + apply window_inv_init. simpl. lia. }
  destruct Hrun as [last Hinv]. simpl in Hinv.
  split; [apply (inv_bound _ _ _ _ Hinv T)|].
  split; [apply (inv_ascending _ _ _ _ Hinv)|].
  split; [apply (window_inv_deque_ascending _ _ _ _ Hinv)|].
  split; [apply (inv_length _ _ _ _ Hinv)|].
  intros; apply get_ticket_shape.
Qed.

Lemma module_throttler_built (e : entry_point) :
  exists th,
    new_throttler None (Some max_requests_per_second) (1 # 10) = Ok th /\
    module_throttler e = set_decorated_function (entry_point_name e) th.
Proof. eexists. split; reflexivity. Qed.

(** ** Waiting for a ticket *)

Lemma throttlers_set_same (e : entry_point) (th : Throttler) (w : World) :
  throttlers (set_throttler e th w) e = th.
Proof. simpl. now rewrite decide_True. Qed.

Lemma throttlers_set_other (e e' : entry_point) (th : Throttler) (w : World) :
  e' <> e -> throttlers (set_throttler e th w) e' = throttlers w e'.
Proof. intros H. simpl. now rewrite decide_False. Qed.

Lemma popleft_expired_all (threshold : Q) (ts : list Q) :
  Forall (fun t => (t <= threshold)%Q) ts -> popleft_expired threshold ts = [].
Proof.
  induction 1 as [|t ts Ht _ IH]; simpl; [reflexivity|].
  apply Qle_bool_true in Ht. now rewrite Ht.
Qed.

Lemma popleft_expired_Forall (P : Q -> Prop) (threshold : Q) (ts : list Q) :
  Forall P ts -> Forall P (popleft_expired threshold ts).
Proof.
  induction 1 as [|t ts Ht Hts IH]; simpl; [constructor|].
  destruct (Qle_bool t threshold); [exact IH|now constructor].
Qed.

Lemma get_ticket_denied (t : Q) (th th' : Throttler) :
  get_ticket t th = (false, th') ->
  request_rate th' = request_rate th /\
  sleep_interval th' = sleep_interval th /\
  total_calls th' = total_calls th /\
  forall P, Forall P (request_timestamps th) -> Forall P (request_timestamps th').
Proof.
  unfold get_ticket. destruct (_ <? _)%Z; intros [= <-]. simpl.
  repeat split; auto. intros P. apply popleft_expired_Forall.
Qed.

Lemma get_ticket_granted (t : Q) (th th' : Throttler) :
  get_ticket t th = (true, th') ->
  request_rate th' = request_rate th /\
  sleep_interval th' = sleep_interval th /\
  total_calls th' = total_calls th /\
  forall P, Forall P (request_timestamps th) -> P t ->
            Forall P (request_timestamps th').
Proof.
  unfold get_ticket. destruct (_ <? _)%Z; intros [= <-]. simpl.
  repeat split; auto. intros P HP Ht.
  apply Forall_app. split; [now apply popleft_expired_Forall|now repeat constructor].
Qed.

(** With a positive limit and a positive polling interval the wait ends:
    after [n] sleeps with [W <= n * sleep_interval] every older timestamp has
    left the window. *)
Lemma wait_for_ticket_returns (e : entry_point) (n : nat) :
  forall (w : World) (t0 : Q),
    (0 < max_requests (request_rate (throttlers w e)))%Z ->
    Forall (fun t => (t <= t0)%Q) (request_timestamps (throttlers w e)) ->
    (t0 + inject_Z (time_window (request_rate (throttlers w e)))
     <= now w + inject_Z (Z.of_nat n) * sleep_interval (throttlers w e))%Q ->
    exists w', wait_for_ticket (S n) e w = (Ok tt, w') /\ waits e w w'.
Proof.
  induction n as [|n IH]; intros w t0 Hmax Hold Hclock.
  - assert (Hempty : popleft_expired
                       (now w - inject_Z (time_window (request_rate (throttlers w e))))
                       (request_timestamps (throttlers w e)) = []).
    { apply popleft_expired_all. eapply Forall_impl; [exact Hold|].
      simpl. intros t Ht.
      change (inject_Z (Z.of_nat 0)) with 0%Q in Hclock. lra. }
    assert (Hget : exists th, get_ticket (now w) (throttlers w e) = (true, th)).
    { unfold get_ticket. rewrite Hempty. simpl length.
      destruct (Z.ltb_spec (Z.of_nat 0)
                  (max_requests (request_rate (throttlers w e))));
        [eauto|lia]. }
    destruct Hget as [th Hget].
    exists (log (EvTicket e (now w)) (set_throttler e th w)). split.
    + simpl. unfold bind, Throttler_get_ticket. now rewrite Hget.
    + now constructor.
  - destruct (get_ticket (now w) (throttlers w e)) as [[|] th] eqn:Hget.
    + exists (log (EvTicket e (now w)) (set_throttler e th w)). split.
      * change (wait_for_ticket (S (S n)) e w) with
          (bind (Throttler_get_ticket e)
             (fun ok => if ok then ret tt
                        else bind (fun w => time_sleep (sleep_interval (throttlers w e)) w)
                                  (fun _ => wait_for_ticket (S n) e)) w).
        unfold bind, Throttler_get_ticket. now rewrite Hget.
      * now constructor.
    + destruct (get_ticket_denied _ _ _ Hget) as (Hrate & Hsleep & _ & Hstamps).
      set (w1 := snd (time_sleep (sleep_interval th) (set_throttler e th w))).
      assert (Hth : throttlers w1 e = th).
      { unfold w1. simpl. now rewrite decide_True. }
      destruct (IH w1 t0) as [w' [Hrun Hwaits]].
      * now rewrite Hth, Hrate.
      * rewrite Hth. now apply Hstamps.
      * rewrite Hth, Hrate, Hsleep. unfold w1. simpl.
        rewrite Nat2Z.inj_succ, <- Z.add_1_r, inject_Z_plus in Hclock.
        change (inject_Z 1) with 1%Q in Hclock. rewrite Hsleep. lra.
      * exists w'. split; [|now apply (waits_sleep e w th w')].
        change (wait_for_ticket (S (S n)) e w) with
          (bind (Throttler_get_ticket e)
             (fun ok => if ok then ret tt
                        else bind (fun w => time_sleep (sleep_interval (throttlers w e)) w)
                                  (fun _ => wait_for_ticket (S n) e)) w).
        unfold bind at 1. unfold Throttler_get_ticket. rewrite Hget.
        unfold bind at 1. cbv beta. rewrite throttlers_set_same.
        exact Hrun.
Qed.

Lemma waits_ticket_step (e : entry_point) (w w' : World) :
  waits e w w' -> ticket_step e w w'.
Proof.
  induction 1 as [w th Hget|w th w' Hget _ IH].
  - destruct (get_ticket_granted _ _ _ Hget) as (Hrate & Hsleep & Hcalls & _).
    split; simpl; try reflexivity.
    + intros e' Hne. now rewrite decide_False.
    + now rewrite decide_True.
    + now rewrite decide_True.
    + now rewrite decide_True.
  - destruct (get_ticket_denied _ _ _ Hget) as (Hrate & Hsleep & Hcalls & _).
    destruct IH as [? ? ? ? Hothers Hr Hs Hc ? ? ?]. simpl in *.
    rewrite decide_True in Hr, Hs, Hc by reflexivity.
    split; try assumption; try congruence.
    intros e' Hne. rewrite (Hothers e' Hne). now rewrite decide_False.
Qed.

Lemma waits_clock (e : entry_point) (w w' : World) :
  waits e w w' ->
  (0 <= sleep_interval (throttlers w e))%Q ->
  Forall (fun t => (t <= now w)%Q) (request_timestamps (throttlers w e)) ->
  (now w <= now w')%Q /\
  Forall (fun t => (t <= now w')%Q) (request_timestamps (throttlers w' e)).
Proof.
  induction 1 as [w th Hget|w th w' Hget _ IH]; intros Hs Hold.
  - destruct (get_ticket_granted _ _ _ Hget) as (_ & _ & _ & Hstamps).
    simpl. rewrite decide_True by reflexivity. split; [lra|].
    apply Hstamps; [exact Hold|lra].
  - destruct (get_ticket_denied _ _ _ Hget) as (_ & Hsleep & _ & Hstamps).
    simpl in IH. rewrite decide_True in IH by reflexivity.
    destruct IH as [Hnow Hnew].
    + now rewrite Hsleep.
    + apply Hstamps. eapply Forall_impl; [exact Hold|].
      simpl. intros t Ht. rewrite Hsleep. lra.
    + split; [|exact Hnew]. rewrite Hsleep in Hnow. lra.
Qed.

Lemma popleft_expired_head (threshold t : Q) (ts rest : list Q) :
  popleft_expired threshold ts = t :: rest -> (threshold < t)%Q.
Proof.
  induction ts as [|u ts IH]; simpl; [discriminate|].
  destruct (Qle_bool u threshold) eqn:E; [exact IH|].
  intros [= -> _]. now apply Qle_bool_false.
Qed.

(** A refusal means a timestamp of the last [time_window] seconds is still
    in the deque. *)
Lemma get_ticket_denied_recent (t t0 : Q) (th th' : Throttler) :
  get_ticket t th = (false, th') ->
  (0 < max_requests (request_rate th))%Z ->
  Forall (fun u => (u <= t0)%Q) (request_timestamps th) ->
  (t < t0 + inject_Z (time_window (request_rate th)))%Q.
Proof.
  unfold get_ticket. intros Hget Hmax Hold.
  destruct (popleft_expired (t - inject_Z (time_window (request_rate th)))
              (request_timestamps th)) as [|u rest] eqn:E.
  - revert Hget. simpl length.
    destruct (Z.ltb_spec (Z.of_nat 0) (max_requests (request_rate th)));
      [discriminate|lia].
  - pose proof (popleft_expired_head _ _ _ _ E) as Hu.
    pose proof (popleft_expired_Forall _ (t - inject_Z (time_window (request_rate th)))
                  _ Hold) as Hle.
    rewrite E in Hle. inversion Hle; subst. lra.
Qed.

(** The wait is over by the time the timestamps present at its start have
    left the window, one polling interval later at most. *)
Lemma waits_duration (e : entry_point) (w w' : World) :
  waits e w w' ->
  forall t0 B : Q,
    (0 < max_requests (request_rate (throttlers w e)))%Z ->
    (0 <= sleep_interval (throttlers w e))%Q ->
    Forall (fun u => (u <= t0)%Q) (request_timestamps (throttlers w e)) ->
    (now w <= B)%Q ->
    (t0 + inject_Z (time_window (request_rate (throttlers w e)))
     + sleep_interval (throttlers w e) <= B)%Q ->
    (now w' <= B)%Q.
Proof.
  induction 1 as [w th Hget|w th w' Hget _ IH]; intros t0 B Hmax Hs Hold Hnow HB.
  - exact Hnow.
  - pose proof (get_ticket_denied_recent _ t0 _ _ Hget Hmax Hold) as Hrecent.
    destruct (get_ticket_denied _ _ _ Hget) as (Hrate & Hsleep & _ & Hstamps).
    simpl in IH. rewrite decide_True in IH by reflexivity.
    apply (IH t0 B).
    + now rewrite Hrate.
    + now rewrite Hsleep.
    + now apply Hstamps.
    + rewrite Hsleep. lra.
    + rewrite Hrate, Hsleep. exact HB.
Qed.

Lemma ready_wait_for_ticket (e : entry_point) (fuel : nat) (w : World) :
  ready e w -> (11 <= fuel)%nat ->
  exists w', wait_for_ticket fuel e w = (Ok tt, w') /\ waits e w w'.
Proof.
  intros (Hrate & Hsleep & Hold) Hfuel.
  destruct fuel as [|n]; [lia|].
  apply (wait_for_ticket_returns e n w (now w)).
  - now rewrite Hrate.
  - exact Hold.
  - rewrite Hrate, Hsleep. simpl.
    assert (H10 : (inject_Z 10 <= inject_Z (Z.of_nat n))%Q).
    { rewrite <- Zle_Qle. lia. }
    change (inject_Z 10) with 10%Q in H10. change (inject_Z 1) with 1%Q. lra.
Qed.

Lemma waits_soon (e : entry_point) (w w' : World) :
  waits e w w' -> ready e w -> (now w' <= now w + (11 # 10))%Q.
Proof.
  intros Hw (Hrate & Hsleep & Hold).
  apply (waits_duration e w w' Hw (now w)); rewrite ?Hrate, ?Hsleep.
  - reflexivity.
  - lra.
  - exact Hold.
  - lra.
  - cbn [time_window]. change (inject_Z 1) with 1%Q. lra.
Qed.

Lemma waits_ready (e : entry_point) (w w' : World) :
  waits e w w' -> ready e w -> ready e w' /\ (now w <= now w')%Q.
Proof.
  intros Hw (Hrate & Hsleep & Hold).
  destruct (waits_ticket_step e w w' Hw) as [_ _ _ _ _ Hr Hs _ _ _ _].
  destruct (waits_clock e w w' Hw) as [Hnow Hnew]; [rewrite Hsleep; lra|exact Hold|].
  split; [|exact Hnow]. split; [congruence|]. split; [congruence|exact Hnew].
Qed.

(** The wrapper of [throttle_requests] once the ticket is there. *)
Lemma throttle_requests_runs {A} (e : entry_point) (fuel : nat) (func : M A)
    (w : World) :
  ready e w -> (11 <= fuel)%nat ->
  exists w1,
    waits e w w1 /\
    throttle_requests e fuel func w =
    match func w1 with
    | (Ok result, w2) => (Ok result, set_throttler e (update_metrics (throttlers w2 e)) w2)
    | (Raise x, w2) => (Raise x, w2)
    | (OutOfFuel, w2) => (OutOfFuel, w2)
    end.
Proof.
  intros Hready Hfuel.
  destruct (ready_wait_for_ticket e fuel w Hready Hfuel) as [w1 [Hrun Hwaits]].
  exists w1. split; [exact Hwaits|].
  unfold throttle_requests, bind. rewrite Hrun.
  destruct (func w1) as [[result|x|] w2]; reflexivity.
Qed.

(** ** The retry layer lets everything but transient errors through *)

Lemma retry_from_passes {St A} (on : exn -> bool) (clock : St -> Q)
    (pause : nat -> St -> St) (remaining k : nat) (timeout start : Q)
    (attempt : St -> Result A * St) (s : St) :
  (forall e, fst (attempt s) = Raise e -> on e = false) ->
  retry_from on clock pause remaining k timeout start attempt s = attempt s.
Proof.
  intros H. destruct remaining; simpl;
    destruct (attempt s) as [[a|e|] s'] eqn:E; try reflexivity;
    now rewrite (H e eq_refl).
Qed.

Lemma with_retry_passes {A} (attempt : M A) (w : World) :
  (forall e, fst (attempt w) = Raise e -> is_RequestError e = false) ->
  with_retry attempt w = attempt w.
Proof. intros H. unfold with_retry, retry. now apply retry_from_passes. Qed.

(** ** One attempt of an entry point *)

Lemma quiet_refl (w : World) : quiet w w.
Proof. now split. Qed.

Lemma quiet_trans (w1 w2 w3 : World) : quiet w1 w2 -> quiet w2 w3 -> quiet w1 w3.
Proof. intros [] []. split; congruence. Qed.

Lemma quiet_ready (e : entry_point) (w w' : World) :
  quiet w w' -> ready e w -> ready e w'.
Proof. intros [Hn _ _ _ Ht _ _ _]. unfold ready. now rewrite Hn, Ht. Qed.

Lemma resolve_identity_quiet (identity : option string)
    (identity_callable : option callable) (w : World) :
  exists r, fst (resolve_identity identity identity_callable w) = Ok r /\
            quiet w (snd (resolve_identity identity identity_callable w)).
Proof.
  destruct identity as [i|]; [|destruct identity_callable as [f|]]; simpl;
    eexists; (split; [reflexivity|now split]).
Qed.

Lemma with_user_agent_quiet (i : string) (kwargs : Kwargs) (w : World) :
  quiet w (with_user_agent i kwargs w).
Proof.
  unfold with_user_agent, bind. destruct (kw_headers kwargs); now split.
Qed.

Lemma with_identity_resolved {A} (func : pipeline A) (url : string)
    (identity : option string) (identity_callable : option callable)
    (kwargs : Kwargs) (w : World) (i : string) :
  fst (resolve_identity identity identity_callable w) = Ok (Some i) ->
  with_identity func url identity identity_callable kwargs w =
  func url (Some i) identity_callable
       (set_kw_headers kwargs (headers_ref kwargs w))
       (with_user_agent i kwargs (snd (resolve_identity identity identity_callable w))).
Proof.
  intros Hres. unfold with_identity. unfold bind at 1.
  destruct (resolve_identity identity identity_callable w) as [r w1] eqn:E.
  simpl in Hres. subst r.
  assert (Hheap : heap w1 = heap w).
  { destruct identity; [|destruct identity_callable]; simpl in E;
      injection E as _ <-; reflexivity. }
  unfold with_user_agent, headers_ref, bind. simpl. rewrite <- Hheap.
  destruct (kw_headers kwargs); reflexivity.
Qed.

Lemma with_identity_unset {A} (func : pipeline A) (url : string)
    (identity : option string) (identity_callable : option callable)
    (kwargs : Kwargs) (w : World) :
  fst (resolve_identity identity identity_callable w) = Ok None ->
  with_identity func url identity identity_callable kwargs w =
  (Raise (IdentityNotSetException "User-Agent identity is not set"),
   snd (resolve_identity identity identity_callable w)).
Proof.
  intros Hres. unfold with_identity, bind.
  destruct (resolve_identity identity identity_callable w) as [r w1].
  simpl in Hres. now subst r.
Qed.

(** Identity resolved and ticket granted: the attempt is the body, run in
    a world [w1] in which nothing but the bookkeeping has happened, followed
    by [update_metrics] when the body returns. *)
Lemma attempt_runs {A} (e : entry_point) (fuel : nat) (body : pipeline A)
    (url : string) (identity : option string)
    (identity_callable : option callable) (kwargs : Kwargs) (w : World)
    (i : string) :
  fst (resolve_identity identity identity_callable w) = Ok (Some i) ->
  ready e w -> (11 <= fuel)%nat ->
  exists w1,
    waits e (with_user_agent i kwargs
               (snd (resolve_identity identity identity_callable w))) w1 /\
    with_identity
      (fun url identity identity_callable kwargs =>
         throttle_requests e fuel (body url identity identity_callable kwargs))
      url identity identity_callable kwargs w =
    match body url (Some i) identity_callable
               (set_kw_headers kwargs (headers_ref kwargs w)) w1 with
    | (Ok result, w2) =>
        (Ok result, set_throttler e (update_metrics (throttlers w2 e)) w2)
    | (Raise x, w2) => (Raise x, w2)
    | (OutOfFuel, w2) => (OutOfFuel, w2)
    end.
Proof.
  intros Hres Hready Hfuel.
  rewrite (with_identity_resolved _ _ _ _ _ _ i Hres).
  destruct (resolve_identity_quiet identity identity_callable w) as [r [_ Hq1]].
  pose proof (with_user_agent_quiet i kwargs
                (snd (resolve_identity identity identity_callable w))) as Hq2.
  pose proof (quiet_ready e _ _ (quiet_trans _ _ _ Hq1 Hq2) Hready) as Hready2.
  apply (throttle_requests_runs e fuel _ _ Hready2 Hfuel).
Qed.

Lemma heap_with_user_agent (i : string) (kwargs : Kwargs) (w : World) :
  heap (with_user_agent i kwargs w) =
  alter (insert "User-Agent"%string i) (headers_ref kwargs w)
        (match kw_headers kwargs with
         | Some _ => heap w
         | None => heap w ++ [∅]
         end).
Proof.
  unfold with_user_agent, headers_ref, bind.
  destruct (kw_headers kwargs); reflexivity.
Qed.

Lemma body_entry_intro (e : entry_point) (i : string) (kwargs : Kwargs)
    (identity : option string) (identity_callable : option callable)
    (w w1 : World) :
  ready e w ->
  waits e (with_user_agent i kwargs
             (snd (resolve_identity identity identity_callable w))) w1 ->
  body_entry e i kwargs w w1.
Proof.
  intros Hready Hwaits.
  destruct (resolve_identity_quiet identity identity_callable w) as [r [_ Hq1]].
  set (wr := snd (resolve_identity identity identity_callable w)) in *.
  pose proof (with_user_agent_quiet i kwargs wr) as Hq2.
  assert (Hheap : heap wr = heap w).
  { unfold wr. destruct identity; [|destruct identity_callable]; reflexivity. }
  pose proof (quiet_trans _ _ _ Hq1 Hq2) as [Hn Hnet Hrw Henv Hth Hreq Hsent Htick].
  pose proof (quiet_ready e _ _ (quiet_trans _ _ _ Hq1 Hq2) Hready) as Hready2.
  destruct (waits_ticket_step _ _ _ Hwaits) as [? ? ? Hh Hothers ? ? Hcalls ? ? ?].
  destruct (waits_ready _ _ _ Hwaits Hready2) as [Hready1 Hclock].
  pose proof (waits_soon _ _ _ Hwaits Hready2) as Hsoon.
  split; try congruence.
  - rewrite Hh, !heap_with_user_agent. unfold headers_ref. now rewrite Hheap.
  - intros e' Hne. rewrite (Hothers e' Hne). now rewrite Hth.
Qed.

Lemma client_request_eq (m : http_method) (streaming : bool) (url : string)
    (kwargs : Kwargs) (w : World) :
  client_request m streaming url kwargs w =
  (match outcome (network w (requests_sent w)
                    (request_made m streaming url kwargs w)) with
   | inl response => Ok response
   | inr message => Raise (RequestError message)
   end,
   after_request m streaming url kwargs w).
Proof.
  unfold after_request, client_request, request_made.
  destruct (outcome _); reflexivity.
Qed.

Lemma elapsed_nonneg (n : N) : (0 <= Z.of_N n # 1000)%Q.
Proof. unfold Qle. simpl. lia. Qed.

Lemma after_request_step (e : entry_point) (m : http_method) (streaming : bool)
    (url : string) (kwargs : Kwargs) (w : World) :
  request_step e (request_made m streaming url kwargs w) w
               (after_request m streaming url kwargs w).
Proof.
  set (n := elapsed_ms (network w (requests_sent w)
                          (request_made m streaming url kwargs w))).
  assert (Heq : after_request m streaming url kwargs w =
                log (EvRequest (request_made m streaming url kwargs w))
                    (set_now (now w + (Z.of_N n # 1000))%Q w)).
  { unfold after_request, client_request, request_made.
    destruct (outcome _); reflexivity. }
  rewrite Heq. pose proof (elapsed_nonneg n) as Hn.
  split; simpl; try reflexivity.
  - intros (Hrate & Hsleep & Hold). split; [exact Hrate|]. split; [exact Hsleep|].
    simpl. eapply Forall_impl; [exact Hold|]. simpl. intros t Ht. lra.
  - lra.
Qed.

Lemma latency_bound (n : N) : (n <= 1000)%N -> (Z.of_N n # 1000 <= 1)%Q.
Proof. intros H. unfold Qle. simpl. lia. Qed.

Lemma decorate_attempt {A} (e : entry_point) (fuel : nat) (func : pipeline A)
    (url : string) (identity : option string)
    (identity_callable : option callable) (kwargs : Kwargs) :
  decorate e fuel func url identity identity_callable kwargs =
  with_retry (attempt e fuel func url identity identity_callable kwargs).
Proof. reflexivity. Qed.

Lemma get_with_retry_S (n : nat) :
  get_with_retry (S n) =
  decorate EP_get_with_retry (S n) (request_body GET (get_with_retry n)).
Proof. reflexivity. Qed.

Lemma post_with_retry_S (n : nat) :
  post_with_retry (S n) =
  decorate EP_post_with_retry (S n) (request_body POST (post_with_retry n)).
Proof. reflexivity. Qed.

Lemma request_body_eq (m : http_method) (self : pipeline Response)
    (url : string) (identity : option string)
    (identity_callable : option callable) (kwargs : Kwargs) (w : World) :
  request_body m self url identity identity_callable kwargs w =
  match outcome (network w (requests_sent w) (request_made m false url kwargs w)) with
  | inl response =>
      if (status_code response =? 429)%Z then
        (Raise (TooManyRequestsError url "Too Many Requests"),
         after_request m false url kwargs w)
      else if is_redirect response then
        match Headers_getitem (headers response) "Location"%string with
        | Some location =>
            self location identity identity_callable kwargs
                 (after_request m false url kwargs w)
        | None => (Raise (KeyError "Location"), after_request m false url kwargs w)
        end
      else (Ok response, after_request m false url kwargs w)
  | inr message =>
      (Raise (RequestError message), after_request m false url kwargs w)
  end.
Proof.
  unfold request_body, bind. rewrite client_request_eq.
  destruct (outcome _) as [response|message]; [|reflexivity].
  destruct (status_code response =? 429)%Z; [reflexivity|].
  destruct (is_redirect response); [|reflexivity].
  destruct (Headers_getitem (headers response) "Location"%string); reflexivity.
Qed.

Lemma is_redirect_true (response : Response) :
  is_redirect response = true <->
  status_code response = 301%Z \/ status_code response = 302%Z.
Proof.
  unfold is_redirect. rewrite bool_decide_eq_true.
  rewrite !elem_of_cons, elem_of_nil. tauto.
Qed.

Lemma is_redirect_false (response : Response) :
  is_redirect response = false <->
  status_code response <> 301%Z /\ status_code response <> 302%Z.
Proof.
  unfold is_redirect. rewrite bool_decide_eq_false.
  rewrite !elem_of_cons, elem_of_nil. tauto.
Qed.

(** The first attempt of a request entry point, case by case on what the
    transport answers. *)
Lemma attempt_request (e : entry_point) (fuel : nat) (m : http_method)
    (self : pipeline Response) (url : string) (identity : option string)
    (identity_callable : option callable) (kwargs : Kwargs) (w : World)
    (i : string) :
  fst (resolve_identity identity identity_callable w) = Ok (Some i) ->
  ready e w -> (11 <= fuel)%nat ->
  exists w1,
    body_entry e i kwargs w w1 /\
    let kwargs' := set_kw_headers kwargs (headers_ref kwargs w) in
    let w2 := after_request m false url kwargs' w1 in
    attempt e fuel (request_body m self) url identity identity_callable kwargs w =
    match outcome (network w (requests_sent w)
                     (request_made m false url kwargs' w1)) with
    | inl response =>
        if (status_code response =? 429)%Z then
          (Raise (TooManyRequestsError url "Too Many Requests"), w2)
        else if is_redirect response then
          match Headers_getitem (headers response) "Location"%string with
          | Some location =>
              throttle_epilogue e
                (self location (Some i) identity_callable kwargs' w2)
          | None => (Raise (KeyError "Location"), w2)
          end
        else throttle_epilogue e (Ok response, w2)
    | inr message => (Raise (RequestError message), w2)
    end.
Proof.
  intros Hres Hready Hfuel.
  destruct (attempt_runs e fuel (request_body m self) url identity
              identity_callable kwargs w i Hres Hready Hfuel) as [w1 [Hwaits Heq]].
  pose proof (body_entry_intro e i kwargs identity identity_callable w w1
                Hready Hwaits) as Hentry.
  exists w1. split; [exact Hentry|]. intros kwargs' w2.
  unfold attempt. rewrite Heq. fold kwargs'. rewrite request_body_eq.
  rewrite (be_network _ _ _ _ _ Hentry), (be_sent _ _ _ _ _ Hentry). fold w2.
  destruct (outcome _) as [response|message]; [|reflexivity].
  destruct (status_code response =? 429)%Z; [reflexivity|].
  destruct (is_redirect response); [|reflexivity].
  destruct (Headers_getitem (headers response) "Location"%string); [|reflexivity].
  unfold throttle_epilogue.
  destruct (self _ _ _ _ _) as [[result|x|] w3]; reflexivity.
Qed.

Lemma requests_sent_set_throttler (e : entry_point) (th : Throttler) (w : World) :
  requests_sent (set_throttler e th w) = requests_sent w.
Proof. reflexivity. Qed.

Lemma tickets_taken_set_throttler (e : entry_point) (th : Throttler) (w : World) :
  tickets_taken (set_throttler e th w) = tickets_taken w.
Proof. reflexivity. Qed.

(** ** Responses that are neither 429 nor a redirect *)

Lemma decorate_plain_response (e : entry_point) (fuel : nat) (m : http_method)
    (self : pipeline Response) (url : string) (identity : option string)
    (identity_callable : option callable) (kwargs : Kwargs) (w : World)
    (i : string) (response : Response) :
  (11 <= fuel)%nat ->
  fst (resolve_identity identity identity_callable w) = Ok (Some i) ->
  ready e w ->
  (forall req, req_url req = url ->
               outcome (network w (requests_sent w) req) = inl response) ->
  status_code response <> 429%Z ->
  status_code response <> 301%Z ->
  status_code response <> 302%Z ->
  let rw := decorate e fuel (request_body m self) url identity
                     identity_callable kwargs w in
  fst rw = Ok response /\
  requests_sent (snd rw) = S (requests_sent w) /\
  tickets_taken (snd rw) = S (tickets_taken w) /\
  exists r, requests_of (snd rw) = requests_of w ++ [r] /\
            req_url r = url /\ req_method r = m /\
            req_kwargs r = set_kw_headers kwargs (headers_ref kwargs w).
Proof.
  intros Hfuel Hres Hready Hnet H429 H301 H302 rw. subst rw.
  destruct (attempt_request e fuel m self url identity identity_callable
              kwargs w i Hres Hready Hfuel) as [w1 [Hentry Heq]].
  cbv zeta in Heq. rewrite Hnet in Heq by reflexivity.
  assert (E429 : (status_code response =? 429)%Z = false) by now apply Z.eqb_neq.
  assert (Ered : is_redirect response = false) by now apply is_redirect_false.
  rewrite E429, Ered in Heq.
  pose proof (after_request_step e m false url
                (set_kw_headers kwargs (headers_ref kwargs w)) w1) as Hstep.
  set (w2 := after_request m false url
               (set_kw_headers kwargs (headers_ref kwargs w)) w1) in *.
  rewrite decorate_attempt, with_retry_passes; rewrite Heq;
    unfold throttle_epilogue, Throttler_update_metrics; cbn [fst snd].
  - split; [reflexivity|].
    rewrite requests_sent_set_throttler, tickets_taken_set_throttler.
    rewrite (rs_sent _ _ _ _ Hstep), (rs_tickets _ _ _ _ Hstep).
    rewrite (be_sent _ _ _ _ _ Hentry), (be_tickets _ _ _ _ _ Hentry).
    split; [reflexivity|]. split; [reflexivity|].
    exists (request_made m false url
              (set_kw_headers kwargs (headers_ref kwargs w)) w1).
    split; [|repeat split].
    change (requests_of (set_throttler e (update_metrics (throttlers w2 e)) w2))
      with (requests_of w2).
    now rewrite (rs_requests _ _ _ _ Hstep), (be_requests _ _ _ _ _ Hentry).
  - intros x Hx. discriminate Hx.
Qed.

(** C7.  When the transport answers a request of [get_with_retry] or
    [post_with_retry] with a status other than 429, 301 and 302, the call
    returns that very response, whatever the status, after one transport
    call. *)
Theorem other_statuses_returned_unchanged (fuel : nat) (url : string)
    (identity : option string) (identity_callable : option callable)
    (kwargs : Kwargs) (w : World) (i : string) (response : Response) :
  (11 <= fuel)%nat ->
  fst (resolve_identity identity identity_callable w) = Ok (Some i) ->
  ready EP_get_with_retry w ->
  ready EP_post_with_retry w ->
  (forall req, req_url req = url ->
               outcome (network w (requests_sent w) req) = inl response) ->
  status_code response <> 429%Z ->
  status_code response <> 301%Z ->
  status_code response <> 302%Z ->
  fst (get_with_retry fuel url identity identity_callable kwargs w) = Ok response /\
  requests_sent (snd (get_with_retry fuel url identity identity_callable kwargs w))
  = S (requests_sent w) /\
  fst (post_with_retry fuel url identity identity_callable kwargs w) = Ok response /\
  requests_sent (snd (post_with_retry fuel url identity identity_callable kwargs w))
  = S (requests_sent w).
Proof.
  intros Hfuel Hres Hget Hpost Hnet H429 H301 H302.
  destruct fuel as [|n]; [lia|].
  destruct (decorate_plain_response EP_get_with_retry (S n) GET
              (get_with_retry n) url identity identity_callable kwargs w i
              response Hfuel Hres Hget Hnet H429 H301 H302) as (Hg1 & Hg2 & _ & _).
  destruct (decorate_plain_response EP_post_with_retry (S n) POST
              (post_with_retry n) url identity identity_callable kwargs w i
              response Hfuel Hres Hpost Hnet H429 H301 H302) as (Hp1 & Hp2 & _ & _).
  split; [exact Hg1|]. split; [exact Hg2|]. split; [exact Hp1|exact Hp2].
Qed.

(** ** Entry points whose body is deferred *)

Lemma update_metrics_ready (e e' : entry_point) (w : World) :
  ready e' w -> ready e' (snd (Throttler_update_metrics e w)).
Proof.
  intros (Hrate & Hsleep & Hold). unfold ready, Throttler_update_metrics.
  cbn [snd set_throttler throttlers now].
  destruct (decide (e' = e)) as [->|Hne]; auto.
Qed.

Lemma update_metrics_step (e : entry_point) (w : World) :
  metrics_step e w (snd (Throttler_update_metrics e w)).
Proof.
  unfold Throttler_update_metrics. cbn [snd].
  split; try reflexivity.
  - intros e' Hne. now apply throttlers_set_other.
  - now rewrite throttlers_set_same.
Qed.

Lemma attempt_suspended (e : entry_point) (fuel : nat) (url : string)
    (identity : option string) (identity_callable : option callable)
    (kwargs : Kwargs) (w : World) (i : string) :
  fst (resolve_identity identity identity_callable w) = Ok (Some i) ->
  ready e w -> (11 <= fuel)%nat ->
  exists w1,
    body_entry e i kwargs w w1 /\
    decorate e fuel suspended url identity identity_callable kwargs w =
    (Ok (mkFrame url (Some i) identity_callable
           (set_kw_headers kwargs (headers_ref kwargs w))),
     snd (Throttler_update_metrics e w1)).
Proof.
  intros Hres Hready Hfuel.
  destruct (attempt_runs e fuel suspended url identity identity_callable
              kwargs w i Hres Hready Hfuel) as [w1 [Hwaits Heq]].
  exists w1. split.
  - exact (body_entry_intro e i kwargs identity identity_callable w w1
             Hready Hwaits).
  - rewrite decorate_attempt, with_retry_passes; unfold attempt; rewrite Heq.
    + reflexivity.
    + intros x Hx. discriminate Hx.
Qed.

Lemma stream_items_eq (fuel : nat) (g : Frame) (w : World) :
  stream_items fuel g w =
  match outcome (network w (requests_sent w)
                   (request_made GET true (f_url g) (f_kwargs g) w)) with
  | inl response =>
      if (status_code response =? 429)%Z then
        (Raise (TooManyRequestsError (f_url g) "Too Many Requests"),
         after_request GET true (f_url g) (f_kwargs g) w)
      else if is_redirect response then
        match Headers_getitem (headers response) "Location"%string with
        | Some location =>
            match stream_with_retry fuel location (f_identity g)
                    (f_identity_callable g) (f_kwargs g)
                    (after_request GET true (f_url g) (f_kwargs g) w) with
            | (Ok inner, w') => (Ok [IGenerator inner], w')
            | (Raise x, w') => (Raise x, w')
            | (OutOfFuel, w') => (OutOfFuel, w')
            end
        | None => (Raise (KeyError "Location"),
                   after_request GET true (f_url g) (f_kwargs g) w)
        end
      else (Ok [IResponse response],
            after_request GET true (f_url g) (f_kwargs g) w)
  | inr message =>
      (Raise (RequestError message),
       after_request GET true (f_url g) (f_kwargs g) w)
  end.
Proof.
  unfold stream_items. unfold bind at 1. rewrite client_request_eq.
  destruct (outcome _) as [response|message]; [|reflexivity].
  destruct (status_code response =? 429)%Z; [reflexivity|].
  destruct (is_redirect response); [|reflexivity].
  destruct (Headers_getitem (headers response) "Location"%string); [|reflexivity].
  unfold bind. destruct (stream_with_retry _ _ _ _ _ _) as [[inner|x|] w'];
    reflexivity.
Qed.

Lemma await_get_S (n : nat) (c : Frame) :
  await_get (S n) c =
  request_body GET
    (fun url identity identity_callable kwargs =>
       bind (get_with_retry_async n url identity identity_callable kwargs)
            (fun c' => await_get n c'))
    (f_url c) (f_identity c) (f_identity_callable c) (f_kwargs c).
Proof. reflexivity. Qed.

Lemma await_post_S (n : nat) (c : Frame) :
  await_post (S n) c =
  request_body POST
    (fun url identity identity_callable kwargs =>
       bind (post_with_retry_async n url identity identity_callable kwargs)
            (fun c' => await_post n c'))
    (f_url c) (f_identity c) (f_identity_callable c) (f_kwargs c).
Proof. reflexivity. Qed.

(** ** Status 429 *)

Lemma decorate_too_many_requests (e : entry_point) (fuel : nat)
    (m : http_method) (self : pipeline Response) (url : string)
    (identity : option string) (identity_callable : option callable)
    (kwargs : Kwargs) (w : World) (i : string) (response : Response) :
  (11 <= fuel)%nat ->
  fst (resolve_identity identity identity_callable w) = Ok (Some i) ->
  ready e w ->
  (forall req, req_url req = url ->
               outcome (network w (requests_sent w) req) = inl response) ->
  status_code response = 429%Z ->
  let rw := decorate e fuel (request_body m self) url identity
                     identity_callable kwargs w in
  fst rw = Raise (TooManyRequestsError url "Too Many Requests") /\
  requests_sent (snd rw) = S (requests_sent w) /\
  tickets_taken (snd rw) = S (tickets_taken w).
Proof.
  intros Hfuel Hres Hready Hnet H429 rw. subst rw.
  destruct (attempt_request e fuel m self url identity identity_callable
              kwargs w i Hres Hready Hfuel) as [w1 [Hentry Heq]].
  cbv zeta in Heq. rewrite Hnet in Heq by reflexivity.
  rewrite H429 in Heq. change (429 =? 429)%Z with true in Heq.
  pose proof (after_request_step e m false url
                (set_kw_headers kwargs (headers_ref kwargs w)) w1) as Hstep.
  rewrite decorate_attempt, with_retry_passes; rewrite Heq; cbn [fst snd].
  - split; [reflexivity|].
    rewrite (rs_sent _ _ _ _ Hstep), (rs_tickets _ _ _ _ Hstep).
    rewrite (be_sent _ _ _ _ _ Hentry), (be_tickets _ _ _ _ _ Hentry).
    split; reflexivity.
  - intros x Hx. injection Hx as <-. reflexivity.
Qed.

(** ** Redirects *)

Lemma hop_entry_intro (e : entry_point) (m : http_method) (streaming : bool)
    (url : string) (i : string) (kwargs0 kwargs : Kwargs) (w w1 : World) :
  body_entry e i kwargs0 w w1 ->
  hop_entry e m streaming url kwargs w (after_request m streaming url kwargs w1).
Proof.
  intros Hentry.
  pose proof (after_request_step e m streaming url kwargs w1) as Hstep.
  destruct Hentry, Hstep. split; try congruence.
  - auto.
  - exists (request_made m streaming url kwargs w1).
    split; [congruence|repeat split].
Qed.

Lemma attempt_redirect (e : entry_point) (fuel : nat) (m : http_method)
    (self : pipeline Response) (url : string) (identity : option string)
    (identity_callable : option callable) (kwargs : Kwargs) (w : World)
    (i : string) (response : Response) (location : string) :
  (11 <= fuel)%nat ->
  fst (resolve_identity identity identity_callable w) = Ok (Some i) ->
  ready e w ->
  (forall req, req_url req = url ->
               outcome (network w (requests_sent w) req) = inl response) ->
  status_code response = 301%Z \/ status_code response = 302%Z ->
  Headers_getitem (headers response) "Location"%string = Some location ->
  exists w2,
    hop_entry e m false url (set_kw_headers kwargs (headers_ref kwargs w)) w w2 /\
    attempt e fuel (request_body m self) url identity identity_callable kwargs w =
    throttle_epilogue e
      (self location (Some i) identity_callable
            (set_kw_headers kwargs (headers_ref kwargs w)) w2).
Proof.
  intros Hfuel Hres Hready Hnet Hstatus Hloc.
  destruct (attempt_request e fuel m self url identity identity_callable
              kwargs w i Hres Hready Hfuel) as [w1 [Hentry Heq]].
  cbv zeta in Heq. rewrite Hnet in Heq by reflexivity.
  assert (E429 : (status_code response =? 429)%Z = false).
  { apply Z.eqb_neq. lia. }
  assert (Ered : is_redirect response = true) by now apply is_redirect_true.
  rewrite E429, Ered, Hloc in Heq.
  eexists. split; [|exact Heq].
  exact (hop_entry_intro e m false url i kwargs _ w w1 Hentry).
Qed.

Lemma set_kw_headers_idem (kwargs : Kwargs) (h : ref) (w : World) :
  set_kw_headers (set_kw_headers kwargs h)
                 (headers_ref (set_kw_headers kwargs h) w)
  = set_kw_headers kwargs h.
Proof. reflexivity. Qed.


Lemma body_entry_metrics (e : entry_point) (i : string) (kwargs : Kwargs)
    (w w1 : World) :
  body_entry e i kwargs w w1 ->
  body_entry e i kwargs w (snd (Throttler_update_metrics e w1)).
Proof.
  intros Hentry.
  pose proof (update_metrics_step e w1) as Hstep.
  pose proof (update_metrics_ready e e w1 (be_ready _ _ _ _ _ Hentry)) as Hready.
  destruct Hentry, Hstep. split; try congruence.
  intros e' Hne. rewrite ms_others0 by exact Hne. auto.
Qed.

(** A call of a deferred entry point returns the suspended body; one
    ticket is gone, nothing has been sent. *)
Lemma deferred_call (e : entry_point) (fuel : nat) (url : string)
    (identity : option string) (identity_callable : option callable)
    (kwargs : Kwargs) (w : World) (i : string) :
  (11 <= fuel)%nat ->
  fst (resolve_identity identity identity_callable w) = Ok (Some i) ->
  ready e w ->
  exists w1,
    body_entry e i kwargs w w1 /\
    decorate e fuel suspended url identity identity_callable kwargs w =
    (Ok (mkFrame url (Some i) identity_callable
           (set_kw_headers kwargs (headers_ref kwargs w))), w1).
Proof.
  intros Hfuel Hres Hready.
  destruct (attempt_suspended e fuel url identity identity_callable kwargs w i
              Hres Hready Hfuel) as [w1 [Hentry Heq]].
  exists (snd (Throttler_update_metrics e w1)). split; [|exact Heq].
  now apply body_entry_metrics.
Qed.

Lemma stream_too_many_requests (fuel : nat) (url : string)
    (identity : option string) (identity_callable : option callable)
    (kwargs : Kwargs) (w : World) (i : string) (response : Response) :
  (11 <= fuel)%nat ->
  fst (resolve_identity identity identity_callable w) = Ok (Some i) ->
  ready EP_stream_with_retry w ->
  (forall req, req_url req = url ->
               outcome (network w (requests_sent w) req) = inl response) ->
  status_code response = 429%Z ->
  exists g w1,
    stream_with_retry fuel url identity identity_callable kwargs w = (Ok g, w1) /\
    requests_sent w1 = requests_sent w /\
    fst (stream_items fuel g w1)
    = Raise (TooManyRequestsError url "Too Many Requests") /\
    requests_sent (snd (stream_items fuel g w1)) = S (requests_sent w).
Proof.
  intros Hfuel Hres Hready Hnet H429.
  destruct (deferred_call EP_stream_with_retry fuel url identity
              identity_callable kwargs w i Hfuel Hres Hready) as [w1 [Hentry Heq]].
  eexists. exists w1. split; [exact Heq|].
  split; [exact (be_sent _ _ _ _ _ Hentry)|].
  rewrite stream_items_eq. cbn [f_url f_kwargs].
  rewrite (be_network _ _ _ _ _ Hentry), (be_sent _ _ _ _ _ Hentry).
  rewrite Hnet by reflexivity. rewrite H429.
  change (429 =? 429)%Z with true. cbn [fst snd].
  split; [reflexivity|].
  pose proof (after_request_step EP_stream_with_retry GET true url
                (set_kw_headers kwargs (headers_ref kwargs w)) w1) as Hstep.
  now rewrite (rs_sent _ _ _ _ Hstep), (be_sent _ _ _ _ _ Hentry).
Qed.

Lemma await_too_many_requests (e : entry_point) (m : http_method)
    (self : pipeline Response) (fuel : nat) (url : string)
    (identity : option string) (identity_callable : option callable)
    (kwargs : Kwargs) (w : World) (i : string) (response : Response) :
  (11 <= fuel)%nat ->
  fst (resolve_identity identity identity_callable w) = Ok (Some i) ->
  ready e w ->
  (forall req, req_url req = url ->
               outcome (network w (requests_sent w) req) = inl response) ->
  status_code response = 429%Z ->
  exists c w1,
    decorate e fuel suspended url identity identity_callable kwargs w = (Ok c, w1) /\
    requests_sent w1 = requests_sent w /\
    let rw := request_body m self (f_url c) (f_identity c)
                (f_identity_callable c) (f_kwargs c) w1 in
    fst rw = Raise (TooManyRequestsError url "Too Many Requests") /\
    requests_sent (snd rw) = S (requests_sent w).
Proof.
  intros Hfuel Hres Hready Hnet H429.
  destruct (deferred_call e fuel url identity identity_callable kwargs w i
              Hfuel Hres Hready) as [w1 [Hentry Heq]].
  eexists. exists w1. split; [exact Heq|].
  split; [exact (be_sent _ _ _ _ _ Hentry)|].
  cbv zeta. rewrite request_body_eq. cbn [f_url f_kwargs f_identity f_identity_callable].
  rewrite (be_network _ _ _ _ _ Hentry), (be_sent _ _ _ _ _ Hentry).
  rewrite Hnet by reflexivity. rewrite H429.
  change (429 =? 429)%Z with true. cbn [fst snd].
  split; [reflexivity|].
  pose proof (after_request_step e m false url
                (set_kw_headers kwargs (headers_ref kwargs w)) w1) as Hstep.
  now rewrite (rs_sent _ _ _ _ Hstep), (be_sent _ _ _ _ _ Hentry).
Qed.

(** C1, as the code has it.  When the transport answers 429, every entry
    point raises [TooManyRequestsError(url)] to its caller after that one
    transport call: the retry layer retries [httpx.RequestError] only.  The
    sync entry points raise from the call, the stream entry point when its
    generator is run, the async ones when the coroutine is awaited. *)
Theorem too_many_requests_reaches_caller (fuel : nat) (url : string)
    (identity : option string) (identity_callable : option callable)
    (kwargs : Kwargs) (w : World) (i : string) (response : Response) :
  (11 <= fuel)%nat ->
  fst (resolve_identity identity identity_callable w) = Ok (Some i) ->
  (forall e, ready e w) ->
  (forall req, req_url req = url ->
               outcome (network w (requests_sent w) req) = inl response) ->
  status_code response = 429%Z ->
  (fst (get_with_retry fuel url identity identity_callable kwargs w)
   = Raise (TooManyRequestsError url "Too Many Requests") /\
   requests_sent (snd (get_with_retry fuel url identity identity_callable kwargs w))
   = S (requests_sent w)) /\
  (fst (post_with_retry fuel url identity identity_callable kwargs w)
   = Raise (TooManyRequestsError url "Too Many Requests") /\
   requests_sent (snd (post_with_retry fuel url identity identity_callable kwargs w))
   = S (requests_sent w)) /\
  (exists g w1,
     stream_with_retry fuel url identity identity_callable kwargs w = (Ok g, w1) /\
     requests_sent w1 = requests_sent w /\
     fst (stream_items fuel g w1)
     = Raise (TooManyRequestsError url "Too Many Requests") /\
     requests_sent (snd (stream_items fuel g w1)) = S (requests_sent w)) /\
  (exists c w1,
     get_with_retry_async fuel url identity identity_callable kwargs w = (Ok c, w1) /\
     requests_sent w1 = requests_sent w /\
     fst (await_get fuel c w1)
     = Raise (TooManyRequestsError url "Too Many Requests") /\
     requests_sent (snd (await_get fuel c w1)) = S (requests_sent w)) /\
  (exists c w1,
     post_with_retry_async fuel url identity identity_callable kwargs w = (Ok c, w1) /\
     requests_sent w1 = requests_sent w /\
     fst (await_post fuel c w1)
     = Raise (TooManyRequestsError url "Too Many Requests") /\
     requests_sent (snd (await_post fuel c w1)) = S (requests_sent w)).
Proof.
  intros Hfuel Hres Hready Hnet H429.
  destruct fuel as [|n]; [lia|].
  split; [|split; [|split; [|split]]].
  - destruct (decorate_too_many_requests EP_get_with_retry (S n) GET
                (get_with_retry n) url identity identity_callable kwargs w i
                response Hfuel Hres (Hready _) Hnet H429) as (H1 & H2 & _).
    split; [exact H1|exact H2].
  - destruct (decorate_too_many_requests EP_post_with_retry (S n) POST
                (post_with_retry n) url identity identity_callable kwargs w i
                response Hfuel Hres (Hready _) Hnet H429) as (H1 & H2 & _).
    split; [exact H1|exact H2].
  - exact (stream_too_many_requests (S n) url identity identity_callable
             kwargs w i response Hfuel Hres (Hready _) Hnet H429).
  - destruct (await_too_many_requests EP_get_with_retry_async GET
                (fun url identity identity_callable kwargs =>
                   bind (get_with_retry_async n url identity identity_callable kwargs)
                        (fun c' => await_get n c'))
                (S n) url identity identity_callable kwargs w i response
                Hfuel Hres (Hready _) Hnet H429) as (c & w1 & Hc & Hs & H1 & H2).
    exists c, w1. split; [exact Hc|]. split; [exact Hs|].
    split; [exact H1|exact H2].
  - destruct (await_too_many_requests EP_post_with_retry_async POST
                (fun url identity identity_callable kwargs =>
                   bind (post_with_retry_async n url identity identity_callable kwargs)
                        (fun c' => await_post n c'))
                (S n) url identity identity_callable kwargs w i response
                Hfuel Hres (Hready _) Hnet H429) as (c & w1 & Hc & Hs & H1 & H2).
    exists c, w1. split; [exact Hc|]. split; [exact Hs|].
    split; [exact H1|exact H2].
Qed.

(** C1, as stated, fails: the transport answers 429 to the first attempt
    and would answer 200 to a second one; [get_with_retry] raises
    [TooManyRequestsError] after the first. *)
Lemma too_many_requests_not_retried :
  let w := imported ∅ (scripted [answer 429 []; answer 200 []]) in
  let rw := get_with_retry 12 "https://www.sec.gov/files/company_tickers.json"
              (Some "Jane Doe jane@example.com") None no_kwargs w in
  fst rw = Raise (TooManyRequestsError
                    "https://www.sec.gov/files/company_tickers.json"
                    "Too Many Requests") /\
  requests_sent (snd rw) = 1%nat.
Proof. vm_compute. split; reflexivity. Qed.

Lemma imported_ready (env : dict) (net : nat -> Request -> Reply)
    (e : entry_point) :
  ready e (imported env net).
Proof. repeat split. constructor. Qed.

Lemma too_many_requests_reaches_caller_witness :
  let w := imported ∅ (scripted [answer 429 []; answer 200 []]) in
  fst (get_with_retry 12 "https://www.sec.gov/" (Some "Jane Doe jane@example.com")
         None no_kwargs w)
  = Raise (TooManyRequestsError "https://www.sec.gov/" "Too Many Requests").
Proof.
  intros w.
  refine (proj1 (proj1 (too_many_requests_reaches_caller 12 "https://www.sec.gov/"
            (Some "Jane Doe jane@example.com"%string) None no_kwargs w
            "Jane Doe jane@example.com" (mkResponse 429 [] "") _ _ _ _ _))).
  - lia.
  - reflexivity.
  - intros e. apply imported_ready.
  - intros req _. reflexivity.
  - reflexivity.
Defined.





Lemma other_statuses_returned_unchanged_witness :
  let w := imported ∅ (scripted [answer 404 []]) in
  fst (get_with_retry 11 "https://www.sec.gov/missing"
         (Some "Jane Doe jane@example.com"%string) None no_kwargs w)
  = Ok (mkResponse 404 [] "") /\
  fst (post_with_retry 11 "https://www.sec.gov/missing"
         (Some "Jane Doe jane@example.com"%string) None no_kwargs w)
  = Ok (mkResponse 404 [] "").
Proof.
  intros w.
  destruct (other_statuses_returned_unchanged 11 "https://www.sec.gov/missing"
              (Some "Jane Doe jane@example.com"%string) None no_kwargs w
              "Jane Doe jane@example.com" (mkResponse 404 [] ""))
    as (H1 & _ & H3 & _).
  - lia.
  - reflexivity.
  - apply imported_ready.
  - apply imported_ready.
  - intros req _. reflexivity.
  - discriminate.
  - discriminate.
  - discriminate.
  - split; [exact H1|exact H3].
Defined.

(** ** What the stream entry point yields *)

Lemma stream_yields_response (fuel : nat) (url : string)
    (identity : option string) (identity_callable : option callable)
    (kwargs : Kwargs) (w : World) (i : string) (response : Response) :
  (11 <= fuel)%nat ->
  fst (resolve_identity identity identity_callable w) = Ok (Some i) ->
  ready EP_stream_with_retry w ->
  (forall req, req_url req = url ->
               outcome (network w (requests_sent w) req) = inl response) ->
  status_code response <> 429%Z ->
  status_code response <> 301%Z ->
  status_code response <> 302%Z ->
  exists g w1,
    stream_with_retry fuel url identity identity_callable kwargs w = (Ok g, w1) /\
    fst (stream_items fuel g w1) = Ok [IResponse response].
Proof.
  intros Hfuel Hres Hready Hnet H429 H301 H302.
  destruct (deferred_call EP_stream_with_retry fuel url identity
              identity_callable kwargs w i Hfuel Hres Hready) as [w1 [Hentry Heq]].
  eexists. exists w1. split; [exact Heq|].
  rewrite stream_items_eq. cbn [f_url f_kwargs].
  rewrite (be_network _ _ _ _ _ Hentry), (be_sent _ _ _ _ _ Hentry).
  rewrite Hnet by reflexivity.
  assert (F429 : (status_code response =? 429)%Z = false) by now apply Z.eqb_neq.
  assert (Fred : is_redirect response = false) by now apply is_redirect_false.
  now rewrite F429, Fred.
Qed.

(** C6, at the input where the code departs from it: the transport answers
    the stream request with a 302.  The one item the generator yields is the
    generator object of the re-entered call, not a [Response], and
    [download_text_between_tags], which calls [iter_lines] on every item,
    fails on it. *)
Theorem stream_redirect_yields_generator_object :
  let w := imported {[ "EDGAR_IDENTITY"%string := "Jane Doe jane@example.com"%string ]}
             (scripted [answer 302 [("Location"%string, "https://www.sec.gov/b"%string)];
                        answer 200 []]) in
  let call := stream_with_retry 12 "https://www.sec.gov/a" None None no_kwargs w in
  match fst call with
  | Ok g =>
      fst (stream_items 12 g (snd call))
      = Ok [IGenerator (mkFrame "https://www.sec.gov/b"
                          (Some "Jane Doe jane@example.com"%string) None
                          (set_kw_headers no_kwargs 0%nat))]
  | _ => False
  end /\
  forall lib tag,
    fst (download_text_between_tags lib 12 "https://www.sec.gov/a" tag w)
    = Raise (AttributeError "'generator' object has no attribute 'iter_lines'").
Proof. vm_compute. split; [reflexivity|intros lib tag; reflexivity]. Qed.

(** ** Identity resolution *)

Lemma decorate_identity_unset {A} (e : entry_point) (fuel : nat)
    (func : pipeline A) (url : string) (identity : option string)
    (identity_callable : option callable) (kwargs : Kwargs) (w : World) :
  fst (resolve_identity identity identity_callable w) = Ok None ->
  decorate e fuel func url identity identity_callable kwargs w =
  (Raise (IdentityNotSetException "User-Agent identity is not set"),
   snd (resolve_identity identity identity_callable w)).
Proof.
  intros Hres.
  pose proof (with_identity_unset
                (fun url identity identity_callable kwargs =>
                   throttle_requests e fuel
                     (func url identity identity_callable kwargs))
                url identity identity_callable kwargs w Hres) as Heq.
  rewrite decorate_attempt, with_retry_passes; unfold attempt; rewrite Heq.
  - reflexivity.
  - intros x Hx. injection Hx as <-. reflexivity.
Qed.

(** ** The retry layer counts attempts *)

Section RetryCounts.
Context {St A : Type}.
Variable clock : St -> Q.
Variable pause : nat -> St -> St.
Variable calls : St -> nat.          (* invocations of the attempt so far *)
Variable attempt : St -> Result A * St.
Variable Inv : St -> Prop.           (* holds whenever the attempt starts *)
Variable s0 : St.
Variable k : nat.
Variable err : nat -> string.
Variable a : A.
Variable timeout : Q.
Variable bound : nat.                (* attempts allowed after the first *)

Hypothesis fails_first :
  forall s j, Inv s -> calls s = (calls s0 + j)%nat -> (j < k)%nat ->
              (j <= bound)%nat ->
              fst (attempt s) = Raise (RequestError (err j)) /\
              calls (snd (attempt s)) = S (calls s) /\
              (clock (snd (attempt s)) - clock s0 < timeout)%Q.
Hypothesis then_waits :
  forall s j n, Inv s -> calls s = (calls s0 + j)%nat -> (j < k)%nat ->
                (j < bound)%nat ->
                Inv (pause n (snd (attempt s))) /\
                calls (pause n (snd (attempt s))) = S (calls s).
Hypothesis then_succeeds :
  forall s, Inv s -> calls s = (calls s0 + k)%nat -> (k <= bound)%nat ->
            fst (attempt s) = Ok a /\ calls (snd (attempt s)) = S (calls s).

Lemma retry_from_counts (remaining : nat) :
  forall (j number : nat) (s : St),
    Inv s -> calls s = (calls s0 + j)%nat -> (j <= k)%nat ->
    (j + remaining = bound)%nat ->
    let rs := retry_from is_RequestError clock pause remaining number timeout
                         (clock s0) attempt s in
    ((k - j <= remaining)%nat ->
     fst rs = Ok a /\ calls (snd rs) = (calls s0 + k + 1)%nat) /\
    ((remaining < k - j)%nat ->
     fst rs = Raise (RequestError (err (j + remaining))) /\
     calls (snd rs) = (calls s0 + j + remaining + 1)%nat).
Proof.
  induction remaining as [|r IH]; intros j number s HI Hcalls Hj Hb rs; subst rs.
  - destruct (Nat.eq_dec j k) as [->|Hne].
    + destruct (then_succeeds s HI Hcalls) as [Hok Hc]; [lia|].
      cbn [retry_from]. destruct (attempt s) as [res s'].
      cbn [fst snd] in *. subst res. cbn [fst snd].
      split; [|lia]. intros _. split; [reflexivity|lia].
    + assert (Hlt : (j < k)%nat) by lia.
      destruct (fails_first s j HI Hcalls Hlt) as (Hfail & Hc & _); [lia|].
      cbn [retry_from]. destruct (attempt s) as [res s'].
      cbn [fst snd] in *. subst res. cbn [is_RequestError fst snd].
      split; [lia|]. intros _. rewrite Nat.add_0_r. split; [reflexivity|lia].
  - destruct (Nat.eq_dec j k) as [->|Hne].
    + destruct (then_succeeds s HI Hcalls) as [Hok Hc]; [lia|].
      cbn [retry_from]. destruct (attempt s) as [res s'].
      cbn [fst snd] in *. subst res. cbn [fst snd].
      split; [|lia]. intros _. split; [reflexivity|lia].
    + assert (Hlt : (j < k)%nat) by lia.
      destruct (fails_first s j HI Hcalls Hlt) as (Hfail & Hc & Htime); [lia|].
      destruct (then_waits s j number HI Hcalls Hlt) as [HI' Hcalls']; [lia|].
      cbn [retry_from]. destruct (attempt s) as [res s'].
      cbn [fst snd] in *. subst res. cbn [is_RequestError].
      apply Qle_bool_false in Htime. rewrite Htime.
      destruct (IH (S j) (S number) (pause number s') HI') as [Hwin Hlose];
        [lia|lia|lia|].
      split.
      * intros Hr. apply Hwin. lia.
      * intros Hr. destruct Hlose as [H1 H2]; [lia|].
        rewrite H1, H2. split; [do 3 f_equal; lia|lia].
Qed.
End RetryCounts.

(** C3.  The retry layer around an attempt that raises a transient error
    on its first [k] invocations and succeeds on the next one, while the
    timeout has not elapsed: with [maxAttempts > k] the call succeeds after
    [k + 1] invocations; with [maxAttempts <= k] it raises the error of the
    last invocation after [maxAttempts] invocations.  [calls] counts the
    invocations, [Inv] is what holds whenever the attempt starts. *)
Theorem retry_invokes_attempt {St A : Type} (clock : St -> Q)
    (pause : nat -> St -> St) (calls : St -> nat)
    (attempt : St -> Result A * St) (Inv : St -> Prop) (s0 : St)
    (k maxAttempts : nat) (err : nat -> string) (a : A) (timeout : Q) :
  (0 < maxAttempts)%nat ->
  Inv s0 ->
  (forall s j, Inv s -> calls s = (calls s0 + j)%nat -> (j < k)%nat ->
               fst (attempt s) = Raise (RequestError (err j)) /\
               calls (snd (attempt s)) = S (calls s) /\
               (clock (snd (attempt s)) - clock s0 < timeout)%Q) ->
  (forall s j n, Inv s -> calls s = (calls s0 + j)%nat -> (j < k)%nat ->
                 Inv (pause n (snd (attempt s))) /\
                 calls (pause n (snd (attempt s))) = S (calls s)) ->
  (forall s, Inv s -> calls s = (calls s0 + k)%nat ->
             fst (attempt s) = Ok a /\ calls (snd (attempt s)) = S (calls s)) ->
  let rs := retry is_RequestError clock pause maxAttempts timeout attempt s0 in
  ((k < maxAttempts)%nat ->
   fst rs = Ok a /\ calls (snd rs) = (calls s0 + (k + 1))%nat) /\
  ((maxAttempts <= k)%nat ->
   fst rs = Raise (RequestError (err (maxAttempts - 1))) /\
   calls (snd rs) = (calls s0 + maxAttempts)%nat).
Proof.
  intros Hmax HI Hfail Hwait Hok rs. subst rs. unfold retry.
  destruct (retry_from_counts clock pause calls attempt Inv s0 k err a timeout
              (pred maxAttempts)
              (fun s j HI' Hc Hj _ => Hfail s j HI' Hc Hj)
              (fun s j n HI' Hc Hj _ => Hwait s j n HI' Hc Hj)
              (fun s HI' Hc _ => Hok s HI' Hc)
              (pred maxAttempts) 0%nat 1%nat s0 HI)
    as [Hwin Hlose]; [lia|lia|lia|].
  split.
  - intros Hlt. destruct Hwin as [H1 H2]; [lia|]. split; [exact H1|lia].
  - intros Hle. destruct Hlose as [H1 H2]; [lia|]. split.
    + rewrite H1. do 3 f_equal. lia.
    + lia.
Qed.

(** ** What every call keeps: a small program logic *)

Section Keeps.
Variable e : entry_point.                 (* the throttler the call uses *)
Variable Inv : World -> Prop.             (* holds before and after *)
Variable Rel : World -> World -> Prop.    (* relates before and after *)
Variable okargs : option string -> option callable -> Kwargs -> Prop.

Hypothesis Rel_refl : forall w, Inv w -> Rel w w.
Hypothesis Rel_trans : forall w1 w2 w3, Rel w1 w2 -> Rel w2 w3 -> Rel w1 w3.
Hypothesis keeps_sleep :   (* the sleeps of [wait_for_ticket] and of the retry layer *)
  forall d w, Inv w ->
    (d = sleep_interval (throttlers w e) \/ exists n, d = retry_wait w wait_initial n) ->
    Inv (snd (time_sleep d w)) /\ Rel w (snd (time_sleep d w)).
Hypothesis keeps_ticket : keeps Inv Rel anything (Throttler_get_ticket e).
Hypothesis keeps_metrics : keeps Inv Rel anything (Throttler_update_metrics e).
Hypothesis keeps_request :
  forall m streaming url identity identity_callable kwargs,
    okargs identity identity_callable kwargs ->
    keeps Inv Rel anything (client_request m streaming url kwargs).
Hypothesis keeps_resolve :
  forall identity identity_callable,
    keeps Inv Rel anything (resolve_identity identity identity_callable).
Hypothesis keeps_headers :
  forall identity identity_callable kwargs w i,
    okargs identity identity_callable kwargs -> Inv w ->
    fst (resolve_identity identity identity_callable w) = Ok (Some i) ->
    let w1 := snd (resolve_identity identity identity_callable w) in
    Inv (with_user_agent i kwargs w1) /\
    Rel w1 (with_user_agent i kwargs w1) /\
    okargs (Some i) identity_callable
           (set_kw_headers kwargs (headers_ref kwargs w)).

Lemma keeps_ret {A} (Q : A -> Prop) (a : A) : Q a -> keeps Inv Rel Q (ret a).
Proof.
  intros HQ w HI. cbn [ret fst snd]. split; [exact HI|].
  split; [now apply Rel_refl|]. now intros a' [= <-].
Qed.

Lemma keeps_raise {A} (Q : A -> Prop) (x : exn) : keeps Inv Rel Q (raise x).
Proof.
  intros w HI. cbn [raise fst snd]. split; [exact HI|].
  split; [now apply Rel_refl|]. discriminate.
Qed.

Lemma keeps_out_of_fuel {A} (Q : A -> Prop) : keeps Inv Rel Q out_of_fuel.
Proof.
  intros w HI. cbn [out_of_fuel fst snd]. split; [exact HI|].
  split; [now apply Rel_refl|]. discriminate.
Qed.

Lemma keeps_bind {A B} (P : A -> Prop) (Q : B -> Prop) (m : M A) (f : A -> M B) :
  keeps Inv Rel P m -> (forall a, P a -> keeps Inv Rel Q (f a)) -> keeps Inv Rel Q (bind m f).
Proof.
  intros Hm Hf w HI. unfold bind.
  destruct (Hm w HI) as (HI1 & HR1 & HP).
  destruct (m w) as [[a|x|] w1]; cbn [fst snd] in *.
  - destruct (Hf a (HP a eq_refl) w1 HI1) as (HI2 & HR2 & HQ).
    split; [exact HI2|]. split; [|exact HQ]. eapply Rel_trans; eassumption.
  - split; [exact HI1|]. split; [exact HR1|]. discriminate.
  - split; [exact HI1|]. split; [exact HR1|]. discriminate.
Qed.

Lemma keeps_weaken {A} (P Q : A -> Prop) (m : M A) :
  (forall a, P a -> Q a) -> keeps Inv Rel P m -> keeps Inv Rel Q m.
Proof.
  intros HPQ Hm w HI. destruct (Hm w HI) as (HI1 & HR1 & HP).
  split; [exact HI1|]. split; [exact HR1|]. intros a Ha. auto.
Qed.

Lemma keeps_wait_for_ticket (fuel : nat) : keeps Inv Rel anything (wait_for_ticket fuel e).
Proof.
  induction fuel as [|n IH]; [apply keeps_out_of_fuel|].
  change (wait_for_ticket (S n) e) with
    (bind (Throttler_get_ticket e)
       (fun ok => if ok then ret tt
                  else bind (fun w => time_sleep (sleep_interval (throttlers w e)) w)
                            (fun _ => wait_for_ticket n e))).
  apply (keeps_bind anything); [exact keeps_ticket|].
  intros [|] _; [now apply keeps_ret|].
  apply (keeps_bind anything); [|intros _ _; exact IH].
  intros w HI.
  destruct (keeps_sleep _ w HI (or_introl eq_refl)) as [H1 H2].
  split; [exact H1|]. split; [exact H2|]. now intros.
Qed.

Lemma keeps_throttle_requests {A} (Q : A -> Prop) (fuel : nat) (func : M A) :
  keeps Inv Rel Q func -> keeps Inv Rel Q (throttle_requests e fuel func).
Proof.
  intros Hf. unfold throttle_requests.
  apply (keeps_bind anything); [apply keeps_wait_for_ticket|]. intros _ _.
  apply (keeps_bind Q); [exact Hf|]. intros a Ha.
  apply (keeps_bind anything); [exact keeps_metrics|]. intros _ _.
  now apply keeps_ret.
Qed.

Lemma keeps_with_identity {A} (Q : A -> Prop) (func : pipeline A)
    (url : string) (identity : option string)
    (identity_callable : option callable) (kwargs : Kwargs) :
  okargs identity identity_callable kwargs ->
  (forall url i c k, okargs i c k -> keeps Inv Rel Q (func url i c k)) ->
  keeps Inv Rel Q (with_identity func url identity identity_callable kwargs).
Proof.
  intros Hargs Hfunc w HI.
  destruct (keeps_resolve identity identity_callable w HI) as (HI1 & HR1 & _).
  destruct (resolve_identity_quiet identity identity_callable w) as [r [Hr _]].
  destruct r as [i|].
  - rewrite (with_identity_resolved func url identity identity_callable
               kwargs w i Hr).
    destruct (keeps_headers identity identity_callable kwargs w i Hargs HI Hr)
      as (HI2 & HR2 & Hargs2).
    destruct (Hfunc url (Some i) identity_callable _ Hargs2 _ HI2)
      as (HI3 & HR3 & HQ).
    split; [exact HI3|]. split; [|exact HQ].
    eapply Rel_trans; [exact HR1|]. eapply Rel_trans; eassumption.
  - rewrite (with_identity_unset func url identity identity_callable kwargs w Hr).
    cbn [fst snd]. split; [exact HI1|]. split; [exact HR1|]. discriminate.
Qed.

Lemma keeps_pause (n : nat) (w : World) :
  Inv w -> Inv (stamina_pause n w) /\ Rel w (stamina_pause n w).
Proof.
  intros HI. unfold stamina_pause.
  destruct (keeps_sleep (retry_wait w wait_initial n) w HI
              (or_intror (ex_intro _ n eq_refl))) as [H1 H2].
  now split.
Qed.

Lemma keeps_retry_from {A} (Post : A -> Prop) (attempt : M A)
    (timeout start : Q) (remaining : nat) :
  keeps Inv Rel Post attempt ->
  forall number,
    keeps Inv Rel Post (retry_from is_RequestError now stamina_pause remaining number
                        timeout start attempt).
Proof.
  intros Ha. induction remaining as [|r IH]; intros number w HI.
  - destruct (Ha w HI) as (HI1 & HR1 & HQ). cbn [retry_from].
    destruct (attempt w) as [[a|x|] w1]; cbn [fst snd] in *;
      [auto|destruct (is_RequestError x); cbn [fst snd]; auto|auto].
  - destruct (Ha w HI) as (HI1 & HR1 & HQ). cbn [retry_from].
    destruct (attempt w) as [[a|x|] w1]; cbn [fst snd] in *; [auto| |auto].
    destruct (is_RequestError x); [|cbn [fst snd]; auto].
    destruct (Qle_bool timeout (now w1 - start)); [cbn [fst snd]; auto|].
    destruct (keeps_pause number w1 HI1) as [HI2 HR2].
    destruct (IH (S number) _ HI2) as (HI3 & HR3 & HQ3).
    split; [exact HI3|]. split; [|exact HQ3].
    eapply Rel_trans; [exact HR1|]. eapply Rel_trans; eassumption.
Qed.

Lemma keeps_decorate {A} (Q : A -> Prop) (fuel : nat) (func : pipeline A)
    (url : string) (identity : option string)
    (identity_callable : option callable) (kwargs : Kwargs) :
  okargs identity identity_callable kwargs ->
  (forall url i c k, okargs i c k -> keeps Inv Rel Q (func url i c k)) ->
  keeps Inv Rel Q (decorate e fuel func url identity identity_callable kwargs).
Proof.
  intros Hargs Hfunc w HI. unfold decorate, with_retry, retry.
  apply keeps_retry_from; [|exact HI].
  apply keeps_with_identity; [exact Hargs|].
  intros url' i c k Hk. apply keeps_throttle_requests. now apply Hfunc.
Qed.

Lemma keeps_request_body (Q : Response -> Prop) (m : http_method)
    (self : pipeline Response) (url : string) (identity : option string)
    (identity_callable : option callable) (kwargs : Kwargs) :
  okargs identity identity_callable kwargs ->
  (forall response, Q response) ->
  (forall url i c k, okargs i c k -> keeps Inv Rel Q (self url i c k)) ->
  keeps Inv Rel Q (request_body m self url identity identity_callable kwargs).
Proof.
  intros Hargs HQ Hself. unfold request_body.
  apply (keeps_bind anything).
  - exact (keeps_request m false url identity identity_callable kwargs Hargs).
  - intros response _.
    destruct (status_code response =? 429)%Z; [apply keeps_raise|].
    destruct (is_redirect response); [|now apply keeps_ret].
    destruct (Headers_getitem (headers response) "Location"%string) as [location|];
      [now apply Hself|apply keeps_raise].
Qed.

(** Every request entry point built like [get_with_retry]. *)
Lemma keeps_request_entry_point (m : http_method) (f : nat -> pipeline Response) :
  (forall url i c k, f 0%nat url i c k = out_of_fuel) ->
  (forall n, f (S n) = decorate e (S n) (request_body m (f n))) ->
  forall fuel url identity identity_callable kwargs,
    okargs identity identity_callable kwargs ->
    keeps Inv Rel anything (f fuel url identity identity_callable kwargs).
Proof.
  intros H0 HS. induction fuel as [|n IH]; intros url identity ic kwargs Hargs.
  - rewrite H0. apply keeps_out_of_fuel.
  - rewrite HS. apply keeps_decorate; [exact Hargs|].
    intros url' i c k Hk. apply keeps_request_body; [exact Hk|now intros|].
    intros url'' i' c' k' Hk'. now apply IH.
Qed.

Lemma keeps_deferred (fuel : nat) (url : string) (identity : option string)
    (identity_callable : option callable) (kwargs : Kwargs) :
  okargs identity identity_callable kwargs ->
  keeps Inv Rel (okframe okargs) (decorate e fuel suspended url identity identity_callable kwargs).
Proof.
  intros Hargs. apply keeps_decorate; [exact Hargs|].
  intros url' i c k Hk. unfold suspended. now apply keeps_ret.
Qed.
Lemma keeps_stream_items (fuel : nat) (g : Frame) :
  e = EP_stream_with_retry -> okframe okargs g -> keeps Inv Rel anything (stream_items fuel g).
Proof.
  intros He Hg. unfold stream_items.
  apply (keeps_bind anything).
  - exact (keeps_request GET true (f_url g) (f_identity g)
             (f_identity_callable g) (f_kwargs g) Hg).
  - intros response _.
    destruct (status_code response =? 429)%Z; [apply keeps_raise|].
    destruct (is_redirect response); [|now apply keeps_ret].
    destruct (Headers_getitem (headers response) "Location"%string) as [location|];
      [|apply keeps_raise].
    apply (keeps_bind (okframe okargs)).
    + unfold stream_with_retry. rewrite <- He. now apply keeps_deferred.
    + intros inner _. now apply keeps_ret.
Qed.

(** Every awaited coroutine built like [await_get]. *)
Lemma keeps_await (m : http_method) (await : nat -> Frame -> M Response) :
  (forall c, await 0%nat c = out_of_fuel) ->
  (forall n c,
     await (S n) c =
     request_body m
       (fun url identity identity_callable kwargs =>
          bind (decorate e n suspended url identity identity_callable kwargs)
               (fun c' => await n c'))
       (f_url c) (f_identity c) (f_identity_callable c) (f_kwargs c)) ->
  forall fuel c, okframe okargs c -> keeps Inv Rel anything (await fuel c).
Proof.
  intros H0 HS. induction fuel as [|n IH]; intros c Hc.
  - rewrite H0. apply keeps_out_of_fuel.
  - rewrite HS. apply keeps_request_body; [exact Hc|now intros|].
    intros url i ic k Hk. apply (keeps_bind (okframe okargs)).
    + now apply keeps_deferred.
    + intros c' Hc'. now apply IH.
Qed.
End Keeps.

(** An invariant kept by every sleep is kept by the sleeps of a call. *)
Lemma every_sleep (e : entry_point) (Inv : World -> Prop)
    (Rel : World -> World -> Prop) :
  (forall d, keeps Inv Rel anything (time_sleep d)) ->
  forall d w, Inv w ->
    (d = sleep_interval (throttlers w e) \/ exists n, d = retry_wait w wait_initial n) ->
    Inv (snd (time_sleep d w)) /\ Rel w (snd (time_sleep d w)).
Proof.
  intros H d w HI _. destruct (H d w HI) as (H1 & H2 & _). now split.
Qed.

(** ** The frame of a call through the throttler of [e] *)

Lemma steady_refl (e : entry_point) (w : World) : steady e w w.
Proof. now split. Qed.

Lemma steady_trans (e : entry_point) (w1 w2 w3 : World) :
  steady e w1 w2 -> steady e w2 w3 -> steady e w1 w3.
Proof.
  intros [? ? ? Ho1 ? ? ?] [? ? ? Ho2 ? ? ?]. split; try congruence.
  intros e' Hne. rewrite (Ho2 e' Hne). now apply Ho1.
Qed.

Lemma steady_same_throttlers (e : entry_point) (w w' : World) :
  network w' = network w -> retry_wait w' = retry_wait w ->
  environ w' = environ w -> throttlers w' = throttlers w ->
  steady e w w'.
Proof. intros ? ? ? Ht. split; try assumption; now rewrite Ht. Qed.

Lemma steady_set_throttler (e : entry_point) (th : Throttler) (w : World) :
  request_rate th = request_rate (throttlers w e) ->
  sleep_interval th = sleep_interval (throttlers w e) ->
  decorated_function th = decorated_function (throttlers w e) ->
  steady e w (set_throttler e th w).
Proof.
  intros Hr Hs Hd. split; try reflexivity.
  - intros e' Hne. now apply throttlers_set_other.
  - now rewrite throttlers_set_same.
  - now rewrite throttlers_set_same.
  - now rewrite throttlers_set_same.
Qed.

Lemma get_ticket_decorated_function (t : Q) (th : Throttler) :
  decorated_function (snd (get_ticket t th)) = decorated_function th.
Proof. unfold get_ticket. now destruct (_ <? _)%Z. Qed.

Section SteadyCalls.
Variable e : entry_point.

Let Inv : World -> Prop := fun _ => True.
Let okargs : option string -> option callable -> Kwargs -> Prop :=
  fun _ _ _ => True.

Lemma steady_sleep (d : Q) : keeps Inv (steady e) anything (time_sleep d).
Proof.
  intros w _. split; [exact I|]. split; [|easy].
  now apply steady_same_throttlers.
Qed.

Lemma steady_ticket : keeps Inv (steady e) anything (Throttler_get_ticket e).
Proof.
  intros w _. split; [exact I|]. split; [|easy].
  unfold Throttler_get_ticket.
  pose proof (get_ticket_request_rate (now w) (throttlers w e)) as Hr.
  pose proof (get_ticket_sleep_interval (now w) (throttlers w e)) as Hs.
  pose proof (get_ticket_decorated_function (now w) (throttlers w e)) as Hd.
  destruct (get_ticket (now w) (throttlers w e)) as [[|] th];
    cbn [fst snd] in *.
  - apply (steady_trans e _ (set_throttler e th w)).
    + now apply steady_set_throttler.
    + now apply steady_same_throttlers.
  - now apply steady_set_throttler.
Qed.

Lemma steady_metrics : keeps Inv (steady e) anything (Throttler_update_metrics e).
Proof.
  intros w _. split; [exact I|]. split; [|easy].
  unfold Throttler_update_metrics. cbn [snd]. now apply steady_set_throttler.
Qed.

Lemma steady_request (m : http_method) (streaming : bool) (url : string)
    (identity : option string) (identity_callable : option callable)
    (kwargs : Kwargs) :
  okargs identity identity_callable kwargs ->
  keeps Inv (steady e) anything (client_request m streaming url kwargs).
Proof.
  intros _ w _. split; [exact I|]. split; [|easy].
  rewrite client_request_eq. cbn [snd].
  destruct (after_request_step e m streaming url kwargs w).
  now apply steady_same_throttlers.
Qed.

Lemma steady_resolve (identity : option string)
    (identity_callable : option callable) :
  keeps Inv (steady e) anything (resolve_identity identity identity_callable).
Proof.
  intros w _. split; [exact I|]. split; [|easy].
  destruct (resolve_identity_quiet identity identity_callable w) as [r [_ []]].
  now apply steady_same_throttlers.
Qed.

Lemma steady_headers (identity : option string)
    (identity_callable : option callable) (kwargs : Kwargs) (w : World)
    (i : string) :
  okargs identity identity_callable kwargs -> Inv w ->
  fst (resolve_identity identity identity_callable w) = Ok (Some i) ->
  let w1 := snd (resolve_identity identity identity_callable w) in
  Inv (with_user_agent i kwargs w1) /\
  steady e w1 (with_user_agent i kwargs w1) /\
  okargs (Some i) identity_callable
         (set_kw_headers kwargs (headers_ref kwargs w)).
Proof.
  intros _ _ _ w1. split; [exact I|]. split; [|exact I].
  destruct (with_user_agent_quiet i kwargs w1).
  now apply steady_same_throttlers.
Qed.

Lemma steady_request_entry_point (m : http_method) (f : nat -> pipeline Response) :
  (forall url i c k, f 0%nat url i c k = out_of_fuel) ->
  (forall n, f (S n) = decorate e (S n) (request_body m (f n))) ->
  forall fuel url identity identity_callable kwargs w,
    steady e w (snd (f fuel url identity identity_callable kwargs w)).
Proof.
  intros H0 HS fuel url identity ic kwargs w.
  apply (keeps_request_entry_point e Inv (steady e) okargs
           (fun w _ => steady_refl e w) (steady_trans e)
           (every_sleep e Inv (steady e) steady_sleep) steady_ticket steady_metrics steady_request
           steady_resolve steady_headers m f H0 HS fuel url identity ic kwargs I w I).
Qed.

Lemma steady_deferred (fuel : nat) (url : string) (identity : option string)
    (identity_callable : option callable) (kwargs : Kwargs) (w : World) :
  steady e w (snd (decorate e fuel suspended url identity identity_callable
                            kwargs w)).
Proof.
  apply (keeps_deferred e Inv (steady e) okargs
           (fun w _ => steady_refl e w) (steady_trans e)
           (every_sleep e Inv (steady e) steady_sleep) steady_ticket steady_metrics
           steady_resolve steady_headers fuel url identity identity_callable
           kwargs I w I).
Qed.

Lemma steady_await (m : http_method) (await : nat -> Frame -> M Response) :
  (forall c, await 0%nat c = out_of_fuel) ->
  (forall n c,
     await (S n) c =
     request_body m
       (fun url identity identity_callable kwargs =>
          bind (decorate e n suspended url identity identity_callable kwargs)
               (fun c' => await n c'))
       (f_url c) (f_identity c) (f_identity_callable c) (f_kwargs c)) ->
  forall fuel c w, steady e w (snd (await fuel c w)).
Proof.
  intros H0 HS fuel c w.
  apply (keeps_await e Inv (steady e) okargs
           (fun w _ => steady_refl e w) (steady_trans e)
           (every_sleep e Inv (steady e) steady_sleep) steady_ticket steady_metrics steady_request
           steady_resolve steady_headers m await H0 HS fuel c I w I).
Qed.
End SteadyCalls.

Lemma steady_stream_items (fuel : nat) (g : Frame) (w : World) :
  steady EP_stream_with_retry w (snd (stream_items fuel g w)).
Proof.
  apply (keeps_stream_items EP_stream_with_retry (fun _ => True)
           (steady EP_stream_with_retry) (fun _ _ _ => True)
           (fun w _ => steady_refl _ w) (steady_trans _)
           (every_sleep _ _ _ (steady_sleep _)) (steady_ticket _) (steady_metrics _)
           (steady_request _) (steady_resolve _) (steady_headers _)
           fuel g eq_refl I w I).
Qed.

Lemma steady_request_rate (e0 : entry_point) (w w' : World) :
  steady e0 w w' ->
  forall e, request_rate (throttlers w' e) = request_rate (throttlers w e).
Proof.
  intros Hs e. destruct (decide (e = e0)) as [->|Hne].
  - exact (st_rate _ _ _ Hs).
  - now rewrite (st_others _ _ _ Hs e Hne).
Qed.

Lemma get_with_retry_O (url : string) (i : option string) (c : option callable)
    (k : Kwargs) :
  get_with_retry 0 url i c k = out_of_fuel.
Proof. reflexivity. Qed.

Lemma post_with_retry_O (url : string) (i : option string) (c : option callable)
    (k : Kwargs) :
  post_with_retry 0 url i c k = out_of_fuel.
Proof. reflexivity. Qed.

Lemma steady_get_with_retry (fuel : nat) (url : string)
    (identity : option string) (identity_callable : option callable)
    (kwargs : Kwargs) (w : World) :
  steady EP_get_with_retry w
    (snd (get_with_retry fuel url identity identity_callable kwargs w)).
Proof.
  exact (steady_request_entry_point EP_get_with_retry GET get_with_retry
           get_with_retry_O get_with_retry_S fuel url identity
           identity_callable kwargs w).
Qed.

Lemma steady_post_with_retry (fuel : nat) (url : string)
    (identity : option string) (identity_callable : option callable)
    (kwargs : Kwargs) (w : World) :
  steady EP_post_with_retry w
    (snd (post_with_retry fuel url identity identity_callable kwargs w)).
Proof.
  exact (steady_request_entry_point EP_post_with_retry POST post_with_retry
           post_with_retry_O post_with_retry_S fuel url identity
           identity_callable kwargs w).
Qed.

Lemma steady_await_get (fuel : nat) (c : Frame) (w : World) :
  steady EP_get_with_retry_async w (snd (await_get fuel c w)).
Proof.
  exact (steady_await EP_get_with_retry_async GET await_get
           (fun _ => eq_refl) await_get_S fuel c w).
Qed.

Lemma steady_await_post (fuel : nat) (c : Frame) (w : World) :
  steady EP_post_with_retry_async w (snd (await_post fuel c w)).
Proof.
  exact (steady_await EP_post_with_retry_async POST await_post
           (fun _ => eq_refl) await_post_S fuel c w).
Qed.

(** C8.  [RequestRate(max_requests, time_window)] raises [ValueError] when
    either argument is zero or negative; with both positive it returns the
    object holding the two values; and no operation of a throttler and no
    call of an entry point changes the rate a throttler holds. *)
Theorem RequestRate_validated_and_kept (n window : Z) :
  ((n <= 0 \/ window <= 0)%Z ->
   exists message, RequestRate_init n window = Raise (ValueError message)) /\
  ((0 < n)%Z -> (0 < window)%Z ->
   exists rate, RequestRate_init n window = Ok rate /\
                max_requests rate = n /\ time_window rate = window) /\
  (forall t th, request_rate (snd (get_ticket t th)) = request_rate th) /\
  (forall th, request_rate (update_metrics th) = request_rate th) /\
  (forall fuel url identity identity_callable kwargs c w e,
     request_rate (throttlers
       (snd (get_with_retry fuel url identity identity_callable kwargs w)) e)
     = request_rate (throttlers w e) /\
     request_rate (throttlers
       (snd (post_with_retry fuel url identity identity_callable kwargs w)) e)
     = request_rate (throttlers w e) /\
     request_rate (throttlers
       (snd (stream_with_retry fuel url identity identity_callable kwargs w)) e)
     = request_rate (throttlers w e) /\
     request_rate (throttlers (snd (stream_items fuel c w)) e)
     = request_rate (throttlers w e) /\
     request_rate (throttlers
       (snd (get_with_retry_async fuel url identity identity_callable kwargs w)) e)
     = request_rate (throttlers w e) /\
     request_rate (throttlers (snd (await_get fuel c w)) e)
     = request_rate (throttlers w e) /\
     request_rate (throttlers
       (snd (post_with_retry_async fuel url identity identity_callable kwargs w)) e)
     = request_rate (throttlers w e) /\
     request_rate (throttlers (snd (await_post fuel c w)) e)
     = request_rate (throttlers w e)).
Proof.
  split; [apply RequestRate_init_rejects|].
  split.
  { intros Hn Hw. exists (mkRequestRate n window).
    split; [now apply RequestRate_init_accepts|now split]. }
  split; [apply get_ticket_request_rate|].
  split; [reflexivity|].
  intros fuel url identity ic kwargs c w e.
  split; [exact (steady_request_rate _ _ _ (steady_get_with_retry _ _ _ _ _ _) e)|].
  split; [exact (steady_request_rate _ _ _ (steady_post_with_retry _ _ _ _ _ _) e)|].
  split; [exact (steady_request_rate _ _ _
                   (steady_deferred EP_stream_with_retry _ _ _ _ _ _) e)|].
  split; [exact (steady_request_rate _ _ _ (steady_stream_items _ _ _) e)|].
  split; [exact (steady_request_rate _ _ _
                   (steady_deferred EP_get_with_retry_async _ _ _ _ _ _) e)|].
  split; [exact (steady_request_rate _ _ _ (steady_await_get _ _ _) e)|].
  split; [exact (steady_request_rate _ _ _
                   (steady_deferred EP_post_with_retry_async _ _ _ _ _ _) e)|].
  exact (steady_request_rate _ _ _ (steady_await_post _ _ _) e).
Qed.

Lemma RequestRate_validated_and_kept_witness :
  (exists message, RequestRate_init 0 1 = Raise (ValueError message)) /\
  (exists rate, RequestRate_init 8 1 = Ok rate /\
                max_requests rate = 8%Z /\ time_window rate = 1%Z).
Proof.
  split.
  - apply (proj1 (RequestRate_validated_and_kept 0 1)). lia.
  - apply (proj1 (proj2 (RequestRate_validated_and_kept 8 1))); lia.
Defined.

(** C9.  A call through one entry point leaves the throttlers of the other
    four as they were; and right after the module is imported, eight calls
    of each of the five entry points, forty requests in all, go out
    without a single sleep, all forty tickets inside one window of one
    second. *)
Theorem throttlers_are_independent :
  (forall fuel url identity identity_callable kwargs c w e,
     (e <> EP_get_with_retry ->
      throttlers (snd (get_with_retry fuel url identity identity_callable kwargs w)) e
      = throttlers w e) /\
     (e <> EP_post_with_retry ->
      throttlers (snd (post_with_retry fuel url identity identity_callable kwargs w)) e
      = throttlers w e) /\
     (e <> EP_stream_with_retry ->
      throttlers (snd (stream_with_retry fuel url identity identity_callable kwargs w)) e
      = throttlers w e /\
      throttlers (snd (stream_items fuel c w)) e = throttlers w e) /\
     (e <> EP_get_with_retry_async ->
      throttlers (snd (get_with_retry_async fuel url identity identity_callable kwargs w)) e
      = throttlers w e /\
      throttlers (snd (await_get fuel c w)) e = throttlers w e) /\
     (e <> EP_post_with_retry_async ->
      throttlers (snd (post_with_retry_async fuel url identity identity_callable kwargs w)) e
      = throttlers w e /\
      throttlers (snd (await_post fuel c w)) e = throttlers w e)) /\
  let w := imported ∅ (scripted []) in
  let rw := burst 12 (Z.to_nat max_requests_per_second) "https://www.sec.gov/"
                  (Some "Jane Doe jane@example.com"%string) w in
  fst rw = Ok tt /\
  tickets_taken (snd rw) = (5 * Z.to_nat max_requests_per_second)%nat /\
  requests_sent (snd rw) = (5 * Z.to_nat max_requests_per_second)%nat /\
  count_events is_sleep (snd rw) = 0%nat /\
  count_in_window 1 (now (snd rw)) (ticket_times (snd rw))
  = (5 * Z.to_nat max_requests_per_second)%nat.
Proof.
  split.
  - intros fuel url identity ic kwargs c w e.
    split; [intros Hne; exact (st_others _ _ _ (steady_get_with_retry _ _ _ _ _ _) e Hne)|].
    split; [intros Hne; exact (st_others _ _ _ (steady_post_with_retry _ _ _ _ _ _) e Hne)|].
    split; [intros Hne; split;
            [exact (st_others _ _ _ (steady_deferred EP_stream_with_retry _ _ _ _ _ _) e Hne)
            |exact (st_others _ _ _ (steady_stream_items _ _ _) e Hne)]|].
    split; [intros Hne; split;
            [exact (st_others _ _ _ (steady_deferred EP_get_with_retry_async _ _ _ _ _ _) e Hne)
            |exact (st_others _ _ _ (steady_await_get _ _ _) e Hne)]|].
    intros Hne; split;
      [exact (st_others _ _ _ (steady_deferred EP_post_with_retry_async _ _ _ _ _ _) e Hne)
      |exact (st_others _ _ _ (steady_await_post _ _ _) e Hne)].
  - vm_compute. repeat split; reflexivity.
Qed.

(** ** The identity a call goes out with *)

Lemma grows_refl (w : World) : grows w w.
Proof. exists []. now rewrite app_nil_r. Qed.

Lemma grows_trans (w1 w2 w3 : World) : grows w1 w2 -> grows w2 w3 -> grows w1 w3.
Proof.
  intros [m1 H1] [m2 H2]. exists (m1 ++ m2). now rewrite H2, H1, app_assoc.
Qed.

Lemma grows_same (w w' : World) : requests_of w' = requests_of w -> grows w w'.
Proof. intros H. exists []. now rewrite app_nil_r. Qed.

Section GrowsCalls.
Variable e : entry_point.
Let Inv : World -> Prop := fun _ => True.
Let okargs : option string -> option callable -> Kwargs -> Prop := fun _ _ _ => True.

Lemma grows_sleep (d : Q) : keeps Inv grows anything (time_sleep d).
Proof. intros w _. split; [exact I|]. split; [|easy]. now apply grows_same. Qed.

Lemma grows_ticket : keeps Inv grows anything (Throttler_get_ticket e).
Proof.
  intros w _. unfold Throttler_get_ticket.
  destruct (get_ticket (now w) (throttlers w e)) as [[|] th]; cbn [fst snd];
    (split; [exact I|]); (split; [|easy]); now apply grows_same.
Qed.

Lemma grows_metrics : keeps Inv grows anything (Throttler_update_metrics e).
Proof. intros w _. split; [exact I|]. split; [|easy]. now apply grows_same. Qed.

Lemma grows_request (m : http_method) (streaming : bool) (url : string)
    (identity : option string) (identity_callable : option callable)
    (kwargs : Kwargs) :
  okargs identity identity_callable kwargs ->
  keeps Inv grows anything (client_request m streaming url kwargs).
Proof.
  intros _ w _. rewrite client_request_eq. cbn [fst snd].
  split; [exact I|]. split; [|easy].
  exists [request_made m streaming url kwargs w].
  exact (rs_requests _ _ _ _ (after_request_step e m streaming url kwargs w)).
Qed.

Lemma grows_resolve (identity : option string)
    (identity_callable : option callable) :
  keeps Inv grows anything (resolve_identity identity identity_callable).
Proof.
  intros w _. split; [exact I|]. split; [|easy]. apply grows_same.
  destruct (resolve_identity_quiet identity identity_callable w) as [r [_ Hq]].
  exact (q_requests _ _ Hq).
Qed.

Lemma grows_headers (identity : option string)
    (identity_callable : option callable) (kwargs : Kwargs) (w : World)
    (j : string) :
  okargs identity identity_callable kwargs -> Inv w ->
  fst (resolve_identity identity identity_callable w) = Ok (Some j) ->
  let w1 := snd (resolve_identity identity identity_callable w) in
  Inv (with_user_agent j kwargs w1) /\
  grows w1 (with_user_agent j kwargs w1) /\
  okargs (Some j) identity_callable
         (set_kw_headers kwargs (headers_ref kwargs w)).
Proof.
  intros _ _ _ w1. split; [exact I|]. split; [|exact I]. apply grows_same.
  exact (q_requests _ _ (with_user_agent_quiet j kwargs w1)).
Qed.

Lemma grows_request_entry_point (m : http_method) (f : nat -> pipeline Response) :
  (forall url i c k, f 0%nat url i c k = out_of_fuel) ->
  (forall n, f (S n) = decorate e (S n) (request_body m (f n))) ->
  forall fuel url identity identity_callable kwargs w,
    grows w (snd (f fuel url identity identity_callable kwargs w)).
Proof.
  intros H0 HS fuel url identity ic kwargs w.
  exact (proj1 (proj2 (keeps_request_entry_point e Inv grows okargs
           (fun w _ => grows_refl w) grows_trans
           (every_sleep e Inv grows grows_sleep) grows_ticket grows_metrics
           grows_request grows_resolve grows_headers m f H0 HS fuel url identity
           ic kwargs I w I))).
Qed.

Lemma grows_deferred (fuel : nat) (url : string) (identity : option string)
    (identity_callable : option callable) (kwargs : Kwargs) (w : World) :
  grows w (snd (decorate e fuel suspended url identity identity_callable kwargs w)).
Proof.
  exact (proj1 (proj2 (keeps_deferred e Inv grows okargs
           (fun w _ => grows_refl w) grows_trans
           (every_sleep e Inv grows grows_sleep) grows_ticket grows_metrics
           grows_resolve grows_headers fuel url identity identity_callable
           kwargs I w I))).
Qed.

Lemma grows_pause (n : nat) (w : World) : grows w (stamina_pause n w).
Proof. now apply grows_same. Qed.

Lemma grows_retry_from {A} (attempt : M A) (timeout start : Q)
    (remaining number : nat) (w : World) :
  (forall w0, grows w0 (snd (attempt w0))) ->
  grows (snd (attempt w))
        (snd (retry_from is_RequestError now stamina_pause remaining number
                         timeout start attempt w)).
Proof.
  intros Ha. revert number w.
  induction remaining as [|r IH]; intros number w; cbn [retry_from].
  - destruct (attempt w) as [[a|x|] w1]; cbn [snd]; try apply grows_refl.
    destruct (is_RequestError x); apply grows_refl.
  - destruct (attempt w) as [[a|x|] w1]; cbn [snd]; try apply grows_refl.
    destruct (is_RequestError x); [|apply grows_refl].
    destruct (Qle_bool timeout (now w1 - start)); [apply grows_refl|].
    eapply grows_trans; [apply (grows_pause number)|].
    eapply grows_trans; [apply Ha|]. apply IH.
Qed.
End GrowsCalls.

Lemma header_written (e : entry_point) (i : string) (kwargs : Kwargs)
    (w w1 : World) (m : http_method) (streaming : bool) (url : string) :
  body_entry e i kwargs w w1 -> allocated kwargs w ->
  exists h,
    req_headers (request_made m streaming url
                   (set_kw_headers kwargs (headers_ref kwargs w)) w1) = Some h /\
    h !! "User-Agent"%string = Some i.
Proof.
  intros Hentry Halloc.
  cbn [request_made req_headers set_kw_headers kw_headers option_bind mbind].
  rewrite (be_heap _ _ _ _ _ Hentry), heap_with_user_agent.
  rewrite list_lookup_alter_eq. unfold headers_ref.
  destruct (kw_headers kwargs) as [l|] eqn:Hl.
  - destruct (lookup_lt_is_Some_2 (heap w) l (Halloc l Hl)) as [d Hd].
    rewrite Hd. cbn. eexists. split; [reflexivity|]. apply lookup_insert_eq.
  - rewrite lookup_app_r by lia. rewrite Nat.sub_diag. cbn.
    eexists. split; [reflexivity|]. apply lookup_insert_eq.
Qed.

Lemma grows_epilogue {A} (e : entry_point) (w : World) (rw : Result A * World) :
  grows w (snd rw) -> grows w (snd (throttle_epilogue e rw)).
Proof. intros H. now destruct rw as [[a|x|] w']. Qed.

Lemma grows_snoc (w w1 w' : World) (r : Request) :
  requests_of w1 = requests_of w ++ [r] -> grows w1 w' ->
  exists more, requests_of w' = requests_of w ++ r :: more.
Proof.
  intros H1 [more H]. exists more. rewrite H, H1, <- app_assoc. reflexivity.
Qed.

Lemma grows_attempt (e : entry_point) (fuel : nat) (m : http_method)
    (f : nat -> pipeline Response) (n : nat) :
  (forall url i c k, f 0%nat url i c k = out_of_fuel) ->
  (forall n, f (S n) = decorate e (S n) (request_body m (f n))) ->
  forall url identity identity_callable kwargs w,
    grows w (snd (attempt e fuel (request_body m (f n)) url identity
                    identity_callable kwargs w)).
Proof.
  intros H0 HS url identity ic kwargs w. unfold attempt.
  refine (proj1 (proj2 (keeps_with_identity (fun _ => True) grows
            (fun _ _ _ => True) grows_trans grows_resolve grows_headers
            anything _ url identity ic kwargs I _ w I))).
  intros url' i c k _.
  apply (keeps_throttle_requests e (fun _ => True) grows
           (fun w _ => grows_refl w) grows_trans
           (every_sleep e _ grows grows_sleep) (grows_ticket e) (grows_metrics e)).
  apply (keeps_request_body (fun _ => True) grows (fun _ _ _ => True)
           (fun w _ => grows_refl w) grows_trans (grows_request e));
    [exact I|now intros|].
  intros url'' i' c' k' _ w' _.
  split; [exact I|]. split; [|easy].
  apply (grows_request_entry_point e m f H0 HS).
Qed.

(** The first transport call of a request entry point. *)
Lemma first_request_sync (e : entry_point) (m : http_method)
    (f : nat -> pipeline Response) :
  (forall url i c k, f 0%nat url i c k = out_of_fuel) ->
  (forall n, f (S n) = decorate e (S n) (request_body m (f n))) ->
  forall fuel url identity identity_callable kwargs w i,
    (11 <= fuel)%nat ->
    fst (resolve_identity identity identity_callable w) = Ok (Some i) ->
    ready e w ->
    exists w1 more,
      body_entry e i kwargs w w1 /\
      requests_of (snd (f fuel url identity identity_callable kwargs w))
      = requests_of w
        ++ request_made m false url
             (set_kw_headers kwargs (headers_ref kwargs w)) w1 :: more.
Proof.
  intros H0 HS fuel url identity ic kwargs w i Hfuel Hres Hready.
  destruct fuel as [|n]; [lia|]. rewrite HS, decorate_attempt.
  destruct (attempt_request e (S n) m (f n) url identity ic kwargs w i
              Hres Hready Hfuel) as [w1 [Hentry Heq]].
  cbv zeta in Heq.
  pose proof (after_request_step e m false url
                (set_kw_headers kwargs (headers_ref kwargs w)) w1) as Hstep.
  set (kwargs' := set_kw_headers kwargs (headers_ref kwargs w)) in *.
  set (w2 := after_request m false url kwargs' w1) in *.
  assert (Hfirst : grows w2 (snd (attempt e (S n) (request_body m (f n)) url
                                    identity ic kwargs w))).
  { rewrite Heq. destruct (outcome _) as [response|message]; [|apply grows_refl].
    destruct (status_code response =? 429)%Z; [apply grows_refl|].
    destruct (is_redirect response).
    - destruct (Headers_getitem (headers response) "Location"%string);
        [|apply grows_refl].
      apply grows_epilogue. apply (grows_request_entry_point e m f H0 HS).
    - apply grows_epilogue. apply grows_refl. }
  exists w1.
  enough (exists more,
            requests_of (snd (with_retry (attempt e (S n) (request_body m (f n))
                                            url identity ic kwargs) w))
            = requests_of w ++ request_made m false url kwargs' w1 :: more)
    as [more Hmore] by (exists more; split; [exact Hentry|exact Hmore]).
  apply (grows_snoc w w2).
  - now rewrite (rs_requests _ _ _ _ Hstep), (be_requests _ _ _ _ _ Hentry).
  - eapply grows_trans; [exact Hfirst|].
    unfold with_retry, retry. apply grows_retry_from.
    intros w0. apply (grows_attempt e (S n) m f n H0 HS).
Qed.

Lemma grows_await (e : entry_point) (m : http_method)
    (await : nat -> Frame -> M Response) :
  (forall c, await 0%nat c = out_of_fuel) ->
  (forall n c,
     await (S n) c =
     request_body m
       (fun url identity identity_callable kwargs =>
          bind (decorate e n suspended url identity identity_callable kwargs)
               (fun c' => await n c'))
       (f_url c) (f_identity c) (f_identity_callable c) (f_kwargs c)) ->
  forall fuel c w, grows w (snd (await fuel c w)).
Proof.
  intros H0 HS fuel c w.
  exact (proj1 (proj2 (keeps_await e (fun _ => True) grows (fun _ _ _ => True)
           (fun w _ => grows_refl w) grows_trans
           (every_sleep e _ grows grows_sleep) (grows_ticket e) (grows_metrics e)
           (grows_request e) grows_resolve grows_headers m await H0 HS fuel c I
           w I))).
Qed.

(** The first transport call of an awaited coroutine. *)
Lemma first_request_await (e : entry_point) (m : http_method)
    (await : nat -> Frame -> M Response) :
  (forall c, await 0%nat c = out_of_fuel) ->
  (forall n c,
     await (S n) c =
     request_body m
       (fun url identity identity_callable kwargs =>
          bind (decorate e n suspended url identity identity_callable kwargs)
               (fun c' => await n c'))
       (f_url c) (f_identity c) (f_identity_callable c) (f_kwargs c)) ->
  forall fuel url identity identity_callable kwargs w i,
    (11 <= fuel)%nat ->
    fst (resolve_identity identity identity_callable w) = Ok (Some i) ->
    ready e w ->
    exists w1 more,
      body_entry e i kwargs w w1 /\
      requests_of (snd (bind (decorate e fuel suspended url identity
                                identity_callable kwargs) (await fuel) w))
      = requests_of w
        ++ request_made m false url
             (set_kw_headers kwargs (headers_ref kwargs w)) w1 :: more.
Proof.
  intros H0 HS fuel url identity ic kwargs w i Hfuel Hres Hready.
  destruct (deferred_call e fuel url identity ic kwargs w i Hfuel Hres Hready)
    as [w1 [Hentry Heq]].
  pose proof (after_request_step e m false url
                (set_kw_headers kwargs (headers_ref kwargs w)) w1) as Hstep.
  set (kwargs' := set_kw_headers kwargs (headers_ref kwargs w)) in *.
  set (w2 := after_request m false url kwargs' w1) in *.
  exists w1.
  enough (exists more,
            requests_of (snd (bind (decorate e fuel suspended url identity ic kwargs)
                                   (await fuel) w))
            = requests_of w ++ request_made m false url kwargs' w1 :: more)
    as [more Hmore] by (exists more; split; [exact Hentry|exact Hmore]).
  apply (grows_snoc w w2).
  - now rewrite (rs_requests _ _ _ _ Hstep), (be_requests _ _ _ _ _ Hentry).
  - unfold bind at 1. rewrite Heq.
    destruct fuel as [|n]; [lia|]. rewrite HS, request_body_eq.
    cbn [f_url f_kwargs f_identity f_identity_callable]. fold w2.
    destruct (outcome _) as [response|message]; [|apply grows_refl].
    destruct (status_code response =? 429)%Z; [apply grows_refl|].
    destruct (is_redirect response); [|apply grows_refl].
    destruct (Headers_getitem (headers response) "Location"%string) as [location|];
      [|apply grows_refl].
    pose proof (grows_deferred e n location (Some i) ic kwargs' w2) as Hcall.
    unfold bind.
    destruct (decorate e n suspended location (Some i) ic kwargs' w2)
      as [[c'|x|] w3]; cbn [snd] in *; try exact Hcall.
    eapply grows_trans; [exact Hcall|]. apply (grows_await e m await H0 HS).
Qed.

(** The first transport call of an iterated stream. *)
Lemma first_request_stream (fuel : nat) (url : string)
    (identity : option string) (identity_callable : option callable)
    (kwargs : Kwargs) (w : World) (i : string) :
  (11 <= fuel)%nat ->
  fst (resolve_identity identity identity_callable w) = Ok (Some i) ->
  ready EP_stream_with_retry w ->
  exists w1 more,
    body_entry EP_stream_with_retry i kwargs w w1 /\
    requests_of (snd (bind (stream_with_retry fuel url identity
                              identity_callable kwargs) (stream_items fuel) w))
    = requests_of w
      ++ request_made GET true url
           (set_kw_headers kwargs (headers_ref kwargs w)) w1 :: more.
Proof.
  intros Hfuel Hres Hready.
  destruct (deferred_call EP_stream_with_retry fuel url identity
              identity_callable kwargs w i Hfuel Hres Hready)
    as [w1 [Hentry Heq]].
  pose proof (after_request_step EP_stream_with_retry GET true url
                (set_kw_headers kwargs (headers_ref kwargs w)) w1) as Hstep.
  set (kwargs' := set_kw_headers kwargs (headers_ref kwargs w)) in *.
  set (w2 := after_request GET true url kwargs' w1) in *.
  exists w1.
  enough (exists more,
            requests_of (snd (bind (stream_with_retry fuel url identity
                                      identity_callable kwargs)
                                   (stream_items fuel) w))
            = requests_of w ++ request_made GET true url kwargs' w1 :: more)
    as [more Hmore] by (exists more; split; [exact Hentry|exact Hmore]).
  apply (grows_snoc w w2).
  - now rewrite (rs_requests _ _ _ _ Hstep), (be_requests _ _ _ _ _ Hentry).
  - unfold bind at 1. unfold stream_with_retry at 1. rewrite Heq.
    rewrite stream_items_eq.
    cbn [f_url f_kwargs f_identity f_identity_callable]. fold w2.
    destruct (outcome _) as [response|message]; [|apply grows_refl].
    destruct (status_code response =? 429)%Z; [apply grows_refl|].
    destruct (is_redirect response); [|apply grows_refl].
    destruct (Headers_getitem (headers response) "Location"%string) as [location|];
      [|apply grows_refl].
    pose proof (grows_deferred EP_stream_with_retry fuel location (Some i)
                  identity_callable kwargs' w2) as Hcall.
    unfold stream_with_retry.
    destruct (decorate EP_stream_with_retry fuel suspended location (Some i)
                identity_callable kwargs' w2) as [[c'|x|] w3]; exact Hcall.
Qed.

Lemma run_call_world (fuel : nat) (c : call) (w : World) :
  snd (run_call fuel c w) =
  match c with
  | CallGet url identity identity_callable kwargs =>
      snd (get_with_retry fuel url identity identity_callable kwargs w)
  | CallGetAsync url identity identity_callable kwargs =>
      snd (bind (get_with_retry_async fuel url identity identity_callable kwargs)
                (await_get fuel) w)
  | CallStream url identity identity_callable kwargs =>
      snd (bind (stream_with_retry fuel url identity identity_callable kwargs)
                (stream_items fuel) w)
  | CallPost url identity identity_callable kwargs =>
      snd (post_with_retry fuel url identity identity_callable kwargs w)
  | CallPostAsync url identity identity_callable kwargs =>
      snd (bind (post_with_retry_async fuel url identity identity_callable kwargs)
                (await_post fuel) w)
  end.
Proof.
  destruct c as [url i ic k|url i ic k|url i ic k|url i ic k|url i ic k];
    cbn [run_call]; unfold bind, ret.
  - now destruct (get_with_retry fuel url i ic k w) as [[r|x|] w1].
  - destruct (get_with_retry_async fuel url i ic k w) as [[c|x|] w1];
      try reflexivity.
    now destruct (await_get fuel c w1) as [[r|x|] w2].
  - destruct (stream_with_retry fuel url i ic k w) as [[c|x|] w1];
      try reflexivity.
    now destruct (stream_items fuel c w1) as [[r|x|] w2].
  - now destruct (post_with_retry fuel url i ic k w) as [[r|x|] w1].
  - destruct (post_with_retry_async fuel url i ic k w) as [[c|x|] w1];
      try reflexivity.
    now destruct (await_post fuel c w1) as [[r|x|] w2].
Qed.

(** The first transport call of any entry point. *)
Lemma first_request (fuel : nat) (e : entry_point) (url : string)
    (identity : option string) (identity_callable : option callable)
    (kwargs : Kwargs) (w : World) (i : string) :
  (11 <= fuel)%nat ->
  fst (resolve_identity identity identity_callable w) = Ok (Some i) ->
  ready e w ->
  exists w1 m streaming more,
    body_entry e i kwargs w w1 /\
    requests_of (snd (run_call fuel (call_of e url identity identity_callable
                                       kwargs) w))
    = requests_of w
      ++ request_made m streaming url
           (set_kw_headers kwargs (headers_ref kwargs w)) w1 :: more.
Proof.
  intros Hfuel Hres Hready. rewrite run_call_world.
  destruct e; cbn [call_of].
  - destruct (first_request_sync EP_get_with_retry GET get_with_retry
                get_with_retry_O get_with_retry_S fuel url identity
                identity_callable kwargs w i Hfuel Hres Hready)
      as (w1 & more & H1 & H2).
    now exists w1, GET, false, more.
  - destruct (first_request_await EP_get_with_retry_async GET await_get
                (fun _ => eq_refl) await_get_S fuel url identity
                identity_callable kwargs w i Hfuel Hres Hready)
      as (w1 & more & H1 & H2).
    now exists w1, GET, false, more.
  - destruct (first_request_stream fuel url identity identity_callable kwargs
                w i Hfuel Hres Hready) as (w1 & more & H1 & H2).
    now exists w1, GET, true, more.
  - destruct (first_request_sync EP_post_with_retry POST post_with_retry
                post_with_retry_O post_with_retry_S fuel url identity
                identity_callable kwargs w i Hfuel Hres Hready)
      as (w1 & more & H1 & H2).
    now exists w1, POST, false, more.
  - destruct (first_request_await EP_post_with_retry_async POST await_post
                (fun _ => eq_refl) await_post_S fuel url identity
                identity_callable kwargs w i Hfuel Hres Hready)
      as (w1 & more & H1 & H2).
    now exists w1, POST, false, more.
Qed.

Lemma entry_point_sends_as (fuel : nat) (e : entry_point) (url : string)
    (identity : option string) (identity_callable : option callable)
    (kwargs : Kwargs) (w : World) (i : string) :
  (11 <= fuel)%nat ->
  fst (resolve_identity identity identity_callable w) = Ok (Some i) ->
  ready e w -> allocated kwargs w ->
  sends_as i url w
    (snd (run_call fuel (call_of e url identity identity_callable kwargs) w)).
Proof.
  intros Hfuel Hres Hready Halloc.
  destruct (first_request fuel e url identity identity_callable kwargs w i
              Hfuel Hres Hready) as (w1 & m & streaming & more & Hentry & Hreq).
  destruct (header_written e i kwargs w w1 m streaming url Hentry Halloc)
    as (h & Hh & Hua).
  exists (request_made m streaming url
            (set_kw_headers kwargs (headers_ref kwargs w)) w1), more, h.
  split; [exact Hreq|]. split; [reflexivity|]. split; [exact Hh|exact Hua].
Qed.

(** C4, as the code has it.  Every entry point goes out with the explicit
    identity when one is passed, whatever the callable and the environment
    hold; without it, with what [identity_callable] returns when a callable
    is passed, whatever the environment holds; and with neither, with the
    environment variable [EDGAR_IDENTITY]: the first transport call is
    handed headers whose [User-Agent] is that identity.  When the callable
    returns [None], or when there is no callable and the variable is not
    set, every entry point raises [IdentityNotSetException] from the call
    itself; the world is then as it was, but for the one call of the
    callable: no ticket taken, no request sent, no throttler touched, the
    clock where it was, and nothing done a second time. *)
Theorem identity_precedence (fuel : nat) (url : string)
    (identity : option string) (identity_callable : option callable)
    (kwargs : Kwargs) (w : World) :
  (0 < fuel)%nat ->
  let entry e := run_call fuel (call_of e url identity identity_callable kwargs) in
  let unset := IdentityNotSetException "User-Agent identity is not set" in
  (forall i e,
     identity = Some i ->
     (11 <= fuel)%nat -> ready e w -> allocated kwargs w ->
     sends_as i url w (snd (entry e w))) /\
  (forall f i e,
     identity = None -> identity_callable = Some f -> f w = Some i ->
     (11 <= fuel)%nat -> ready e w -> allocated kwargs w ->
     sends_as i url w (snd (entry e w))) /\
  (forall i e,
     identity = None -> identity_callable = None ->
     environ w !! "EDGAR_IDENTITY"%string = Some i ->
     (11 <= fuel)%nat -> ready e w -> allocated kwargs w ->
     sends_as i url w (snd (entry e w))) /\
  (identity = None ->
   match identity_callable with
   | Some f => f w = None
   | None => environ w !! "EDGAR_IDENTITY"%string = None
   end ->
   let w' := match identity_callable with
             | Some _ => log EvCallable w
             | None => w
             end in
   get_with_retry fuel url identity identity_callable kwargs w = (Raise unset, w') /\
   post_with_retry fuel url identity identity_callable kwargs w = (Raise unset, w') /\
   stream_with_retry fuel url identity identity_callable kwargs w = (Raise unset, w') /\
   get_with_retry_async fuel url identity identity_callable kwargs w = (Raise unset, w') /\
   post_with_retry_async fuel url identity identity_callable kwargs w = (Raise unset, w') /\
   tickets_taken w' = tickets_taken w /\
   requests_sent w' = requests_sent w /\
   throttlers w' = throttlers w /\
   now w' = now w).
Proof.
  intros Hfuel entry unset. split; [|split; [|split]].
  - intros i e -> Hf Hready Halloc.
    now apply entry_point_sends_as.
  - intros f i e -> -> Hi Hf Hready Halloc.
    apply entry_point_sends_as; try assumption. cbn. now rewrite Hi.
  - intros i e -> -> Hi Hf Hready Halloc.
    apply entry_point_sends_as; try assumption. cbn. now rewrite Hi.
  - intros -> Hnone w'.
    assert (Hres : fst (resolve_identity None identity_callable w) = Ok None).
    { destruct identity_callable as [f|]; cbn; now rewrite Hnone. }
    assert (Hw' : snd (resolve_identity None identity_callable w) = w').
    { now destruct identity_callable. }
    destruct fuel as [|n]; [lia|].
    split; [rewrite <- Hw';
            exact (decorate_identity_unset EP_get_with_retry (S n) _ url
                     None identity_callable kwargs w Hres)|].
    split; [rewrite <- Hw';
            exact (decorate_identity_unset EP_post_with_retry (S n) _ url
                     None identity_callable kwargs w Hres)|].
    split; [rewrite <- Hw';
            exact (decorate_identity_unset EP_stream_with_retry (S n) _ url
                     None identity_callable kwargs w Hres)|].
    split; [rewrite <- Hw';
            exact (decorate_identity_unset EP_get_with_retry_async (S n) _ url
                     None identity_callable kwargs w Hres)|].
    split; [rewrite <- Hw';
            exact (decorate_identity_unset EP_post_with_retry_async (S n) _ url
                     None identity_callable kwargs w Hres)|].
    subst w'. now destruct identity_callable.
Qed.

Lemma identity_precedence_witness :
  let url := "https://www.sec.gov/a"%string in
  let w := imported {[ "EDGAR_IDENTITY"%string := "Env env@example.com"%string ]}
             (scripted []) in
  let resolver : callable := fun _ => Some "Callable c@example.com"%string in
  sends_as "Jane Doe jane@example.com" url w
    (snd (run_call 12 (call_of EP_get_with_retry url
                         (Some "Jane Doe jane@example.com"%string)
                         (Some resolver) no_kwargs) w)) /\
  sends_as "Callable c@example.com" url w
    (snd (run_call 12 (call_of EP_stream_with_retry url None (Some resolver)
                         no_kwargs) w)) /\
  sends_as "Env env@example.com" url w
    (snd (run_call 12 (call_of EP_post_with_retry_async url None None
                         no_kwargs) w)) /\
  get_with_retry 12 url None (Some (fun _ => None)) no_kwargs w
  = (Raise (IdentityNotSetException "User-Agent identity is not set"),
     log EvCallable w).
Proof.
  intros url w resolver.
  assert (Halloc : allocated no_kwargs w) by (intros l Hl; discriminate Hl).
  split; [|split; [|split]].
  - refine (proj1 (identity_precedence 12 url
                     (Some "Jane Doe jane@example.com"%string) (Some resolver)
                     no_kwargs w _) _ EP_get_with_retry eq_refl _ _ Halloc);
      [lia|lia|apply imported_ready].
  - refine (proj1 (proj2 (identity_precedence 12 url None (Some resolver)
                            no_kwargs w _)) resolver _ EP_stream_with_retry
                  eq_refl eq_refl eq_refl _ _ Halloc);
      [lia|lia|apply imported_ready].
  - refine (proj1 (proj2 (proj2 (identity_precedence 12 url None None
                                   no_kwargs w _))) _ EP_post_with_retry_async
                  eq_refl eq_refl eq_refl _ _ Halloc);
      [lia|lia|apply imported_ready].
  - refine (proj1 (proj2 (proj2 (proj2 (identity_precedence 12 url None
                                          (Some (fun _ => None)) no_kwargs w _)))
                         eq_refl eq_refl));
      lia.
Defined.

(** C4, as stated, fails: an [identity_callable] that returns [None] is
    not followed by a look at the environment, and the call raises although
    [EDGAR_IDENTITY] is set. *)
Lemma callable_without_result_hides_environment :
  let w := imported {[ "EDGAR_IDENTITY"%string := "Jane Doe jane@example.com"%string ]}
             (scripted []) in
  fst (get_with_retry 3 "https://www.sec.gov/a" None (Some (fun _ => None))
         no_kwargs w)
  = Raise (IdentityNotSetException "User-Agent identity is not set").
Proof. vm_compute. reflexivity. Qed.

(** ** The headers dictionary of the caller *)

Section HeadersCalls.
Variable e : entry_point.
Variable l : ref.
Variable i : string.
Variable H' : list dict.     (* the store once the User-Agent is written *)
Variable E : dict.

Hypothesis H'_written : alter (insert "User-Agent"%string i) l H' = H'.

Let Inv : World -> Prop := fun w => heap w = H' /\ environ w = E.
Let Rel : World -> World -> Prop :=
  fun w w' => exists new, trace w' = new ++ trace w /\
                          Forall (carries l (H' !! l)) new.
Let okargs : option string -> option callable -> Kwargs -> Prop :=
  fun identity identity_callable kwargs =>
    kw_headers kwargs = Some l /\ resolves_to i E identity identity_callable.

Lemma headers_refl (w : World) : Inv w -> Rel w w.
Proof. intros _. exists []. split; [reflexivity|constructor]. Qed.

Lemma headers_trans (w1 w2 w3 : World) : Rel w1 w2 -> Rel w2 w3 -> Rel w1 w3.
Proof.
  intros [n1 [H1 F1]] [n2 [H2 F2]]. exists (n2 ++ n1). split.
  - now rewrite H2, H1, app_assoc.
  - apply Forall_app. now split.
Qed.

Lemma headers_same_trace (w w' : World) : trace w' = trace w -> Rel w w'.
Proof. intros Ht. exists []. split; [exact Ht|constructor]. Qed.

Lemma headers_event (ev : event) (w w' : World) :
  trace w' = ev :: trace w -> carries l (H' !! l) ev -> Rel w w'.
Proof. intros Ht Hev. exists [ev]. split; [exact Ht|]. now repeat constructor. Qed.

Lemma headers_sleep (d : Q) : keeps Inv Rel anything (time_sleep d).
Proof.
  intros w HI. cbn [time_sleep snd fst]. split; [exact HI|]. split; [|easy].
  apply (headers_event (EvSleep d)); [reflexivity|exact I].
Qed.

Lemma headers_ticket : keeps Inv Rel anything (Throttler_get_ticket e).
Proof.
  intros w HI. unfold Throttler_get_ticket.
  destruct (get_ticket (now w) (throttlers w e)) as [[|] th]; cbn [fst snd].
  - split; [exact HI|]. split; [|easy].
    apply (headers_event (EvTicket e (now w))); [reflexivity|exact I].
  - split; [exact HI|]. split; [|easy]. now apply headers_same_trace.
Qed.

Lemma headers_metrics : keeps Inv Rel anything (Throttler_update_metrics e).
Proof.
  intros w HI. unfold Throttler_update_metrics. cbn [fst snd].
  split; [exact HI|]. split; [|easy]. now apply headers_same_trace.
Qed.

Lemma headers_request (m : http_method) (streaming : bool) (url : string)
    (identity : option string) (identity_callable : option callable)
    (kwargs : Kwargs) :
  okargs identity identity_callable kwargs ->
  keeps Inv Rel anything (client_request m streaming url kwargs).
Proof.
  intros [Hl _] w [Hheap Henv]. rewrite client_request_eq. cbn [fst snd].
  destruct (after_request_step e m streaming url kwargs w)
    as [_ _ Henv' Hheap' _ _ _ _ _ _].
  split; [split; congruence|]. split; [|easy].
  apply (headers_event (EvRequest (request_made m streaming url kwargs w))).
  - unfold after_request, client_request, request_made.
    now destruct (outcome _).
  - cbn [carries request_made req_kwargs req_headers]. rewrite Hl, Hheap.
    now split.
Qed.

Lemma headers_resolve (identity : option string)
    (identity_callable : option callable) :
  keeps Inv Rel anything (resolve_identity identity identity_callable).
Proof.
  intros w HI. destruct identity as [j|]; [|destruct identity_callable as [f|]];
    cbn [resolve_identity ret fst snd]; (split; [exact HI|]); (split; [|easy]).
  - now apply headers_refl.
  - apply (headers_event EvCallable); [reflexivity|exact I].
  - now apply headers_refl.
Qed.

Lemma resolves_to_resolved (identity : option string)
    (identity_callable : option callable) (w : World) (j : string) :
  resolves_to i (environ w) identity identity_callable ->
  fst (resolve_identity identity identity_callable w) = Ok (Some j) ->
  j = i.
Proof.
  destruct identity as [j'|]; [|destruct identity_callable as [f|]];
    cbn [resolves_to resolve_identity ret fst].
  - intros -> [= <-]. reflexivity.
  - intros Hf [= Hj]. rewrite Hf in Hj. now injection Hj as <-.
  - intros Hf [= Hj]. rewrite Hf in Hj. now injection Hj as <-.
Qed.

Lemma headers_written (identity : option string)
    (identity_callable : option callable) (kwargs : Kwargs) (w : World)
    (j : string) :
  okargs identity identity_callable kwargs -> Inv w ->
  fst (resolve_identity identity identity_callable w) = Ok (Some j) ->
  let w1 := snd (resolve_identity identity identity_callable w) in
  Inv (with_user_agent j kwargs w1) /\
  Rel w1 (with_user_agent j kwargs w1) /\
  okargs (Some j) identity_callable
         (set_kw_headers kwargs (headers_ref kwargs w)).
Proof.
  intros [Hl Hres] [Hheap Henv] Hj w1.
  assert (j = i) as ->.
  { apply (resolves_to_resolved identity identity_callable w); [|exact Hj].
    now rewrite Henv. }
  destruct (headers_resolve identity identity_callable w (conj Hheap Henv))
    as ([Hheap1 Henv1] & _ & _). fold w1 in Hheap1, Henv1.
  pose proof (with_user_agent_quiet i kwargs w1) as Hq.
  assert (Htrace : trace (with_user_agent i kwargs w1) = trace w1).
  { unfold with_user_agent, bind. now destruct (kw_headers kwargs). }
  split; [split|split].
  - rewrite heap_with_user_agent. unfold headers_ref. rewrite Hl, Hheap1.
    exact H'_written.
  - now rewrite (q_environ _ _ Hq).
  - exists []. split; [exact Htrace|constructor].
  - split; [|reflexivity]. cbn [set_kw_headers kw_headers]. unfold headers_ref.
    now rewrite Hl.
Qed.

Lemma headers_request_entry_point (m : http_method) (f : nat -> pipeline Response) :
  (forall url i c k, f 0%nat url i c k = out_of_fuel) ->
  (forall n, f (S n) = decorate e (S n) (request_body m (f n))) ->
  forall fuel url identity identity_callable kwargs,
    okargs identity identity_callable kwargs ->
    keeps Inv Rel anything (f fuel url identity identity_callable kwargs).
Proof.
  exact (keeps_request_entry_point e Inv Rel okargs headers_refl headers_trans
           (every_sleep e Inv Rel headers_sleep) headers_ticket headers_metrics headers_request
           headers_resolve headers_written m f).
Qed.

Lemma headers_deferred (fuel : nat) (url : string) (identity : option string)
    (identity_callable : option callable) (kwargs : Kwargs) :
  okargs identity identity_callable kwargs ->
  keeps Inv Rel (okframe okargs)
        (decorate e fuel suspended url identity identity_callable kwargs).
Proof.
  exact (keeps_deferred e Inv Rel okargs headers_refl headers_trans
           (every_sleep e Inv Rel headers_sleep) headers_ticket headers_metrics
           headers_resolve headers_written fuel url identity identity_callable
           kwargs).
Qed.

Lemma headers_await (m : http_method) (await : nat -> Frame -> M Response) :
  (forall c, await 0%nat c = out_of_fuel) ->
  (forall n c,
     await (S n) c =
     request_body m
       (fun url identity identity_callable kwargs =>
          bind (decorate e n suspended url identity identity_callable kwargs)
               (fun c' => await n c'))
       (f_url c) (f_identity c) (f_identity_callable c) (f_kwargs c)) ->
  forall fuel c, okframe okargs c -> keeps Inv Rel anything (await fuel c).
Proof.
  exact (keeps_await e Inv Rel okargs headers_refl headers_trans
           (every_sleep e Inv Rel headers_sleep) headers_ticket headers_metrics headers_request
           headers_resolve headers_written m await).
Qed.

Lemma headers_stream_items (fuel : nat) (g : Frame) :
  e = EP_stream_with_retry -> okframe okargs g ->
  keeps Inv Rel anything (stream_items fuel g).
Proof.
  exact (keeps_stream_items e Inv Rel okargs headers_refl headers_trans
           (every_sleep e Inv Rel headers_sleep) headers_ticket headers_metrics headers_request
           headers_resolve headers_written fuel g).
Qed.
Lemma headers_stream_run (fuel : nat) (url : string) (identity : option string)
    (identity_callable : option callable) (kwargs : Kwargs) :
  e = EP_stream_with_retry ->
  okargs identity identity_callable kwargs ->
  keeps Inv Rel anything
        (bind (decorate e fuel suspended url identity identity_callable kwargs)
              (stream_items fuel)).
Proof.
  intros He Hargs. eapply keeps_bind.
  - exact headers_trans.
  - apply headers_deferred. exact Hargs.
  - intros c Hc. now apply headers_stream_items.
Qed.

Lemma headers_await_run (m : http_method) (await : nat -> Frame -> M Response)
    (fuel : nat) (url : string) (identity : option string)
    (identity_callable : option callable) (kwargs : Kwargs) :
  (forall c, await 0%nat c = out_of_fuel) ->
  (forall n c,
     await (S n) c =
     request_body m
       (fun url identity identity_callable kwargs =>
          bind (decorate e n suspended url identity identity_callable kwargs)
               (fun c' => await n c'))
       (f_url c) (f_identity c) (f_identity_callable c) (f_kwargs c)) ->
  okargs identity identity_callable kwargs ->
  keeps Inv Rel anything
        (bind (decorate e fuel suspended url identity identity_callable kwargs)
              (await fuel)).
Proof.
  intros H0 HS Hargs. eapply keeps_bind.
  - exact headers_trans.
  - apply headers_deferred. exact Hargs.
  - intros c Hc. exact (headers_await m await H0 HS fuel c Hc).
Qed.
End HeadersCalls.

Lemma alter_user_agent_idem (i : string) (l : ref) (h : list dict) :
  alter (insert "User-Agent"%string i) l
        (alter (insert "User-Agent"%string i) l h)
  = alter (insert "User-Agent"%string i) l h.
Proof.
  rewrite list_alter_alter_eq. apply list_alter_ext; [|reflexivity].
  intros d _. cbn. apply insert_insert_eq.
Qed.

Lemma alter_as_insert (i : string) (l : ref) (h : list dict) (d : dict) :
  h !! l = Some d ->
  alter (insert "User-Agent"%string i) l h
  = <[l := <["User-Agent"%string := i]> d]> h.
Proof.
  intros Hd. rewrite list_insert_alter. apply list_alter_ext; [|reflexivity].
  intros d' Hd'. pose proof (eq_trans (eq_sym Hd) Hd') as [= ->]. reflexivity.
Qed.

Lemma with_user_agent_given (i : string) (kwargs : Kwargs) (l : ref) (w : World) :
  kw_headers kwargs = Some l ->
  with_user_agent i kwargs w
  = set_heap (alter (insert "User-Agent"%string i) l (heap w)) w.
Proof. intros Hl. unfold with_user_agent, bind. now rewrite Hl. Qed.

Lemma resolves_to_Ok (i : string) (identity : option string)
    (identity_callable : option callable) (w : World) :
  resolves_to i (environ w) identity identity_callable ->
  fst (resolve_identity identity identity_callable w) = Ok (Some i).
Proof.
  destruct identity as [j|]; [|destruct identity_callable as [f|]];
    cbn [resolves_to resolve_identity ret fst].
  - now intros ->.
  - intros Hf. now rewrite Hf.
  - intros Hf. now rewrite Hf.
Qed.

(** The first thing a call does to the store is to write the header; it
    makes no difference to start from the store already so written. *)
Lemma with_identity_written {A} (func : pipeline A) (url : string)
    (identity : option string) (identity_callable : option callable)
    (kwargs : Kwargs) (w : World) (i : string) (l : ref) :
  kw_headers kwargs = Some l ->
  resolves_to i (environ w) identity identity_callable ->
  with_identity func url identity identity_callable kwargs w
  = with_identity func url identity identity_callable kwargs
      (set_heap (alter (insert "User-Agent"%string i) l (heap w)) w).
Proof.
  intros Hl Hres.
  set (wm := set_heap (alter (insert "User-Agent"%string i) l (heap w)) w).
  rewrite (with_identity_resolved func url identity identity_callable kwargs w i
             (resolves_to_Ok i identity identity_callable w Hres)).
  rewrite (with_identity_resolved func url identity identity_callable kwargs wm i
             (resolves_to_Ok i identity identity_callable wm Hres)).
  unfold headers_ref. rewrite Hl. f_equal.
  rewrite !(with_user_agent_given i kwargs l) by exact Hl.
  destruct identity as [j|]; [|destruct identity_callable as [f|]];
    cbn [resolve_identity ret snd]; unfold wm, set_heap, log; cbn;
    now rewrite alter_user_agent_idem.
Qed.

Lemma retry_from_first {St A} (on : exn -> bool) (clock : St -> Q)
    (pause : nat -> St -> St) (remaining k : nat) (timeout start : Q)
    (attempt : St -> Result A * St) (s s' : St) :
  attempt s = attempt s' ->
  retry_from on clock pause remaining k timeout start attempt s
  = retry_from on clock pause remaining k timeout start attempt s'.
Proof. intros H. destruct remaining; cbn [retry_from]; now rewrite H. Qed.

Lemma decorate_written {A} (e : entry_point) (fuel : nat) (func : pipeline A)
    (url : string) (identity : option string)
    (identity_callable : option callable) (kwargs : Kwargs) (w : World)
    (i : string) (l : ref) :
  kw_headers kwargs = Some l ->
  resolves_to i (environ w) identity identity_callable ->
  decorate e fuel func url identity identity_callable kwargs w
  = decorate e fuel func url identity identity_callable kwargs
      (set_heap (alter (insert "User-Agent"%string i) l (heap w)) w).
Proof.
  intros Hl Hres. unfold decorate, with_retry, retry.
  change (now (set_heap (alter (insert "User-Agent"%string i) l (heap w)) w))
    with (now w).
  apply retry_from_first. now apply with_identity_written.
Qed.

Lemma set_kw_headers_same (kwargs : Kwargs) (l : ref) :
  kw_headers kwargs = Some l -> set_kw_headers kwargs l = kwargs.
Proof. destruct kwargs as [h d j o]. cbn. now intros ->. Qed.

Lemma resolve_identity_heap (identity : option string)
    (identity_callable : option callable) (w : World) :
  heap (snd (resolve_identity identity identity_callable w)) = heap w.
Proof. destruct identity; [|destruct identity_callable]; reflexivity. Qed.

(** [with_identity] with a caller's dictionary: the wrapped function gets
    the same reference, and the object it refers to has its [User-Agent]
    entry set. *)
Lemma with_identity_given_headers {A} (func : pipeline A) (url : string)
    (identity : option string) (identity_callable : option callable)
    (kwargs : Kwargs) (w : World) (i : string) (l : ref) (d : dict) :
  fst (resolve_identity identity identity_callable w) = Ok (Some i) ->
  kw_headers kwargs = Some l ->
  heap w !! l = Some d ->
  with_identity func url identity identity_callable kwargs w
  = func url (Some i) identity_callable kwargs
      (set_heap (<[l := <["User-Agent"%string := i]> d]> (heap w))
                (snd (resolve_identity identity identity_callable w))).
Proof.
  intros Hres Hl Hd.
  rewrite (with_identity_resolved func url identity identity_callable kwargs w i Hres).
  unfold headers_ref. rewrite Hl, (set_kw_headers_same kwargs l Hl).
  rewrite (with_user_agent_given i kwargs l _ Hl), resolve_identity_heap.
  now rewrite (alter_as_insert i l (heap w) d Hd).
Qed.

Lemma written_in_place_intro {A} (call : M A) (w : World) (i : string)
    (l : ref) (d : dict) :
  heap w !! l = Some d ->
  call w = call (set_heap (alter (insert "User-Agent"%string i) l (heap w)) w) ->
  keeps (fun w0 => heap w0 = alter (insert "User-Agent"%string i) l (heap w) /\
                   environ w0 = environ w)
        (fun w0 w1 =>
           exists new, trace w1 = new ++ trace w0 /\
             Forall (carries l (alter (insert "User-Agent"%string i) l (heap w) !! l))
                    new)
        anything call ->
  written_in_place l i d w (snd (call w)).
Proof.
  intros Hd Hcall Hkeeps.
  destruct (Hkeeps (set_heap (alter (insert "User-Agent"%string i) l (heap w)) w))
    as ([Hheap _] & [new [Htrace Hnew]] & _); [now split|].
  rewrite <- Hcall in Hheap, Htrace.
  assert (Hl : alter (insert "User-Agent"%string i) l (heap w) !! l
               = Some (<["User-Agent"%string := i]> d)).
  { rewrite list_lookup_alter_eq.
    pose proof (f_equal (fmap (insert "User-Agent"%string i)) Hd) as Hf.
    exact Hf. }
  split.
  - now rewrite Hheap, (alter_as_insert i l (heap w) d Hd).
  - exists new. split; [exact Htrace|]. now rewrite <- Hl.
Qed.

Lemma bind_first {A B} (m : M A) (k : A -> M B) (w w' : World) :
  m w = m w' -> bind m k w = bind m k w'.
Proof. intros H. unfold bind. now rewrite H. Qed.

Lemma carried_requests (l : ref) (content : option dict) (new : list event) :
  Forall (carries l content) new ->
  Forall (fun r => kw_headers (req_kwargs r) = Some l /\ req_headers r = content)
         (omap (fun ev => match ev with EvRequest r => Some r | _ => None end) new).
Proof.
  induction 1 as [|ev new Hev _ IH]; [constructor|].
  destruct ev as [e t|d|r|]; cbn; try exact IH.
  constructor; [exact Hev|exact IH].
Qed.

Lemma forwarded_intro (l : ref) (i : string) (d : dict) (w w' : World)
    (r : Request) (more : list Request) :
  written_in_place l i d w w' ->
  requests_of w' = requests_of w ++ r :: more ->
  forwarded l i d w w'.
Proof.
  intros [_ [new [Htrace Hnew]]] Hreq. exists r, more. split; [exact Hreq|].
  assert (Hall : requests_of w'
                 = requests_of w
                   ++ rev (omap (fun ev => match ev with
                                           | EvRequest r => Some r
                                           | _ => None
                                           end) new)).
  { unfold requests_of. now rewrite Htrace, omap_app, rev_app_distr. }
  rewrite Hall in Hreq. apply app_inv_head in Hreq. rewrite <- Hreq.
  apply Forall_rev. now apply carried_requests.
Qed.

(** Whole calls of the five entry points, the deferred ones run to their
    end: the store differs in the [User-Agent] entry of the caller's
    dictionary only, and every transport call was handed that object. *)
Lemma entry_points_write_in_place (fuel : nat) (url : string)
    (identity : option string) (identity_callable : option callable)
    (kwargs : Kwargs) (w : World) (i : string) (l : ref) (d : dict) :
  (0 < fuel)%nat ->
  kw_headers kwargs = Some l ->
  heap w !! l = Some d ->
  resolves_to i (environ w) identity identity_callable ->
  written_in_place l i d w
    (snd (get_with_retry fuel url identity identity_callable kwargs w)) /\
  written_in_place l i d w
    (snd (post_with_retry fuel url identity identity_callable kwargs w)) /\
  written_in_place l i d w
    (snd (bind (stream_with_retry fuel url identity identity_callable kwargs)
               (stream_items fuel) w)) /\
  written_in_place l i d w
    (snd (bind (get_with_retry_async fuel url identity identity_callable kwargs)
               (await_get fuel) w)) /\
  written_in_place l i d w
    (snd (bind (post_with_retry_async fuel url identity identity_callable kwargs)
               (await_post fuel) w)).
Proof.
  rename identity_callable into ic. intros Hfuel Hl Hd Hres.
  destruct fuel as [|n]; [lia|].
  pose proof (alter_user_agent_idem i l (heap w)) as Hidem.
  split; [|split; [|split; [|split]]]; apply written_in_place_intro; try exact Hd.
  + exact (decorate_written EP_get_with_retry (S n) _ url identity ic kwargs
             w i l Hl Hres).
  + exact (headers_request_entry_point EP_get_with_retry l i _ (environ w)
             Hidem GET get_with_retry get_with_retry_O get_with_retry_S
             (S n) url identity ic kwargs (conj Hl Hres)).
  + exact (decorate_written EP_post_with_retry (S n) _ url identity ic kwargs
             w i l Hl Hres).
  + exact (headers_request_entry_point EP_post_with_retry l i _ (environ w)
             Hidem POST post_with_retry post_with_retry_O post_with_retry_S
             (S n) url identity ic kwargs (conj Hl Hres)).
  + apply bind_first.
    exact (decorate_written EP_stream_with_retry (S n) _ url identity ic kwargs
             w i l Hl Hres).
  + exact (headers_stream_run EP_stream_with_retry l i _ (environ w) Hidem
             (S n) url identity ic kwargs eq_refl (conj Hl Hres)).
  + apply bind_first.
    exact (decorate_written EP_get_with_retry_async (S n) _ url identity ic
             kwargs w i l Hl Hres).
  + exact (headers_await_run EP_get_with_retry_async l i _ (environ w) Hidem
             GET await_get (S n) url identity ic kwargs (fun _ => eq_refl)
             await_get_S (conj Hl Hres)).
  + apply bind_first.
    exact (decorate_written EP_post_with_retry_async (S n) _ url identity ic
             kwargs w i l Hl Hres).
  + exact (headers_await_run EP_post_with_retry_async l i _ (environ w) Hidem
             POST await_post (S n) url identity ic kwargs (fun _ => eq_refl)
             await_post_S (conj Hl Hres)).
Qed.

(** C10.  A [headers] dictionary passed by the caller is written in place:
    the function wrapped by [with_identity] starts with the same object in
    its keywords and [User-Agent] set in it to the resolved identity,
    every other entry and every other object as before; when the identity
    is the same at every resolution, the store after a call of any entry
    point differs from the one before in that entry only, and every
    transport call made on the way, redirect hops and new attempts
    included, was handed that same object; and a call that gets its ticket
    does make a transport call, so that the object, so written, reaches the
    transport. *)
Theorem headers_written_in_place :
  (forall A (func : pipeline A) url identity identity_callable kwargs w i l d,
     fst (resolve_identity identity identity_callable w) = Ok (Some i) ->
     kw_headers kwargs = Some l ->
     heap w !! l = Some d ->
     let w' := set_heap (<[l := <["User-Agent"%string := i]> d]> (heap w))
                        (snd (resolve_identity identity identity_callable w)) in
     with_identity func url identity identity_callable kwargs w
     = func url (Some i) identity_callable kwargs w' /\
     heap w' !! l = Some (<["User-Agent"%string := i]> d) /\
     <["User-Agent"%string := i]> d !! "User-Agent"%string = Some i /\
     (forall k, k <> "User-Agent"%string ->
                <["User-Agent"%string := i]> d !! k = d !! k) /\
     (forall l', l' <> l -> heap w' !! l' = heap w !! l')) /\
  (forall fuel url identity identity_callable kwargs w i l d,
     (0 < fuel)%nat ->
     kw_headers kwargs = Some l ->
     heap w !! l = Some d ->
     resolves_to i (environ w) identity identity_callable ->
     written_in_place l i d w
       (snd (get_with_retry fuel url identity identity_callable kwargs w)) /\
     written_in_place l i d w
       (snd (post_with_retry fuel url identity identity_callable kwargs w)) /\
     written_in_place l i d w
       (snd (bind (stream_with_retry fuel url identity identity_callable kwargs)
                  (stream_items fuel) w)) /\
     written_in_place l i d w
       (snd (bind (get_with_retry_async fuel url identity identity_callable kwargs)
                  (await_get fuel) w)) /\
     written_in_place l i d w
       (snd (bind (post_with_retry_async fuel url identity identity_callable kwargs)
                  (await_post fuel) w))) /\
  (forall fuel e url identity identity_callable kwargs w i l d,
     (11 <= fuel)%nat ->
     ready e w ->
     kw_headers kwargs = Some l ->
     heap w !! l = Some d ->
     resolves_to i (environ w) identity identity_callable ->
     forwarded l i d w
       (snd (run_call fuel (call_of e url identity identity_callable kwargs) w))).
Proof.
  split; [|split].
  - intros A func url identity ic kwargs w i l d Hres Hl Hd w'.
    split; [exact (with_identity_given_headers func url identity ic kwargs w i l d
                     Hres Hl Hd)|].
    assert (Hlt : (l < length (heap w))%nat) by (eapply lookup_lt_Some; exact Hd).
    subst w'. cbn [heap set_heap].
    split; [now apply list_lookup_insert_eq|].
    split; [apply lookup_insert_eq|].
    split; [intros k Hk; now apply lookup_insert_ne|].
    intros l' Hne. apply list_lookup_insert_ne. congruence.
  - exact entry_points_write_in_place.
  - intros fuel e url identity ic kwargs w i l d Hfuel Hready Hl Hd Hres.
    destruct (first_request fuel e url identity ic kwargs w i Hfuel
                (resolves_to_Ok i identity ic w Hres) Hready)
      as (w1 & m & streaming & more & _ & Hreq).
    eapply forwarded_intro; [|exact Hreq].
    rewrite run_call_world.
    assert (Hpos : (0 < fuel)%nat) by lia.
    destruct (entry_points_write_in_place fuel url identity ic kwargs w i l d
                Hpos Hl Hd Hres) as (H1 & H2 & H3 & H4 & H5).
    destruct e; cbn [call_of]; [exact H1|exact H4|exact H3|exact H2|exact H5].
Qed.

Lemma headers_written_in_place_witness :
  let d : dict := {[ "Accept"%string := "text/html"%string ]} in
  let w := set_heap [d]
             (imported ∅
                (scripted [answer 302 [("location"%string, "https://www.sec.gov/b"%string)];
                           answer 200 []])) in
  let w' := snd (run_call 12
                   (call_of EP_get_with_retry "https://www.sec.gov/a"
                      (Some "Jane Doe jane@example.com"%string) None
                      (set_kw_headers no_kwargs 0%nat)) w) in
  forwarded 0%nat "Jane Doe jane@example.com" d w w' /\
  requests_sent w' = 2%nat.
Proof.
  intros d w w'. split; [|vm_compute; reflexivity].
  refine (proj2 (proj2 headers_written_in_place) 12%nat EP_get_with_retry
            "https://www.sec.gov/a"%string
            (Some "Jane Doe jane@example.com"%string) None
            (set_kw_headers no_kwargs 0%nat) w
            "Jane Doe jane@example.com"%string 0%nat d _ _ _ _ _).
  - lia.
  - exact (imported_ready _ _ EP_get_with_retry).
  - reflexivity.
  - reflexivity.
  - reflexivity.
Defined.

Lemma retry_invokes_attempt_witness :
  let rs := retry is_RequestError (fun _ : nat => 0%Q) (fun _ s => s)
                  attempts retry_timeout (flaky 2) 0%nat in
  fst rs = Ok 2%nat /\ snd rs = 3%nat.
Proof.
  intros rs.
  destruct (retry_invokes_attempt (fun _ : nat => 0%Q) (fun _ s => s)
              (fun s => s) (flaky 2) (fun _ => True) 0%nat 2%nat attempts
              (fun _ => "timed out"%string) 2%nat retry_timeout) as [Hwin _].
  - unfold attempts. lia.
  - exact I.
  - intros s j _ Hs Hj. cbn in Hs. subst s.
    destruct j as [|[|j]]; [repeat split|repeat split|lia].
  - intros s j n _ _ _. split; [exact I|reflexivity].
  - intros s _ Hs. cbn in Hs. subst s. split; reflexivity.
  - apply Hwin. unfold attempts. lia.
Defined.

Lemma sliding_window_never_exceeds_witness :
  (Z.of_nat (count_in_window (inject_Z 1) 1
               (admitted [0; 0; 1 # 2; 1]%Q
                  (fst (get_tickets [0; 0; 1 # 2; 1]%Q
                          (Throttler_init (mkRequestRate 2 1) (1 # 10))))))
   <= 2)%Z.
Proof.
  refine (proj1 (sliding_window_never_exceeds 2 1 (mkRequestRate 2 1) (1 # 10)
                   [0; 0; 1 # 2; 1]%Q 1 _ _)).
  - reflexivity.
  - repeat (constructor; try (unfold Qle; simpl; lia)).
Defined.

(** With a window closed at both ends the count can pass the limit: the
    limit is one request per second, and tickets are granted at 0 and at 1. *)
Remark closed_window_holds_one_more :
  fst (get_tickets [0; 1]%Q (Throttler_init (mkRequestRate 1 1) (1 # 10)))
  = [true; true].
Proof. vm_compute. reflexivity. Qed.

(** ** Transient errors through the decorated entry points *)

Section TransientErrors.
Variable e : entry_point.
Variable m : http_method.
Variable self : pipeline Response.
Variable fuel : nat.
Variable url : string.
Variable identity : option string.
Variable identity_callable : option callable.
Variable kwargs : Kwargs.
Variable w0 : World.
Variable i : string.
Variable k : nat.
Variable err : nat -> string.
Variable response : Response.

Hypothesis enough_fuel : (11 <= fuel)%nat.
Hypothesis ready0 : ready e w0.
Hypothesis identity0 : resolves_to i (environ w0) identity identity_callable.
Hypothesis short_waits :
  forall n, (0 <= retry_wait w0 wait_initial n)%Q /\
            (retry_wait w0 wait_initial n <= 5)%Q.
Hypothesis short_calls : forall n req, (elapsed_ms (network w0 n req) <= 1000)%N.
Hypothesis fails_first :
  forall j req, (j < k)%nat ->
    outcome (network w0 (requests_sent w0 + j) req) = inr (err j).
Hypothesis then_answers :
  forall req, outcome (network w0 (requests_sent w0 + k) req) = inl response.
Hypothesis not_429 : status_code response <> 429%Z.
Hypothesis not_301 : status_code response <> 301%Z.
Hypothesis not_302 : status_code response <> 302%Z.

Let sent (w : World) : Q := inject_Z (Z.of_nat (requests_sent w)).

Let Inv (w : World) : Prop :=
  ready e w /\ network w = network w0 /\ retry_wait w = retry_wait w0 /\
  environ w = environ w0 /\
  (now w <= now w0 + (sent w - sent w0) * (71 # 10))%Q.

Let the_attempt : M Response :=
  attempt e fuel (request_body m self) url identity identity_callable kwargs.

Lemma sent_S (w w' : World) :
  requests_sent w' = S (requests_sent w) -> sent w' = (sent w + 1)%Q.
Proof.
  intros H. unfold sent. rewrite H, Nat2Z.inj_succ, <- Z.add_1_r.
  apply inject_Z_plus.
Qed.

Lemma sent_plus (w : World) (j : nat) :
  requests_sent w = (requests_sent w0 + j)%nat ->
  sent w = (sent w0 + inject_Z (Z.of_nat j))%Q.
Proof.
  intros H. unfold sent. rewrite H, Nat2Z.inj_add. apply inject_Z_plus.
Qed.

(** One attempt from a state of the invariant: where the body starts and
    what the transport is asked. *)
Lemma transient_attempt (w : World) :
  Inv w ->
  exists w1,
    let kwargs' := set_kw_headers kwargs (headers_ref kwargs w) in
    let w2 := after_request m false url kwargs' w1 in
    the_attempt w =
    match outcome (network w0 (requests_sent w)
                     (request_made m false url kwargs' w1)) with
    | inl r =>
        if (status_code r =? 429)%Z then
          (Raise (TooManyRequestsError url "Too Many Requests"), w2)
        else if is_redirect r then
          match Headers_getitem (headers r) "Location"%string with
          | Some location =>
              throttle_epilogue e
                (self location (Some i) identity_callable kwargs' w2)
          | None => (Raise (KeyError "Location"), w2)
          end
        else throttle_epilogue e (Ok r, w2)
    | inr message => (Raise (RequestError message), w2)
    end /\
    requests_sent w2 = S (requests_sent w) /\
    ready e w2 /\ network w2 = network w0 /\ retry_wait w2 = retry_wait w0 /\
    environ w2 = environ w0 /\
    (now w2 <= now w + (21 # 10))%Q.
Proof.
  intros (Hready & Hnet & Hrw & Henv & Hnow).
  assert (Hres : fst (resolve_identity identity identity_callable w) = Ok (Some i)).
  { apply resolves_to_Ok. now rewrite Henv. }
  destruct (attempt_request e fuel m self url identity identity_callable
              kwargs w i Hres Hready enough_fuel) as [w1 [Hentry Heq]].
  exists w1. cbv zeta in Heq |- *. rewrite Hnet in Heq.
  pose proof (after_request_step e m false url
                (set_kw_headers kwargs (headers_ref kwargs w)) w1) as Hstep.
  destruct Hentry as [En Erw Eenv _ _ _ Esent _ Eready Eclock Esoon].
  destruct Hstep as [Sn Srw Senv _ _ _ Ssent _ Sready _ Selapsed].
  split; [exact Heq|]. split; [congruence|]. split; [auto|].
  split; [congruence|]. split; [congruence|]. split; [congruence|].
  rewrite Selapsed.
  pose proof (latency_bound _ (short_calls (requests_sent w1)
                (request_made m false url
                   (set_kw_headers kwargs (headers_ref kwargs w)) w1))) as Hl.
  rewrite En, Hnet. lra.
Qed.

Lemma transient_pause (n : nat) (w : World) :
  ready e w -> network w = network w0 -> retry_wait w = retry_wait w0 ->
  environ w = environ w0 ->
  ready e (stamina_pause n w) /\
  network (stamina_pause n w) = network w0 /\
  retry_wait (stamina_pause n w) = retry_wait w0 /\
  environ (stamina_pause n w) = environ w0 /\
  requests_sent (stamina_pause n w) = requests_sent w /\
  (now (stamina_pause n w) <= now w + 5)%Q.
Proof.
  intros (Hrate & Hsleep & Hold) Hnet Hrw Henv.
  destruct (short_waits n) as [Hlo Hhi].
  unfold stamina_pause, time_sleep. cbn [snd]. rewrite Hrw.
  split; [|repeat split; try assumption; cbn [now log set_now]; lra].
  split; [exact Hrate|]. split; [exact Hsleep|].
  cbn [now log set_now throttlers]. eapply Forall_impl; [exact Hold|].
  cbn beta. intros t Ht. lra.
Qed.

Lemma decorate_transient_errors :
  let rw := decorate e fuel (request_body m self) url identity
                     identity_callable kwargs w0 in
  ((k < attempts)%nat ->
   fst rw = Ok response /\
   requests_sent (snd rw) = (requests_sent w0 + k + 1)%nat) /\
  ((attempts <= k)%nat ->
   fst rw = Raise (RequestError (err (attempts - 1))) /\
   requests_sent (snd rw) = (requests_sent w0 + attempts)%nat).
Proof.
  assert (HI0 : Inv w0).
  { split; [exact ready0|]. repeat split. lra. }
  assert (E429 : (status_code response =? 429)%Z = false) by now apply Z.eqb_neq.
  assert (Ered : is_redirect response = false) by now apply is_redirect_false.
  destruct (retry_from_counts now stamina_pause requests_sent the_attempt Inv w0
              k err response retry_timeout (pred attempts)) with
    (remaining := pred attempts) (j := 0%nat) (number := 1%nat) (s := w0)
    as [Hwin Hlose]; try exact HI0; try lia.
  - (* the first k attempts fail, in time *)
    intros w j HI Hc Hj Hb.
    destruct (transient_attempt w HI)
      as (w1 & Heq & Hs & _ & _ & _ & _ & Hnow2).
    cbv zeta in Heq, Hs, Hnow2. rewrite Hc, (fails_first j _ Hj) in Heq.
    rewrite Heq. cbn [fst snd]. split; [reflexivity|]. split; [exact Hs|].
    destruct HI as (_ & _ & _ & _ & Hnow). rewrite (sent_plus w j Hc) in Hnow.
    assert (Hj5 : (inject_Z (Z.of_nat j) <= 5)%Q).
    { change 5%Q with (inject_Z 5). rewrite <- Zle_Qle. unfold attempts in Hb.
      cbn in Hb. lia. }
    unfold retry_timeout. lra.
  - (* and the wait that follows restores the invariant *)
    intros w j n HI Hc Hj Hb.
    destruct (transient_attempt w HI)
      as (w1 & Heq & Hs & Hr2 & Hn2 & Hrw2 & He2 & Hnow2).
    cbv zeta in Heq, Hs, Hr2, Hn2, Hrw2, He2, Hnow2.
    rewrite Hc, (fails_first j _ Hj) in Heq. rewrite Heq. cbn [fst snd].
    destruct (transient_pause n _ Hr2 Hn2 Hrw2 He2)
      as (Pr & Pn & Prw & Pe & Ps & Pnow).
    split; [|congruence]. split; [exact Pr|]. repeat split; try assumption.
    destruct HI as (_ & _ & _ & _ & Hnow).
    rewrite (sent_S _ _ (eq_trans Ps Hs)). lra.
  - (* the next one succeeds *)
    intros w HI Hc Hb.
    destruct (transient_attempt w HI) as (w1 & Heq & Hs & _).
    cbv zeta in Heq, Hs. rewrite Hc, then_answers, E429, Ered in Heq.
    rewrite Heq. unfold throttle_epilogue, Throttler_update_metrics.
    cbn [fst snd]. split; [reflexivity|].
    now rewrite requests_sent_set_throttler.
  - intros rw. subst rw. rewrite decorate_attempt. unfold with_retry, retry.
    fold the_attempt. split.
    + intros Hlt. destruct Hwin as [H1 H2]; [lia|]. split; [exact H1|lia].
    + intros Hle. destruct Hlose as [H1 H2]; [unfold attempts in *; cbn in *; lia|].
      split; [rewrite H1; do 3 f_equal; unfold attempts; cbn; lia|].
      rewrite H2. unfold attempts. cbn. lia.
Qed.
End TransientErrors.

(** X22.  [get_with_retry] and [post_with_retry] with the module's constants
    ([attempts = 6], [retry_timeout = 40]): the transport fails [k] times
    with an [httpx.RequestError] and then answers; calls take a second at
    most and the retry layer waits five seconds at most, so the timeout
    cannot elapse within six attempts. *)
Lemma entry_points_retry_transient_errors (fuel : nat) (url : string)
    (identity : option string) (identity_callable : option callable)
    (kwargs : Kwargs) (w : World) (i : string) (k : nat) (err : nat -> string)
    (response : Response) :
  (11 <= fuel)%nat ->
  ready EP_get_with_retry w -> ready EP_post_with_retry w ->
  resolves_to i (environ w) identity identity_callable ->
  (forall n, (0 <= retry_wait w wait_initial n)%Q /\
             (retry_wait w wait_initial n <= 5)%Q) ->
  (forall n req, (elapsed_ms (network w n req) <= 1000)%N) ->
  (forall j req, (j < k)%nat ->
     outcome (network w (requests_sent w + j) req) = inr (err j)) ->
  (forall req, outcome (network w (requests_sent w + k) req) = inl response) ->
  status_code response <> 429%Z ->
  status_code response <> 301%Z ->
  status_code response <> 302%Z ->
  let g := get_with_retry fuel url identity identity_callable kwargs w in
  let p := post_with_retry fuel url identity identity_callable kwargs w in
  ((k < attempts)%nat ->
   (fst g = Ok response /\ requests_sent (snd g) = (requests_sent w + k + 1)%nat) /\
   (fst p = Ok response /\ requests_sent (snd p) = (requests_sent w + k + 1)%nat)) /\
  ((attempts <= k)%nat ->
   (fst g = Raise (RequestError (err (attempts - 1))) /\
    requests_sent (snd g) = (requests_sent w + attempts)%nat) /\
   (fst p = Raise (RequestError (err (attempts - 1))) /\
    requests_sent (snd p) = (requests_sent w + attempts)%nat)).
Proof.
  intros Hfuel Hg Hp Hres Hwaits Hcalls Hfail Hok H429 H301 H302 g p.
  destruct fuel as [|n]; [lia|].
  pose proof (decorate_transient_errors EP_get_with_retry GET (get_with_retry n)
                (S n) url identity identity_callable kwargs w i k err response
                Hfuel Hg Hres Hwaits Hcalls Hfail Hok H429 H301 H302) as [G1 G2].
  pose proof (decorate_transient_errors EP_post_with_retry POST (post_with_retry n)
                (S n) url identity identity_callable kwargs w i k err response
                Hfuel Hp Hres Hwaits Hcalls Hfail Hok H429 H301 H302) as [P1 P2].
  split; intros Hk; (split; [exact (G1 Hk) || exact (G2 Hk)
                            |exact (P1 Hk) || exact (P2 Hk)]).
Qed.

Example two_timeouts_then_a_response :
  let w := imported ∅ (scripted [failure "timed out"; failure "timed out";
                                 answer 200 []]) in
  let rw := get_with_retry 12 "https://www.sec.gov/a"
              (Some "Jane Doe jane@example.com"%string) None no_kwargs w in
  fst rw = Ok (mkResponse 200 [] "") /\ requests_sent (snd rw) = 3%nat.
Proof. vm_compute. split; reflexivity. Qed.

Example six_timeouts_exhaust_the_attempts :
  let w := imported ∅ (scripted (repeat (failure "timed out") 7)) in
  let rw := get_with_retry 12 "https://www.sec.gov/a"
              (Some "Jane Doe jane@example.com"%string) None no_kwargs w in
  fst rw = Raise (RequestError "timed out") /\ requests_sent (snd rw) = 6%nat.
Proof. vm_compute. split; reflexivity. Qed.

Lemma entry_points_retry_transient_errors_witness :
  let w := imported ∅ (scripted [failure "timed out"; failure "reset";
                                 answer 200 []]) in
  let rw := get_with_retry 12 "https://www.sec.gov/a"
              (Some "Jane Doe jane@example.com"%string) None no_kwargs w in
  fst rw = Ok (mkResponse 200 [] "") /\ requests_sent (snd rw) = 3%nat.
Proof.
  intros w rw.
  destruct (entry_points_retry_transient_errors 12 "https://www.sec.gov/a"
              (Some "Jane Doe jane@example.com"%string) None no_kwargs w
              "Jane Doe jane@example.com" 2
              (fun j => match j with O => "timed out" | _ => "reset" end)%string
              (mkResponse 200 [] "")) as [H _].
  - lia.
  - apply imported_ready.
  - apply imported_ready.
  - reflexivity.
  - intros n. vm_compute. split; discriminate.
  - intros n req. destruct n as [|[|[|[|n]]]]; vm_compute; discriminate.
  - intros j req Hj. destruct j as [|[|j]]; [reflexivity|reflexivity|lia].
  - intros req. reflexivity.
  - discriminate.
  - discriminate.
  - discriminate.
  - destruct H as [[H1 H2] _]; [unfold attempts; lia|].
    split; [exact H1|exact H2].
Defined.

(** * Further properties *)

(** ** A ticket is refused only when the window is full *)

Lemma window_inv_later (rate : RequestRate) (last last' : Q) (history : list Q)
    (th : Throttler) :
  (last <= last')%Q ->
  window_inv rate last history th -> window_inv rate last' history th.
Proof.
  intros Hle [Hrate [purged [Hsplit Hpurged]] Hpast Hasc Hlen Hbound].
  split; try assumption.
  - exists purged. split; [exact Hsplit|].
    eapply Forall_impl; [exact Hpurged|]. cbn beta. intros u Hu. lra.
  - eapply Forall_impl; [exact Hpast|]. cbn beta. intros u Hu. lra.
Qed.

Lemma window_inv_upto (rate : RequestRate) (readings : list Q) :
  forall (last bound : Q) (history : list Q) (th : Throttler),
    ascending readings ->
    Forall (fun t => (last <= t)%Q) readings ->
    Forall (fun t => (t <= bound)%Q) readings ->
    (last <= bound)%Q ->
    window_inv rate last history th ->
    window_inv rate bound
      (history ++ admitted readings (fst (get_tickets readings th)))
      (snd (get_tickets readings th)).
Proof.
  induction readings as [|t rest IH]; intros last bound history th Hasc Hlo Hhi Hle Hinv.
  - simpl. rewrite app_nil_r. now apply (window_inv_later rate last).
  - simpl. inversion Hasc as [|? ? Hrest_le Hrest]; subst.
    inversion Hlo as [|? ? Ht _]; subst.
    inversion Hhi as [|? ? Htb Hrest_hi]; subst.
    pose proof (window_inv_step rate last t history th Ht Hinv) as Hstep.
    destruct (get_ticket t th) as [ok th1]. simpl in Hstep.
    specialize (IH t bound _ th1 Hrest Hrest_le Hrest_hi Htb Hstep).
    destruct (get_tickets rest th1) as [oks th2]. simpl in *.
    destruct ok; simpl.
    + now rewrite <- app_assoc in IH.
    + now rewrite app_nil_r in IH.
Qed.

Lemma count_in_window_all (W T : Q) (l : list Q) :
  Forall (fun u => (T - W < u)%Q /\ (u <= T)%Q) l ->
  count_in_window W T l = length l.
Proof.
  unfold count_in_window. induction 1 as [|u l Hu _ IH]; [reflexivity|].
  rewrite filter_cons_True by now apply in_window_true.
  simpl. now rewrite IH.
Qed.

Lemma ascending_head_bound (t : Q) (ts : list Q) (x : Q) :
  ascending (t :: ts) -> (x < t)%Q -> Forall (fun u => (x < u)%Q) (t :: ts).
Proof.
  intros H Hx. inversion H as [|? ? Hle _]; subst.
  constructor; [exact Hx|].
  eapply Forall_impl; [exact Hle|]. cbn beta. intros u Hu. lra.
Qed.

Lemma ascending_app_last (readings : list Q) (t : Q) :
  ascending (readings ++ [t]) ->
  ascending readings /\ Forall (fun u => (u <= t)%Q) readings.
Proof.
  induction readings as [|u rest IH]; simpl; intros H.
  - split; constructor.
  - inversion H as [|? ? Hle Hrest]; subst.
    destruct (IH Hrest) as [Hasc Hlast]. split.
    + constructor; [|exact Hasc].
      apply Forall_app in Hle. tauto.
    + constructor; [|exact Hlast].
      apply Forall_app in Hle. destruct Hle as [_ Hle].
      now inversion Hle.
Qed.

(** What [get_ticket] answers once the clock reads [t]: whether fewer than
    [max_requests] of the admitted timestamps lie in the window that ends
    at [t]. *)
Lemma get_ticket_counts (rate : RequestRate) (t : Q) (history : list Q)
    (th : Throttler) :
  window_inv rate t history th ->
  fst (get_ticket t th) =
  (Z.of_nat (count_in_window (inject_Z (time_window rate)) t history)
   <? max_requests rate)%Z.
Proof.
  intros Hinv.
  pose proof (window_inv_deque_ascending _ _ _ _ Hinv) as Hdeque.
  destruct Hinv as [Hrate [purged [Hsplit Hpurged]] Hpast _ _ _].
  assert (Hcount : count_in_window (inject_Z (time_window rate)) t history =
                   length (popleft_expired (t - inject_Z (time_window rate))
                             (request_timestamps th))).
  { rewrite Hsplit, count_in_window_app.
    rewrite (count_in_window_expired _ _ purged Hpurged). simpl.
    destruct (popleft_expired_split (t - inject_Z (time_window rate))
                (request_timestamps th)) as [k [Hdrop Htake]].
    rewrite <- (take_drop k (request_timestamps th)) at 1.
    rewrite count_in_window_app, (count_in_window_expired _ _ _ Htake). simpl.
    rewrite Hdrop. apply count_in_window_all.
    assert (Hle : Forall (fun u => (u <= t)%Q) (drop k (request_timestamps th))).
    { rewrite Hsplit in Hpast. apply Forall_app in Hpast.
      destruct Hpast as [_ Hpast].
      rewrite <- (take_drop k (request_timestamps th)) in Hpast.
      apply Forall_app in Hpast. tauto. }
    assert (Hgt : Forall (fun u => (t - inject_Z (time_window rate) < u)%Q)
                         (drop k (request_timestamps th))).
    { pose proof (ascending_drop k _ Hdeque) as Hasc.
      rewrite <- Hdrop in Hasc |- *.
      destruct (popleft_expired _ _) as [|u rest] eqn:E'; [constructor|].
      apply ascending_head_bound; [exact Hasc|].
      exact (popleft_expired_head _ _ _ _ E'). }
    clear - Hle Hgt. induction Hle as [|u l Hu _ IH]; [constructor|].
    inversion Hgt; subst. constructor; auto. }
  rewrite Hcount. unfold get_ticket. rewrite Hrate.
  now destruct (_ <? _)%Z.
Qed.

(** X1.  [Throttler.get_ticket] refuses only when the window is full: after
    any run of calls at non-decreasing clock readings, the call at reading
    [t] is granted exactly when fewer than [N] of the timestamps admitted so
    far lie in the window [(t - W, t]]. *)
Theorem ticket_granted_iff_window_not_full (N W : Z) (rate : RequestRate)
    (sleep : Q) (readings : list Q) (t : Q) :
  RequestRate_init N W = Ok rate ->
  ascending (readings ++ [t]) ->
  let run := get_tickets readings (Throttler_init rate sleep) in
  fst (get_ticket t (snd run)) =
  (Z.of_nat (count_in_window (inject_Z W) t (admitted readings (fst run))) <? N)%Z.
Proof.
  intros Hinit Hasc run.
  apply RequestRate_init_Ok in Hinit. destruct Hinit as [HN [HW ->]].
  destruct (ascending_app_last _ _ Hasc) as [Hreadings Hlast].
  set (rate := mkRequestRate N W).
  assert (Hinv : window_inv rate t
                   ([] ++ admitted readings (fst run)) (snd run)).
  { destruct readings as [|t0 rest].
    - simpl. apply window_inv_init. simpl. lia.
    - apply (window_inv_upto rate (t0 :: rest) t0 t); try assumption.
      + inversion Hreadings; subst. constructor; [lra|assumption].
      + now inversion Hlast.
      + apply window_inv_init. simpl. lia. }
  simpl in Hinv. exact (get_ticket_counts rate t _ _ Hinv).
Qed.

Lemma ticket_granted_iff_window_not_full_witness :
  fst (get_ticket (3 # 2)
         (snd (get_tickets [0; 1 # 2; 1 # 2; 1]%Q
                 (Throttler_init (mkRequestRate 2 1) (1 # 10)))))
  = (Z.of_nat (count_in_window (inject_Z 1) (3 # 2)
                 (admitted [0; 1 # 2; 1 # 2; 1]%Q
                    (fst (get_tickets [0; 1 # 2; 1 # 2; 1]%Q
                            (Throttler_init (mkRequestRate 2 1) (1 # 10))))))
     <? 2)%Z.
Proof.
  apply (ticket_granted_iff_window_not_full 2 1 (mkRequestRate 2 1) (1 # 10)
           [0; 1 # 2; 1 # 2; 1]%Q (3 # 2)).
  - reflexivity.
  - repeat constructor; unfold Qle; simpl; lia.
Defined.

(** ** The wait for a ticket, in general *)

Lemma waits_granted_now (e : entry_point) (w w' : World) :
  waits e w w' ->
  hd_error (trace w') = Some (EvTicket e (now w')) /\
  exists older, request_timestamps (throttlers w' e) = older ++ [now w'].
Proof.
  induction 1 as [w th Hget|w th w' Hget _ IH]; [|exact IH].
  split; [reflexivity|].
  cbn [throttlers log set_throttler now]. rewrite decide_True by reflexivity.
  revert Hget. unfold get_ticket. destruct (_ <? _)%Z; intros [= <-].
  cbn [request_timestamps with_timestamps]. eauto.
Qed.

(** X2.  [Throttler.wait_for_ticket] returns: with a positive limit, a
    positive window [W], a polling interval [s >= 0] and no timestamp of the future in the deque,
    [n] polls with [W <= n * s] are enough.  The ticket is granted at most
    [W + s] seconds after the call, its timestamp is the clock reading at
    the return and sits at the right end of the deque, and nothing is sent
    meanwhile. *)
Theorem wait_for_ticket_ends (e : entry_point) (n : nat) (w : World) :
  (0 < max_requests (request_rate (throttlers w e)))%Z ->
  (0 < time_window (request_rate (throttlers w e)))%Z ->
  (0 <= sleep_interval (throttlers w e))%Q ->
  Forall (fun t => (t <= now w)%Q) (request_timestamps (throttlers w e)) ->
  (inject_Z (time_window (request_rate (throttlers w e)))
   <= inject_Z (Z.of_nat n) * sleep_interval (throttlers w e))%Q ->
  exists w',
    wait_for_ticket (S n) e w = (Ok tt, w') /\
    (now w <= now w')%Q /\
    (now w' <= now w + inject_Z (time_window (request_rate (throttlers w e)))
               + sleep_interval (throttlers w e))%Q /\
    hd_error (trace w') = Some (EvTicket e (now w')) /\
    (exists older, request_timestamps (throttlers w' e) = older ++ [now w']) /\
    tickets_taken w' = S (tickets_taken w) /\
    requests_sent w' = requests_sent w.
Proof.
  intros Hmax HW Hs Hold Hn.
  assert (HWq : (0 < inject_Z (time_window (request_rate (throttlers w e))))%Q).
  { change 0%Q with (inject_Z 0). now rewrite <- Zlt_Qlt. }
  destruct (wait_for_ticket_returns e n w (now w) Hmax Hold) as [w' [Hrun Hwaits]];
    [lra|].
  exists w'. split; [exact Hrun|].
  destruct (waits_clock e w w' Hwaits Hs Hold) as [Hnow _].
  split; [exact Hnow|]. split.
  { apply (waits_duration e w w' Hwaits (now w)); try assumption; lra. }
  destruct (waits_granted_now e w w' Hwaits) as [Hhd Hlast].
  split; [exact Hhd|]. split; [exact Hlast|].
  destruct (waits_ticket_step e w w' Hwaits) as [_ _ _ _ _ _ _ _ _ Hsent Htick].
  split; [exact Htick|exact Hsent].
Qed.

Lemma wait_for_ticket_ends_witness :
  exists w',
    wait_for_ticket 4 EP_get_with_retry
      (set_throttler EP_get_with_retry
         (with_timestamps (Throttler_init (mkRequestRate 1 1) (1 # 2)) [0%Q])
         (imported ∅ (scripted []))) = (Ok tt, w') /\
    (now w' <= 0 + inject_Z 1 + (1 # 2))%Q.
Proof.
  destruct (wait_for_ticket_ends EP_get_with_retry 3
              (set_throttler EP_get_with_retry
                 (with_timestamps (Throttler_init (mkRequestRate 1 1) (1 # 2)) [0%Q])
                 (imported ∅ (scripted []))))
    as [w' (Hrun & _ & Hsoon & _)].
  - reflexivity.
  - reflexivity.
  - vm_compute. discriminate.
  - repeat constructor. vm_compute. discriminate.
  - vm_compute. discriminate.
  - exists w'. split; [exact Hrun|exact Hsoon].
Defined.

(** ** Metrics *)

Lemma Qmax_lub (x y z : Q) : (x <= z)%Q -> (y <= z)%Q -> (Qmax x y <= z)%Q.
Proof. intros Hx Hy. unfold Qmax. now destruct (Qle_bool x y). Qed.

Lemma Qmax_ge_l (x y : Q) : (x <= Qmax x y)%Q.
Proof.
  unfold Qmax. destruct (Qle_bool x y) eqn:E.
  - now apply Qle_bool_true.
  - apply Qle_refl.
Qed.

Lemma get_ticket_length (t : Q) (th : Throttler) :
  (Z.of_nat (length (request_timestamps th)) <= max_requests (request_rate th))%Z ->
  (Z.of_nat (length (request_timestamps (snd (get_ticket t th))))
   <= max_requests (request_rate th))%Z.
Proof.
  intros Hlen. unfold get_ticket.
  destruct (popleft_expired_split (t - inject_Z (time_window (request_rate th)))
              (request_timestamps th)) as [k [Hdrop _]].
  rewrite Hdrop.
  destruct (Z.ltb_spec (Z.of_nat (length (drop k (request_timestamps th))))
                       (max_requests (request_rate th))) as [Hroom|Hfull];
    cbn [snd request_timestamps with_timestamps].
  - rewrite length_app. simpl. lia.
  - rewrite length_drop. lia.
Qed.

Lemma metrics_inv_step (rate : RequestRate) (th : Throttler) (c : throttler_call) :
  (0 < time_window rate)%Z ->
  metrics_inv rate th ->
  metrics_inv rate (throttler_step th c) /\
  (peak_call_rate th <= peak_call_rate (throttler_step th c))%Q /\
  total_calls (throttler_step th c) =
  (total_calls th + if is_update c then 1 else 0)%nat.
Proof.
  intros HW [Hrate Hlen Hlow Hhigh]. destruct c as [t|]; cbn [throttler_step is_update].
  - split; [|split].
    + split.
      * now rewrite get_ticket_request_rate.
      * rewrite <- Hrate. apply get_ticket_length. now rewrite Hrate.
      * unfold get_ticket. now destruct (_ <? _)%Z.
      * unfold get_ticket. now destruct (_ <? _)%Z.
    + unfold get_ticket. destruct (_ <? _)%Z; apply Qle_refl.
    + unfold get_ticket. destruct (_ <? _)%Z; simpl; lia.
  - assert (HWq : (0 < inject_Z (time_window rate))%Q).
    { change 0%Q with (inject_Z 0). now rewrite <- Zlt_Qlt. }
    assert (Hinv : (0 < / inject_Z (time_window rate))%Q) by now apply Qinv_lt_0_compat.
    split; [|split].
    + split; cbn [update_metrics request_rate request_timestamps peak_call_rate].
      * exact Hrate.
      * exact Hlen.
      * apply Qle_trans with (1 := Hlow). apply Qmax_ge_l.
      * apply Qmax_lub; [exact Hhigh|]. rewrite Hrate.
        unfold Qdiv. apply Qmult_le_compat_r; [|now apply Qlt_le_weak].
        now rewrite <- Zle_Qle.
    + cbn [update_metrics peak_call_rate]. apply Qmax_ge_l.
    + cbn [update_metrics total_calls]. lia.
Qed.

Lemma metrics_inv_run (rate : RequestRate) (calls : list throttler_call) :
  (0 < time_window rate)%Z ->
  forall th,
    metrics_inv rate th ->
    metrics_inv rate (throttler_run calls th) /\
    (peak_call_rate th <= peak_call_rate (throttler_run calls th))%Q /\
    total_calls (throttler_run calls th) =
    (total_calls th + length (List.filter is_update calls))%nat.
Proof.
  intros HW. induction calls as [|c rest IH]; intros th Hinv.
  - simpl. split; [exact Hinv|]. split; [apply Qle_refl|lia].
  - destruct (metrics_inv_step rate th c HW Hinv) as (Hinv1 & Hpeak1 & Hcalls1).
    destruct (IH _ Hinv1) as (Hinv2 & Hpeak2 & Hcalls2).
    change (throttler_run (c :: rest) th)
      with (throttler_run rest (throttler_step th c)).
    split; [exact Hinv2|]. split.
    + now apply Qle_trans with (1 := Hpeak1).
    + rewrite Hcalls2, Hcalls1. simpl. destruct (is_update c); simpl; lia.
Qed.

(** X3.  The metrics of a throttler ([update_metrics], [get_metrics]),
    whatever calls of [get_ticket] and [update_metrics] it has served and
    whatever the clock read: [total_calls] is the number of
    [update_metrics] calls, [request_rate_limit] is the limit it was built
    with, and [peak_call_rate] lies between 0 and [N / W] and never
    decreases. *)
Theorem metrics_stay_within_the_limit (N W : Z) (rate : RequestRate) (sleep : Q)
    (calls more : list throttler_call) :
  RequestRate_init N W = Ok rate ->
  let m := get_metrics (throttler_run calls (Throttler_init rate sleep)) in
  let m' := get_metrics (throttler_run (calls ++ more) (Throttler_init rate sleep)) in
  m_total_calls m = length (List.filter is_update calls) /\
  m_request_rate_limit m = N /\
  (0 <= m_peak_call_rate m)%Q /\
  (m_peak_call_rate m <= inject_Z N / inject_Z W)%Q /\
  (m_peak_call_rate m <= m_peak_call_rate m')%Q.
Proof.
  intros Hinit m m'. subst m m'.
  apply RequestRate_init_Ok in Hinit. destruct Hinit as [HN [HW ->]].
  set (rate := mkRequestRate N W).
  assert (Hinv0 : metrics_inv rate (Throttler_init rate sleep)).
  { split; simpl; try reflexivity; try lia; try apply Qle_refl.
    unfold Qdiv. apply Qmult_le_0_compat.
    - change 0%Q with (inject_Z 0). rewrite <- Zle_Qle. lia.
    - apply Qlt_le_weak, Qinv_lt_0_compat.
      change 0%Q with (inject_Z 0). now rewrite <- Zlt_Qlt. }
  destruct (metrics_inv_run rate calls HW _ Hinv0) as (Hinv & _ & Hcalls).
  destruct (metrics_inv_run rate more HW _ Hinv) as (_ & Hpeak & _).
  unfold throttler_run in *. rewrite fold_left_app.
  destruct Hinv as [Hrate Hlen Hlow Hhigh].
  unfold get_metrics. cbn [m_total_calls m_request_rate_limit m_peak_call_rate].
  split; [exact Hcalls|]. split; [now rewrite Hrate|].
  split; [exact Hlow|]. split; [exact Hhigh|exact Hpeak].
Qed.

Lemma metrics_stay_within_the_limit_witness :
  let calls := [GetTicket 0; UpdateMetrics; GetTicket (1 # 10); GetTicket (2 # 10);
                UpdateMetrics; GetTicket 5; UpdateMetrics] in
  let m := get_metrics (throttler_run calls (Throttler_init (mkRequestRate 2 1) (1 # 10))) in
  m_total_calls m = 3%nat /\ (m_peak_call_rate m <= inject_Z 2 / inject_Z 1)%Q.
Proof.
  intros calls m.
  destruct (metrics_stay_within_the_limit 2 1 (mkRequestRate 2 1) (1 # 10) calls [])
    as (H1 & _ & _ & H4 & _).
  - reflexivity.
  - split; [exact H1|exact H4].
Defined.

(** ** A burst at one instant *)

Lemma popleft_expired_none (threshold : Q) (ts : list Q) :
  Forall (fun t => (threshold < t)%Q) ts -> popleft_expired threshold ts = ts.
Proof.
  intros H. destruct H as [|t ts Ht _]; [reflexivity|].
  simpl. apply Qle_bool_false in Ht. now rewrite Ht.
Qed.

Lemma Forall_repeat_same {A} (P : A -> Prop) (x : A) (n : nat) :
  P x -> Forall P (repeat x n).
Proof. intros H. induction n; simpl; now constructor. Qed.

Lemma get_tickets_app (l1 l2 : list Q) (th : Throttler) :
  fst (get_tickets (l1 ++ l2) th) =
  fst (get_tickets l1 th) ++ fst (get_tickets l2 (snd (get_tickets l1 th))) /\
  snd (get_tickets (l1 ++ l2) th) = snd (get_tickets l2 (snd (get_tickets l1 th))).
Proof.
  revert th. induction l1 as [|t rest IH]; intros th; simpl; [auto|].
  destruct (get_ticket t th) as [ok th1].
  destruct (IH th1) as [IH1 IH2].
  destruct (get_tickets (rest ++ l2) th1) as [oks th2].
  destruct (get_tickets rest th1) as [oks1 th3]. simpl in *.
  destruct (get_tickets l2 th3) as [oks2 th4]. simpl in *.
  split; [now rewrite IH1|exact IH2].
Qed.

Lemma burst_granted (t : Q) (k j : nat) (th : Throttler) :
  (0 < time_window (request_rate th))%Z ->
  request_timestamps th = repeat t j ->
  (Z.of_nat (j + k) <= max_requests (request_rate th))%Z ->
  fst (get_tickets (repeat t k) th) = repeat true k /\
  request_rate (snd (get_tickets (repeat t k) th)) = request_rate th /\
  request_timestamps (snd (get_tickets (repeat t k) th)) = repeat t (j + k).
Proof.
  revert j th. induction k as [|k IH]; intros j th HW Hts Hroom.
  - simpl. rewrite Nat.add_0_r. auto.
  - assert (HWq : (0 < inject_Z (time_window (request_rate th)))%Q).
    { change 0%Q with (inject_Z 0). now rewrite <- Zlt_Qlt. }
    assert (Hget : get_ticket t th = (true, with_timestamps th (repeat t (S j)))).
    { unfold get_ticket. rewrite Hts, popleft_expired_none.
      - rewrite repeat_length.
        destruct (Z.ltb_spec (Z.of_nat j) (max_requests (request_rate th))); [|lia].
        f_equal. f_equal. symmetry. apply repeat_cons.
      - apply Forall_repeat_same. lra. }
    cbn [repeat get_tickets]. rewrite Hget.
    destruct (IH (S j) (with_timestamps th (repeat t (S j)))) as (H1 & H2 & H3).
    + exact HW.
    + reflexivity.
    + cbn [request_rate with_timestamps]. lia.
    + destruct (get_tickets (repeat t k) _) as [oks th2]. simpl in *.
      split; [now rewrite H1|]. split; [exact H2|].
      rewrite H3. now replace (j + S k)%nat with (S (j + k)) by lia.
Qed.

Lemma burst_refused (t : Q) (k : nat) (th : Throttler) :
  (0 < time_window (request_rate th))%Z ->
  request_timestamps th = repeat t (Z.to_nat (max_requests (request_rate th))) ->
  (0 <= max_requests (request_rate th))%Z ->
  fst (get_tickets (repeat t k) th) = repeat false k.
Proof.
  intros HW Hts Hmax. induction k as [|k IH]; [reflexivity|].
  assert (HWq : (0 < inject_Z (time_window (request_rate th)))%Q).
  { change 0%Q with (inject_Z 0). now rewrite <- Zlt_Qlt. }
  assert (Hget : get_ticket t th = (false, th)).
  { unfold get_ticket. rewrite Hts, popleft_expired_none.
    - rewrite repeat_length.
      destruct (Z.ltb_spec (Z.of_nat (Z.to_nat (max_requests (request_rate th))))
                  (max_requests (request_rate th))); [lia|].
      f_equal. rewrite <- Hts. clear. now destruct th.
    - apply Forall_repeat_same. lra. }
  cbn [repeat get_tickets]. rewrite Hget.
  destruct (get_tickets (repeat t k) th) as [oks th2]. simpl in *.
  now rewrite IH.
Qed.

(** X4.  The throttler that [throttle_requests(requests_per_second=n)]
    builds (whatever [request_rate] is passed beside it) lets a burst of
    exactly [n] calls through at one instant and refuses every further call
    at that instant; without [requests_per_second] and [request_rate], or
    with [n <= 0], the decoration raises [ValueError]. *)
Theorem burst_of_requests_per_second (request_rate : option RequestRate)
    (n : Z) (sleep t : Q) (k : nat) :
  (forall th, new_throttler request_rate (Some n) sleep = Ok th ->
     fst (get_tickets (repeat t (Z.to_nat n + k)) th)
     = repeat true (Z.to_nat n) ++ repeat false k) /\
  ((0 < n)%Z -> exists th, new_throttler request_rate (Some n) sleep = Ok th) /\
  ((n <= 0)%Z -> exists message,
     new_throttler request_rate (Some n) sleep = Raise (ValueError message)) /\
  (exists message, new_throttler None None sleep = Raise (ValueError message)).
Proof.
  split; [|split; [|split]].
  - intros th Hnew. unfold new_throttler in Hnew.
    destruct (RequestRate_init n 1) as [rate| |] eqn:Hinit; try discriminate.
    injection Hnew as <-.
    apply RequestRate_init_Ok in Hinit. destruct Hinit as [Hn [_ ->]].
    destruct (get_tickets_app (repeat t (Z.to_nat n)) (repeat t k)
                (Throttler_init (mkRequestRate n 1) sleep)) as [Hfst _].
    rewrite repeat_app, Hfst.
    destruct (burst_granted t (Z.to_nat n) 0
                (Throttler_init (mkRequestRate n 1) sleep)) as (H1 & H2 & H3).
    + simpl. lia.
    + reflexivity.
    + simpl. lia.
    + rewrite H1. f_equal. apply burst_refused.
      * rewrite H2. simpl. lia.
      * rewrite H2, H3. reflexivity.
      * rewrite H2. simpl. lia.
  - intros Hn. unfold new_throttler.
    rewrite RequestRate_init_accepts by lia. eauto.
  - intros Hn. unfold new_throttler.
    destruct (RequestRate_init_rejects n 1) as [message ->]; [lia|]. eauto.
  - unfold new_throttler. eauto.
Qed.

Lemma burst_of_requests_per_second_witness :
  fst (get_tickets (repeat (7 # 2) (Z.to_nat 8 + 3))
         (Throttler_init (mkRequestRate 8 1) (1 # 10)))
  = repeat true (Z.to_nat 8) ++ repeat false 3.
Proof.
  exact (proj1 (burst_of_requests_per_second None 8 (1 # 10) (7 # 2) 3)
           (Throttler_init (mkRequestRate 8 1) (1 # 10)) eq_refl).
Defined.

(** ** Deferred entry points: the ticket at the call, the request at the use *)

Lemma entry_calls (e : entry_point) (i : string) (kwargs : Kwargs)
    (identity : option string) (identity_callable : option callable)
    (w w1 : World) :
  waits e (with_user_agent i kwargs
             (snd (resolve_identity identity identity_callable w))) w1 ->
  total_calls (throttlers w1 e) = total_calls (throttlers w e).
Proof.
  intros Hwaits.
  destruct (resolve_identity_quiet identity identity_callable w) as [r [_ Hq1]].
  pose proof (with_user_agent_quiet i kwargs
                (snd (resolve_identity identity identity_callable w))) as Hq2.
  pose proof (q_throttlers _ _ (quiet_trans _ _ _ Hq1 Hq2)) as Hth.
  rewrite (ts_calls _ _ _ (waits_ticket_step _ _ _ Hwaits)). now rewrite Hth.
Qed.

Lemma deferred_call_counted (e : entry_point) (fuel : nat) (url : string)
    (identity : option string) (identity_callable : option callable)
    (kwargs : Kwargs) (w : World) (i : string) :
  (11 <= fuel)%nat ->
  fst (resolve_identity identity identity_callable w) = Ok (Some i) ->
  ready e w ->
  ticket_only e
    (mkFrame url (Some i) identity_callable
       (set_kw_headers kwargs (headers_ref kwargs w)))
    w (decorate e fuel suspended url identity identity_callable kwargs w).
Proof.
  intros Hfuel Hres Hready.
  destruct (attempt_runs e fuel suspended url identity identity_callable
              kwargs w i Hres Hready Hfuel) as [w1 [Hwaits Heq]].
  pose proof (body_entry_intro e i kwargs identity identity_callable w w1
                Hready Hwaits) as Hentry.
  pose proof (entry_calls e i kwargs identity identity_callable w w1 Hwaits)
    as Hcalls.
  assert (Hrun : decorate e fuel suspended url identity identity_callable kwargs w =
                 (Ok (mkFrame url (Some i) identity_callable
                        (set_kw_headers kwargs (headers_ref kwargs w))),
                  snd (Throttler_update_metrics e w1))).
  { rewrite decorate_attempt, with_retry_passes; unfold attempt; rewrite Heq.
    - reflexivity.
    - intros x Hx. discriminate Hx. }
  unfold ticket_only. rewrite Hrun. cbn [fst snd].
  pose proof (update_metrics_step e w1) as Hstep.
  split; [reflexivity|].
  split; [now rewrite (ms_sent _ _ _ Hstep), (be_sent _ _ _ _ _ Hentry)|].
  split; [now rewrite (ms_tickets _ _ _ Hstep), (be_tickets _ _ _ _ _ Hentry)|].
  now rewrite (ms_calls _ _ _ Hstep), Hcalls.
Qed.

(** X5.  A call of [get_with_retry_async], [post_with_retry_async] or
    [stream_with_retry] returns the coroutine or generator with the identity
    resolved and the headers set; the ticket is taken and the call counted
    then, and nothing is sent.  The request goes out when the object is
    awaited or iterated, whenever that is, and no ticket is taken and the
    throttlers are not touched then: a response that is neither 429 nor a
    redirect comes back after the time the transport takes. *)
Theorem deferred_entry_points_throttle_the_call (fuel : nat) (url : string)
    (identity : option string) (identity_callable : option callable)
    (kwargs : Kwargs) (w : World) (i : string) :
  (11 <= fuel)%nat ->
  fst (resolve_identity identity identity_callable w) = Ok (Some i) ->
  (forall e, ready e w) ->
  let frame := mkFrame url (Some i) identity_callable
                 (set_kw_headers kwargs (headers_ref kwargs w)) in
  ticket_only EP_get_with_retry_async frame w
    (get_with_retry_async fuel url identity identity_callable kwargs w) /\
  ticket_only EP_post_with_retry_async frame w
    (post_with_retry_async fuel url identity identity_callable kwargs w) /\
  ticket_only EP_stream_with_retry frame w
    (stream_with_retry fuel url identity identity_callable kwargs w) /\
  forall (c : Frame) (w1 : World) (response : Response),
    (forall req, outcome (network w1 (requests_sent w1) req) = inl response) ->
    status_code response <> 429%Z ->
    status_code response <> 301%Z ->
    status_code response <> 302%Z ->
    request_only GET false c w1 (Ok response) (await_get fuel c w1) /\
    request_only POST false c w1 (Ok response) (await_post fuel c w1) /\
    request_only GET true c w1 (Ok [IResponse response]) (stream_items fuel c w1).
Proof.
  intros Hfuel Hres Hready frame. subst frame.
  split; [now apply deferred_call_counted|].
  split; [now apply deferred_call_counted|].
  split; [now apply deferred_call_counted|].
  intros c w1 response Hnet H429 H301 H302.
  assert (E429 : (status_code response =? 429)%Z = false) by now apply Z.eqb_neq.
  assert (Ered : is_redirect response = false) by now apply is_redirect_false.
  destruct fuel as [|n]; [lia|].
  assert (Hstep : forall m streaming,
            request_step EP_get_with_retry
              (request_made m streaming (f_url c) (f_kwargs c) w1) w1
              (after_request m streaming (f_url c) (f_kwargs c) w1)).
  { intros m streaming. apply after_request_step. }
  assert (Hone : forall A m streaming (a : A),
            request_only m streaming c w1 (Ok a)
              (Ok a, after_request m streaming (f_url c) (f_kwargs c) w1)).
  { intros A m streaming a. unfold request_only. cbn [fst snd].
    destruct (Hstep m streaming) as [_ _ _ _ Hth Hreq Hsent Htick _ _ Hel].
    split; [reflexivity|]. split; [exact Hreq|]. split; [exact Htick|].
    split; [exact Hth|exact Hel]. }
  split; [|split].
  - rewrite await_get_S, request_body_eq, Hnet, E429, Ered. apply Hone.
  - rewrite await_post_S, request_body_eq, Hnet, E429, Ered. apply Hone.
  - rewrite stream_items_eq, Hnet, E429, Ered. apply Hone.
Qed.

Lemma deferred_entry_points_throttle_the_call_witness :
  let w := imported ∅ (scripted [answer 200 []]) in
  ticket_only EP_stream_with_retry
    (mkFrame "https://www.sec.gov/a" (Some "Jane Doe jane@example.com"%string) None
       (set_kw_headers no_kwargs 0%nat))
    w
    (stream_with_retry 12 "https://www.sec.gov/a"
       (Some "Jane Doe jane@example.com"%string) None no_kwargs w).
Proof.
  intros w.
  refine (proj1 (proj2 (proj2
            (deferred_entry_points_throttle_the_call 12 "https://www.sec.gov/a"
               (Some "Jane Doe jane@example.com"%string) None no_kwargs w
               "Jane Doe jane@example.com" _ _ _)))).
  - lia.
  - reflexivity.
  - intros e. apply imported_ready.
Defined.

Lemma request_only_after {A} (m : http_method) (streaming : bool) (c : Frame)
    (w : World) (result : Result A) :
  request_only m streaming c w result
    (result, after_request m streaming (f_url c) (f_kwargs c) w).
Proof.
  unfold request_only. cbn [fst snd].
  destruct (after_request_step EP_get_with_retry m streaming (f_url c) (f_kwargs c) w)
    as [_ _ _ _ Hth Hreq Hsent Htick _ _ Hel].
  split; [reflexivity|]. split; [exact Hreq|]. split; [exact Htick|].
  split; [exact Hth|exact Hel].
Qed.

(** X6.  An [httpx.RequestError] raised while a coroutine of
    [get_with_retry_async] or [post_with_retry_async] is awaited, or a
    generator of [stream_with_retry] is iterated, reaches the caller after
    that one transport call: the retry layer wraps the call that builds the
    object, not the body that sends the request. *)
Theorem deferred_requests_are_not_retried (fuel : nat) (url : string)
    (identity : option string) (identity_callable : option callable)
    (kwargs : Kwargs) (w : World) (i : string) (message : string) :
  (11 <= fuel)%nat ->
  fst (resolve_identity identity identity_callable w) = Ok (Some i) ->
  (forall e, ready e w) ->
  (forall req, outcome (network w (requests_sent w) req) = inr message) ->
  (exists c w1,
     get_with_retry_async fuel url identity identity_callable kwargs w = (Ok c, w1) /\
     requests_sent w1 = requests_sent w /\
     request_only GET false c w1 (Raise (RequestError message)) (await_get fuel c w1)) /\
  (exists c w1,
     post_with_retry_async fuel url identity identity_callable kwargs w = (Ok c, w1) /\
     requests_sent w1 = requests_sent w /\
     request_only POST false c w1 (Raise (RequestError message)) (await_post fuel c w1)) /\
  (exists g w1,
     stream_with_retry fuel url identity identity_callable kwargs w = (Ok g, w1) /\
     requests_sent w1 = requests_sent w /\
     request_only GET true g w1 (Raise (RequestError message)) (stream_items fuel g w1)).
Proof.
  intros Hfuel Hres Hready Hnet.
  destruct fuel as [|n]; [lia|].
  split; [|split].
  - destruct (deferred_call EP_get_with_retry_async (S n) url identity
                identity_callable kwargs w i Hfuel Hres (Hready _))
      as [w1 [Hentry Heq]].
    eexists. exists w1. split; [exact Heq|].
    split; [exact (be_sent _ _ _ _ _ Hentry)|].
    rewrite await_get_S, request_body_eq.
    rewrite (be_network _ _ _ _ _ Hentry), (be_sent _ _ _ _ _ Hentry), Hnet.
    apply request_only_after.
  - destruct (deferred_call EP_post_with_retry_async (S n) url identity
                identity_callable kwargs w i Hfuel Hres (Hready _))
      as [w1 [Hentry Heq]].
    eexists. exists w1. split; [exact Heq|].
    split; [exact (be_sent _ _ _ _ _ Hentry)|].
    rewrite await_post_S, request_body_eq.
    rewrite (be_network _ _ _ _ _ Hentry), (be_sent _ _ _ _ _ Hentry), Hnet.
    apply request_only_after.
  - destruct (deferred_call EP_stream_with_retry (S n) url identity
                identity_callable kwargs w i Hfuel Hres (Hready _))
      as [w1 [Hentry Heq]].
    eexists. exists w1. split; [exact Heq|].
    split; [exact (be_sent _ _ _ _ _ Hentry)|].
    rewrite stream_items_eq.
    rewrite (be_network _ _ _ _ _ Hentry), (be_sent _ _ _ _ _ Hentry), Hnet.
    apply request_only_after.
Qed.

Lemma deferred_requests_are_not_retried_witness :
  let w := imported ∅ (scripted [failure "timed out"; answer 200 []]) in
  exists c w1,
    get_with_retry_async 12 "https://www.sec.gov/a"
      (Some "Jane Doe jane@example.com"%string) None no_kwargs w = (Ok c, w1) /\
    requests_sent w1 = requests_sent w /\
    request_only GET false c w1 (Raise (RequestError "timed out"))
      (await_get 12 c w1).
Proof.
  intros w.
  refine (proj1 (deferred_requests_are_not_retried 12 "https://www.sec.gov/a"
                   (Some "Jane Doe jane@example.com"%string) None no_kwargs w
                   "Jane Doe jane@example.com" "timed out" _ _ _ _)).
  - lia.
  - reflexivity.
  - intros e. apply imported_ready.
  - intros req. reflexivity.
Defined.

(** ** Chains of redirects *)

Lemma request_entry_point_follows_chain (e : entry_point) (m : http_method)
    (f : nat -> pipeline Response) (i : string)
    (identity_callable : option callable) (final : Response) :
  (forall n, f (S n) = decorate e (S n) (request_body m (f n))) ->
  status_code final <> 429%Z ->
  status_code final <> 301%Z ->
  status_code final <> 302%Z ->
  forall (chain : list (Response * string)) (fuel : nat) (url : string)
         (identity : option string) (kwargs : Kwargs) (w : World),
    (11 + length chain <= fuel)%nat ->
    fst (resolve_identity identity identity_callable w) = Ok (Some i) ->
    ready e w ->
    answers_chain (network w) (requests_sent w) chain final ->
    chain_followed m url (set_kw_headers kwargs (headers_ref kwargs w)) chain
      final w (f fuel url identity identity_callable kwargs w).
Proof.
  intros Hf H429 H301 H302.
  induction chain as [|[redirect location] rest IH];
    intros fuel url identity kwargs w Hfuel Hres Hready Hnet;
    (destruct fuel as [|n]; [simpl in Hfuel; lia|]); rewrite Hf.
  - simpl in Hnet.
    destruct (decorate_plain_response e (S n) m (f n) url identity
                identity_callable kwargs w i final) as (H1 & H2 & H3 & r & H4 & H5 & H6 & H7);
      try assumption; try (simpl in Hfuel; lia); [now intros req _|].
    split; [exact H1|]. split; [rewrite H2; simpl; lia|].
    split; [rewrite H3; simpl; lia|].
    exists [r]. split; [exact H4|]. split; [simpl; now rewrite H5|].
    repeat constructor; assumption.
  - destruct Hnet as (Hnet1 & Hstatus & Hloc & Hnet2).
    destruct (attempt_redirect e (S n) m (f n) url identity identity_callable
                kwargs w i redirect location) as [w2 [Hhop Heq]];
      try assumption; try (simpl in Hfuel; lia); [now intros req _|].
    destruct Hhop as [Hnet Hrw Henv Hsent Htick Hready2
                      [r1 (Hreq & Hu1 & Hm1 & _ & Hk1)]].
    set (kwargs' := set_kw_headers kwargs (headers_ref kwargs w)) in *.
    assert (Hnet2' : answers_chain (network w2) (requests_sent w2) rest final).
    { now rewrite Hnet, Hsent. }
    assert (Hfuel' : (11 + length rest <= n)%nat) by (simpl in Hfuel; lia).
    pose proof (IH n location (Some i) kwargs' w2 Hfuel' eq_refl Hready2 Hnet2')
      as (Hr & Hs & Ht & rs & Hreqs & Hurls & Hall).
    change (set_kw_headers kwargs' (headers_ref kwargs' w2)) with kwargs' in Hall.
    destruct (f n location (Some i) identity_callable kwargs' w2)
      as [res w3] eqn:Ehop.
    cbn [fst snd] in Hr, Hs, Ht, Hreqs. subst res.
    unfold chain_followed.
    rewrite decorate_attempt, with_retry_passes; rewrite Heq;
      unfold throttle_epilogue, Throttler_update_metrics; cbn [fst snd].
    + split; [reflexivity|].
      rewrite requests_sent_set_throttler, tickets_taken_set_throttler.
      rewrite Hs, Ht, Hsent, Htick.
      split; [simpl; lia|]. split; [simpl; lia|].
      exists (r1 :: rs).
      change (requests_of (set_throttler e (update_metrics (throttlers w3 e)) w3))
        with (requests_of w3).
      rewrite Hreqs, Hreq, <- app_assoc.
      split; [reflexivity|]. split; [simpl; now rewrite Hu1, Hurls|].
      constructor; [now split|exact Hall].
    + intros x Hx. discriminate Hx.
Qed.

(** X7.  [get_with_retry] and [post_with_retry] follow a chain of redirects
    of any length: when the transport answers with 301 or 302 responses
    that carry a [Location], one after the other, and then with a response
    that is neither 429 nor a redirect, the call returns that response;
    every hop took a ticket of the same throttler and sent one request, to
    the locations in turn, with the identity resolved at the first hop and
    the same keywords. *)
Theorem redirect_chain_is_followed (fuel : nat) (url : string)
    (identity : option string) (identity_callable : option callable)
    (kwargs : Kwargs) (w : World) (i : string)
    (chain : list (Response * string)) (final : Response) :
  (11 + length chain <= fuel)%nat ->
  fst (resolve_identity identity identity_callable w) = Ok (Some i) ->
  ready EP_get_with_retry w ->
  ready EP_post_with_retry w ->
  answers_chain (network w) (requests_sent w) chain final ->
  status_code final <> 429%Z ->
  status_code final <> 301%Z ->
  status_code final <> 302%Z ->
  chain_followed GET url (set_kw_headers kwargs (headers_ref kwargs w)) chain
    final w (get_with_retry fuel url identity identity_callable kwargs w) /\
  chain_followed POST url (set_kw_headers kwargs (headers_ref kwargs w)) chain
    final w (post_with_retry fuel url identity identity_callable kwargs w).
Proof.
  intros Hfuel Hres Hget Hpost Hnet H429 H301 H302. split.
  - apply (request_entry_point_follows_chain EP_get_with_retry GET get_with_retry
             i identity_callable final); try assumption.
    intros n. apply get_with_retry_S.
  - apply (request_entry_point_follows_chain EP_post_with_retry POST post_with_retry
             i identity_callable final); try assumption.
    intros n. apply post_with_retry_S.
Qed.

Lemma redirect_chain_is_followed_witness :
  let hop location := answer 301 [("Location"%string, location)] in
  let w := imported ∅ (scripted [hop "https://www.sec.gov/b"%string;
                                 hop "https://www.sec.gov/c"%string;
                                 hop "https://www.sec.gov/d"%string;
                                 answer 200 []]) in
  let rw := get_with_retry 14 "https://www.sec.gov/a"
              (Some "Jane Doe jane@example.com"%string) None no_kwargs w in
  fst rw = Ok (mkResponse 200 [] "") /\ tickets_taken (snd rw) = 4%nat.
Proof.
  intros hop w rw.
  destruct (redirect_chain_is_followed 14 "https://www.sec.gov/a"
              (Some "Jane Doe jane@example.com"%string) None no_kwargs w
              "Jane Doe jane@example.com"
              [(mkResponse 301 [("Location"%string, "https://www.sec.gov/b"%string)] "",
                "https://www.sec.gov/b"%string);
               (mkResponse 301 [("Location"%string, "https://www.sec.gov/c"%string)] "",
                "https://www.sec.gov/c"%string);
               (mkResponse 301 [("Location"%string, "https://www.sec.gov/d"%string)] "",
                "https://www.sec.gov/d"%string)]
              (mkResponse 200 [] ""))
    as [(H1 & _ & H3 & _) _].
  - simpl. lia.
  - reflexivity.
  - apply imported_ready.
  - apply imported_ready.
  - repeat split; try (left; reflexivity); try (vm_compute; reflexivity).
  - discriminate.
  - discriminate.
  - discriminate.
  - split; [exact H1|exact H3].
Defined.

(** ** A redirect without a Location *)

Lemma decorate_redirect_without_location (e : entry_point) (fuel : nat)
    (m : http_method) (self : pipeline Response) (url : string)
    (identity : option string) (identity_callable : option callable)
    (kwargs : Kwargs) (w : World) (i : string) (response : Response) :
  (11 <= fuel)%nat ->
  fst (resolve_identity identity identity_callable w) = Ok (Some i) ->
  ready e w ->
  (forall req, outcome (network w (requests_sent w) req) = inl response) ->
  status_code response = 301%Z \/ status_code response = 302%Z ->
  Headers_getitem (headers response) "Location"%string = None ->
  let rw := decorate e fuel (request_body m self) url identity
                     identity_callable kwargs w in
  fst rw = Raise (KeyError "Location") /\
  requests_sent (snd rw) = S (requests_sent w) /\
  tickets_taken (snd rw) = S (tickets_taken w).
Proof.
  intros Hfuel Hres Hready Hnet Hstatus Hloc rw. subst rw.
  destruct (attempt_request e fuel m self url identity identity_callable
              kwargs w i Hres Hready Hfuel) as [w1 [Hentry Heq]].
  cbv zeta in Heq. rewrite Hnet in Heq.
  assert (E429 : (status_code response =? 429)%Z = false).
  { apply Z.eqb_neq. lia. }
  assert (Ered : is_redirect response = true) by now apply is_redirect_true.
  rewrite E429, Ered, Hloc in Heq.
  pose proof (after_request_step e m false url
                (set_kw_headers kwargs (headers_ref kwargs w)) w1) as Hstep.
  rewrite decorate_attempt, with_retry_passes; rewrite Heq; cbn [fst snd].
  - split; [reflexivity|].
    rewrite (rs_sent _ _ _ _ Hstep), (rs_tickets _ _ _ _ Hstep).
    rewrite (be_sent _ _ _ _ _ Hentry), (be_tickets _ _ _ _ _ Hentry).
    split; reflexivity.
  - intros x Hx. injection Hx as <-. reflexivity.
Qed.

(** No field of the name, in whatever case: the lookup raises. *)
Lemma Headers_getitem_None (h : Headers) (key : string) :
  Headers_getitem h key = None <->
  Forall (fun field => lower (fst field) <> lower key) h.
Proof.
  unfold Headers_getitem. induction h as [|field h IH]; cbn [List.filter].
  - split; [constructor|reflexivity].
  - destruct (String.eqb (lower (fst field)) (lower key)) eqn:E.
    + split; [discriminate|]. intros H. inversion H as [|? ? Hne _]; subst.
      apply String.eqb_eq in E. contradiction.
    + apply String.eqb_neq in E. rewrite IH. split.
      * intros H. now constructor.
      * intros H. now inversion H.
Qed.

(** X8.  A 301 or 302 response without a [Location] header, in whatever
    case the name is written, makes [get_with_retry] and [post_with_retry]
    raise [KeyError] (from [response.headers["Location"]]) after that one
    transport call; the error is not retried, and the ticket is spent. *)
Theorem redirect_without_location_raises (fuel : nat) (url : string)
    (identity : option string) (identity_callable : option callable)
    (kwargs : Kwargs) (w : World) (i : string) (response : Response) :
  (11 <= fuel)%nat ->
  fst (resolve_identity identity identity_callable w) = Ok (Some i) ->
  ready EP_get_with_retry w ->
  ready EP_post_with_retry w ->
  (forall req, outcome (network w (requests_sent w) req) = inl response) ->
  status_code response = 301%Z \/ status_code response = 302%Z ->
  Forall (fun field => lower (fst field) <> "location"%string) (headers response) ->
  let g := get_with_retry fuel url identity identity_callable kwargs w in
  let p := post_with_retry fuel url identity identity_callable kwargs w in
  (fst g = Raise (KeyError "Location") /\
   requests_sent (snd g) = S (requests_sent w) /\
   tickets_taken (snd g) = S (tickets_taken w)) /\
  (fst p = Raise (KeyError "Location") /\
   requests_sent (snd p) = S (requests_sent w) /\
   tickets_taken (snd p) = S (tickets_taken w)).
Proof.
  intros Hfuel Hres Hget Hpost Hnet Hstatus Hnone g p. subst g p.
  assert (Hloc : Headers_getitem (headers response) "Location"%string = None).
  { apply Headers_getitem_None. exact Hnone. }
  destruct fuel as [|n]; [lia|]. split.
  - exact (decorate_redirect_without_location EP_get_with_retry (S n) GET
             (get_with_retry n) url identity identity_callable kwargs w i
             response Hfuel Hres Hget Hnet Hstatus Hloc).
  - exact (decorate_redirect_without_location EP_post_with_retry (S n) POST
             (post_with_retry n) url identity identity_callable kwargs w i
             response Hfuel Hres Hpost Hnet Hstatus Hloc).
Qed.

Lemma redirect_without_location_raises_witness :
  let w := imported ∅ (scripted [answer 302 [("Content-Type", "text/html")]%string;
                                 answer 200 []]) in
  let g := get_with_retry 12 "https://www.sec.gov/a"
             (Some "Jane Doe jane@example.com"%string) None no_kwargs w in
  fst g = Raise (KeyError "Location") /\ requests_sent (snd g) = 1%nat.
Proof.
  intros w g.
  destruct (redirect_without_location_raises 12 "https://www.sec.gov/a"
              (Some "Jane Doe jane@example.com"%string) None no_kwargs w
              "Jane Doe jane@example.com"
              (mkResponse 302 [("Content-Type", "text/html")]%string ""))
    as [(H1 & H2 & _) _].
  - lia.
  - reflexivity.
  - apply imported_ready.
  - apply imported_ready.
  - intros req. reflexivity.
  - right. reflexivity.
  - repeat constructor. discriminate.
  - split; [exact H1|exact H2].
Defined.

(** ** Calls counted, headers made *)

Lemma attempt_request_counted (e : entry_point) (fuel : nat) (m : http_method)
    (self : pipeline Response) (url : string) (identity : option string)
    (identity_callable : option callable) (kwargs : Kwargs) (w : World)
    (i : string) :
  fst (resolve_identity identity identity_callable w) = Ok (Some i) ->
  ready e w -> (11 <= fuel)%nat ->
  exists w1,
    body_entry e i kwargs w w1 /\
    total_calls (throttlers w1 e) = total_calls (throttlers w e) /\
    let kwargs' := set_kw_headers kwargs (headers_ref kwargs w) in
    let w2 := after_request m false url kwargs' w1 in
    attempt e fuel (request_body m self) url identity identity_callable kwargs w =
    match outcome (network w (requests_sent w)
                     (request_made m false url kwargs' w1)) with
    | inl response =>
        if (status_code response =? 429)%Z then
          (Raise (TooManyRequestsError url "Too Many Requests"), w2)
        else if is_redirect response then
          match Headers_getitem (headers response) "Location"%string with
          | Some location =>
              throttle_epilogue e
                (self location (Some i) identity_callable kwargs' w2)
          | None => (Raise (KeyError "Location"), w2)
          end
        else throttle_epilogue e (Ok response, w2)
    | inr message => (Raise (RequestError message), w2)
    end.
Proof.
  intros Hres Hready Hfuel.
  destruct (attempt_runs e fuel (request_body m self) url identity
              identity_callable kwargs w i Hres Hready Hfuel) as [w1 [Hwaits Heq]].
  pose proof (body_entry_intro e i kwargs identity identity_callable w w1
                Hready Hwaits) as Hentry.
  exists w1. split; [exact Hentry|].
  split; [exact (entry_calls e i kwargs identity identity_callable w w1 Hwaits)|].
  intros kwargs' w2.
  unfold attempt. rewrite Heq. fold kwargs'. rewrite request_body_eq.
  rewrite (be_network _ _ _ _ _ Hentry), (be_sent _ _ _ _ _ Hentry). fold w2.
  destruct (outcome _) as [response|message]; [|reflexivity].
  destruct (status_code response =? 429)%Z; [reflexivity|].
  destruct (is_redirect response); [|reflexivity].
  destruct (Headers_getitem (headers response) "Location"%string); [|reflexivity].
  unfold throttle_epilogue.
  destruct (self _ _ _ _ _) as [[result|x|] w3]; reflexivity.
Qed.

Lemma decorate_counts (e : entry_point) (fuel : nat) (m : http_method)
    (self : pipeline Response) (url : string) (identity : option string)
    (identity_callable : option callable) (kwargs : Kwargs) (w : World)
    (i : string) (response : Response) :
  (11 <= fuel)%nat ->
  fst (resolve_identity identity identity_callable w) = Ok (Some i) ->
  ready e w ->
  (forall req, outcome (network w (requests_sent w) req) = inl response) ->
  status_code response <> 301%Z ->
  status_code response <> 302%Z ->
  counted e w (status_code response =? 429)%Z
    (decorate e fuel (request_body m self) url identity identity_callable kwargs w).
Proof.
  intros Hfuel Hres Hready Hnet H301 H302.
  destruct (attempt_request_counted e fuel m self url identity identity_callable
              kwargs w i Hres Hready Hfuel) as [w1 (Hentry & Hcalls & Heq)].
  cbv zeta in Heq. rewrite Hnet in Heq.
  assert (Ered : is_redirect response = false) by now apply is_redirect_false.
  pose proof (after_request_step e m false url
                (set_kw_headers kwargs (headers_ref kwargs w)) w1) as Hstep.
  set (w2 := after_request m false url
               (set_kw_headers kwargs (headers_ref kwargs w)) w1) in *.
  unfold counted.
  destruct (status_code response =? 429)%Z eqn:E429.
  - rewrite decorate_attempt, with_retry_passes; rewrite Heq; cbn [fst snd].
    + rewrite (rs_tickets _ _ _ _ Hstep), (be_tickets _ _ _ _ _ Hentry).
      split; [reflexivity|].
      now rewrite (rs_throttlers _ _ _ _ Hstep), Hcalls.
    + intros x Hx. injection Hx as <-. reflexivity.
  - rewrite Ered in Heq.
    rewrite decorate_attempt, with_retry_passes; rewrite Heq;
      unfold throttle_epilogue, Throttler_update_metrics; cbn [fst snd].
    + rewrite tickets_taken_set_throttler.
      rewrite (rs_tickets _ _ _ _ Hstep), (be_tickets _ _ _ _ _ Hentry).
      split; [reflexivity|].
      rewrite throttlers_set_same. cbn [update_metrics total_calls].
      now rewrite (rs_throttlers _ _ _ _ Hstep), Hcalls.
    + intros x Hx. discriminate Hx.
Qed.

(** X9.  [total_calls] counts the calls that returned, not the tickets: a
    call of [get_with_retry] or [post_with_retry] whose response is neither
    429 nor a redirect adds one to [total_calls] of the throttler of that
    entry point; a call answered 429 takes a ticket as well and leaves
    [total_calls] as it was, since [update_metrics] runs only after the
    decorated function has returned. *)
Theorem total_calls_counts_returned_calls (fuel : nat) (url : string)
    (identity : option string) (identity_callable : option callable)
    (kwargs : Kwargs) (w : World) (i : string) (response : Response) :
  (11 <= fuel)%nat ->
  fst (resolve_identity identity identity_callable w) = Ok (Some i) ->
  ready EP_get_with_retry w ->
  ready EP_post_with_retry w ->
  (forall req, outcome (network w (requests_sent w) req) = inl response) ->
  status_code response <> 301%Z ->
  status_code response <> 302%Z ->
  counted EP_get_with_retry w (status_code response =? 429)%Z
    (get_with_retry fuel url identity identity_callable kwargs w) /\
  counted EP_post_with_retry w (status_code response =? 429)%Z
    (post_with_retry fuel url identity identity_callable kwargs w).
Proof.
  intros Hfuel Hres Hget Hpost Hnet H301 H302.
  destruct fuel as [|n]; [lia|]. split.
  - exact (decorate_counts EP_get_with_retry (S n) GET (get_with_retry n) url
             identity identity_callable kwargs w i response
             Hfuel Hres Hget Hnet H301 H302).
  - exact (decorate_counts EP_post_with_retry (S n) POST (post_with_retry n) url
             identity identity_callable kwargs w i response
             Hfuel Hres Hpost Hnet H301 H302).
Qed.

Lemma total_calls_counts_returned_calls_witness :
  let w := imported ∅ (scripted [answer 429 []]) in
  counted EP_get_with_retry w true
    (get_with_retry 12 "https://www.sec.gov/a"
       (Some "Jane Doe jane@example.com"%string) None no_kwargs w).
Proof.
  intros w.
  refine (proj1 (total_calls_counts_returned_calls 12 "https://www.sec.gov/a"
                   (Some "Jane Doe jane@example.com"%string) None no_kwargs w
                   "Jane Doe jane@example.com" (mkResponse 429 [] "") _ _ _ _ _ _ _)).
  - lia.
  - reflexivity.
  - apply imported_ready.
  - apply imported_ready.
  - intros req. reflexivity.
  - discriminate.
  - discriminate.
Defined.

Lemma alter_new_dict (f : dict -> dict) (h : list dict) :
  alter f (length h) (h ++ [∅]) = h ++ [f ∅].
Proof.
  rewrite <- (Nat.add_0_r (length h)) at 1. now rewrite alter_app_r.
Qed.

Lemma decorate_default_headers (e : entry_point) (fuel : nat) (m : http_method)
    (self : pipeline Response) (url : string) (identity : option string)
    (identity_callable : option callable) (kwargs : Kwargs) (w : World)
    (i : string) (response : Response) :
  (11 <= fuel)%nat ->
  fst (resolve_identity identity identity_callable w) = Ok (Some i) ->
  ready e w ->
  kw_headers kwargs = None ->
  (forall req, outcome (network w (requests_sent w) req) = inl response) ->
  status_code response <> 429%Z ->
  status_code response <> 301%Z ->
  status_code response <> 302%Z ->
  fresh_headers i w
    (decorate e fuel (request_body m self) url identity identity_callable kwargs w).
Proof.
  intros Hfuel Hres Hready Hnone Hnet H429 H301 H302.
  destruct (attempt_request e fuel m self url identity identity_callable
              kwargs w i Hres Hready Hfuel) as [w1 [Hentry Heq]].
  cbv zeta in Heq. rewrite Hnet in Heq.
  assert (E429 : (status_code response =? 429)%Z = false) by now apply Z.eqb_neq.
  assert (Ered : is_redirect response = false) by now apply is_redirect_false.
  rewrite E429, Ered in Heq.
  pose proof (after_request_step e m false url
                (set_kw_headers kwargs (headers_ref kwargs w)) w1) as Hstep.
  set (w2 := after_request m false url
               (set_kw_headers kwargs (headers_ref kwargs w)) w1) in *.
  assert (Hheap : heap w1 = heap w ++ [{[ "User-Agent"%string := i ]}]).
  { rewrite (be_heap _ _ _ _ _ Hentry), heap_with_user_agent.
    unfold headers_ref. rewrite Hnone, alter_new_dict. now rewrite insert_empty. }
  unfold fresh_headers.
  rewrite decorate_attempt, with_retry_passes; rewrite Heq;
    unfold throttle_epilogue, Throttler_update_metrics; cbn [fst snd].
  - change (heap (set_throttler e (update_metrics (throttlers w2 e)) w2))
      with (heap w2).
    change (requests_of (set_throttler e (update_metrics (throttlers w2 e)) w2))
      with (requests_of w2).
    rewrite (rs_heap _ _ _ _ Hstep), (rs_requests _ _ _ _ Hstep),
      (be_requests _ _ _ _ _ Hentry).
    split; [exact Hheap|].
    exists (request_made m false url
              (set_kw_headers kwargs (headers_ref kwargs w)) w1).
    split; [reflexivity|].
    unfold request_made, headers_ref. rewrite Hnone.
    cbn [req_headers req_kwargs kw_headers set_kw_headers mbind option_bind].
    split; [reflexivity|].
    rewrite Hheap. now apply list_lookup_middle.
  - intros x Hx. discriminate Hx.
Qed.

(** X10.  When the caller passes no [headers], [with_identity] makes a new
    dictionary for the call ([kwargs.get("headers", {})]): the request of
    [get_with_retry] and [post_with_retry] carries a dictionary that holds
    the [User-Agent] entry and nothing else, and the dictionaries that
    existed before are as they were. *)
Theorem headers_default_to_the_user_agent (fuel : nat) (url : string)
    (identity : option string) (identity_callable : option callable)
    (kwargs : Kwargs) (w : World) (i : string) (response : Response) :
  (11 <= fuel)%nat ->
  fst (resolve_identity identity identity_callable w) = Ok (Some i) ->
  ready EP_get_with_retry w ->
  ready EP_post_with_retry w ->
  kw_headers kwargs = None ->
  (forall req, outcome (network w (requests_sent w) req) = inl response) ->
  status_code response <> 429%Z ->
  status_code response <> 301%Z ->
  status_code response <> 302%Z ->
  fresh_headers i w (get_with_retry fuel url identity identity_callable kwargs w) /\
  fresh_headers i w (post_with_retry fuel url identity identity_callable kwargs w).
Proof.
  intros Hfuel Hres Hget Hpost Hnone Hnet H429 H301 H302.
  destruct fuel as [|n]; [lia|]. split.
  - exact (decorate_default_headers EP_get_with_retry (S n) GET (get_with_retry n)
             url identity identity_callable kwargs w i response
             Hfuel Hres Hget Hnone Hnet H429 H301 H302).
  - exact (decorate_default_headers EP_post_with_retry (S n) POST (post_with_retry n)
             url identity identity_callable kwargs w i response
             Hfuel Hres Hpost Hnone Hnet H429 H301 H302).
Qed.

Lemma headers_default_to_the_user_agent_witness :
  let w := imported ∅ (scripted [answer 200 []]) in
  fresh_headers "Jane Doe jane@example.com" w
    (get_with_retry 12 "https://www.sec.gov/a"
       (Some "Jane Doe jane@example.com"%string) None no_kwargs w).
Proof.
  intros w.
  refine (proj1 (headers_default_to_the_user_agent 12 "https://www.sec.gov/a"
                   (Some "Jane Doe jane@example.com"%string) None no_kwargs w
                   "Jane Doe jane@example.com" (mkResponse 200 [] "")
                   _ _ _ _ _ _ _ _ _)).
  - lia.
  - reflexivity.
  - apply imported_ready.
  - apply imported_ready.
  - reflexivity.
  - intros req. reflexivity.
  - discriminate.
  - discriminate.
  - discriminate.
Defined.

(** ** The text between two tags *)

(** One turn of the loop over the lines of a response. *)
Lemma scan_lines_cons (tag_start tag_end line : str) (rest : list str)
    (st : bool * str) :
  scan_lines tag_start tag_end (line :: rest) st =
  if opens tag_start line then scan_lines tag_start tag_end rest (true, snd st)
  else if closes tag_start tag_end line then st
  else if fst st && kept tag_start tag_end line then
    scan_lines tag_start tag_end rest
      (true, snd st ++ line ++ literal (String "010" ""))
  else scan_lines tag_start tag_end rest st.
Proof.
  unfold opens, closes, kept. cbn [scan_lines].
  destruct (decide (line = [])) as [Hline|Hline].
  - rewrite bool_decide_eq_true_2 by exact Hline. cbn [negb andb].
    now rewrite andb_false_r.
  - rewrite bool_decide_eq_false_2 by exact Hline. cbn [negb andb].
    destruct (startswith line tag_start); cbn [negb andb]; [reflexivity|].
    destruct (startswith line tag_end); cbn [negb andb]; [reflexivity|].
    rewrite andb_true_r. now destruct (fst st).
Qed.

Lemma opens_not_kept (tag_start tag_end line : str) :
  opens tag_start line = true -> kept tag_start tag_end line = false.
Proof.
  unfold opens, kept. intros H. apply andb_true_iff in H. destruct H as [_ ->].
  cbn [negb]. now rewrite andb_false_r.
Qed.

Lemma scan_lines_before (tag_start tag_end : str) (pre rest : list str)
    (content : str) :
  Forall (fun line => opens tag_start line = false /\
                      closes tag_start tag_end line = false) pre ->
  scan_lines tag_start tag_end (pre ++ rest) (false, content)
  = scan_lines tag_start tag_end rest (false, content).
Proof.
  induction 1 as [|line pre [Ho Hc] _ IH]; [reflexivity|].
  change ((line :: pre) ++ rest) with (line :: (pre ++ rest)).
  rewrite scan_lines_cons, Ho, Hc. exact IH.
Qed.

Lemma scan_lines_capture (tag_start tag_end : str) (body rest : list str) :
  Forall (fun line => closes tag_start tag_end line = false) body ->
  forall content,
    scan_lines tag_start tag_end (body ++ rest) (true, content)
    = scan_lines tag_start tag_end rest
        (true, content ++ joined (List.filter (kept tag_start tag_end) body)).
Proof.
  induction 1 as [|line body Hc _ IH]; intros content.
  - cbn [List.filter joined app]. now rewrite app_nil_r.
  - change ((line :: body) ++ rest) with (line :: (body ++ rest)).
    rewrite scan_lines_cons, Hc. cbn [fst snd andb List.filter].
    destruct (opens tag_start line) eqn:Ho.
    + rewrite (opens_not_kept _ tag_end _ Ho). apply IH.
    + destruct (kept tag_start tag_end line); [|apply IH].
      rewrite IH. cbn [joined]. now rewrite <- !app_assoc.
Qed.

Lemma scan_lines_tags (tag_start tag_end opening closing : str)
    (pre body post : list str) (content : str) :
  Forall (fun line => opens tag_start line = false /\
                      closes tag_start tag_end line = false) pre ->
  opens tag_start opening = true ->
  Forall (fun line => closes tag_start tag_end line = false) body ->
  closes tag_start tag_end closing = true ->
  scan_lines tag_start tag_end (pre ++ opening :: body ++ closing :: post)
    (false, content)
  = (true, content ++ joined (List.filter (kept tag_start tag_end) body)).
Proof.
  intros Hpre Hopen Hbody Hclose.
  rewrite scan_lines_before by exact Hpre.
  rewrite scan_lines_cons, Hopen. cbn [snd].
  rewrite scan_lines_capture by exact Hbody.
  rewrite scan_lines_cons, Hclose.
  unfold closes in Hclose. unfold opens.
  destruct (negb (bool_decide (closing = []))); [|discriminate].
  destruct (startswith closing tag_start); [discriminate|reflexivity].
Qed.

(** What [download_text_between_tags] returns when the stream yields the
    response itself. *)
Lemma download_text_between_tags_scans (lib : Imports) (fuel : nat)
    (url : string) (tag : str) (w : World) (i : string) (response : Response) :
  (11 <= fuel)%nat ->
  environ w !! "EDGAR_IDENTITY"%string = Some i ->
  ready EP_stream_with_retry w ->
  (forall req, outcome (network w (requests_sent w) req) = inl response) ->
  status_code response <> 429%Z ->
  status_code response <> 301%Z ->
  status_code response <> 302%Z ->
  let rw := download_text_between_tags lib fuel url tag w in
  fst rw = Ok (snd (scan_lines (literal "<" ++ tag ++ literal ">")
                      (literal "</" ++ tag ++ literal ">")
                      (iter_lines lib response) (false, []))) /\
  requests_sent (snd rw) = S (requests_sent w) /\
  tickets_taken (snd rw) = S (tickets_taken w).
Proof.
  intros Hfuel Henv Hready Hnet H429 H301 H302 rw. subst rw.
  assert (Hres : fst (resolve_identity None None w) = Ok (Some i)).
  { cbn. now rewrite Henv. }
  destruct (deferred_call EP_stream_with_retry fuel url None None no_kwargs w i
              Hfuel Hres Hready) as [w1 [Hentry Heq]].
  assert (E429 : (status_code response =? 429)%Z = false) by now apply Z.eqb_neq.
  assert (Ered : is_redirect response = false) by now apply is_redirect_false.
  assert (Hrun : download_text_between_tags lib fuel url tag w =
                 (Ok (snd (scan_lines (literal "<" ++ tag ++ literal ">")
                             (literal "</" ++ tag ++ literal ">")
                             (iter_lines lib response) (false, []))),
                  after_request GET true url
                    (set_kw_headers no_kwargs (headers_ref no_kwargs w)) w1)).
  { unfold download_text_between_tags. cbv zeta.
    unfold bind at 1. unfold stream_with_retry. rewrite Heq.
    unfold bind at 1. rewrite stream_items_eq. cbn [f_url f_kwargs].
    rewrite (be_network _ _ _ _ _ Hentry), (be_sent _ _ _ _ _ Hentry), Hnet.
    now rewrite E429, Ered. }
  rewrite Hrun. cbn [fst snd].
  pose proof (after_request_step EP_stream_with_retry GET true url
                (set_kw_headers no_kwargs (headers_ref no_kwargs w)) w1) as Hstep.
  rewrite (rs_sent _ _ _ _ Hstep), (rs_tickets _ _ _ _ Hstep).
  rewrite (be_sent _ _ _ _ _ Hentry), (be_tickets _ _ _ _ _ Hentry).
  repeat split.
Qed.

(** X11.  [download_text_between_tags(url, tag)], when the stream yields
    the response itself (status neither 429 nor a redirect, whatever it is
    otherwise): if the lines [iter_lines] yields are some lines without a
    tag line, a line that starts with [<tag>], further lines, the first
    line that starts with [</tag>], and anything after it, the result is
    the non-empty lines in between that do not start with [<tag>], each
    followed by a newline; one ticket was taken and one request sent, with
    the identity of the environment.  How the library cuts the body into
    lines is left to it. *)
Theorem text_between_tags_is_extracted (lib : Imports) (fuel : nat)
    (url : string) (tag : str) (w : World) (i : string) (response : Response)
    (pre body post : list str) (opening closing : str) :
  let tag_start := literal "<" ++ tag ++ literal ">" in
  let tag_end := literal "</" ++ tag ++ literal ">" in
  (11 <= fuel)%nat ->
  environ w !! "EDGAR_IDENTITY"%string = Some i ->
  ready EP_stream_with_retry w ->
  (forall req, outcome (network w (requests_sent w) req) = inl response) ->
  status_code response <> 429%Z ->
  status_code response <> 301%Z ->
  status_code response <> 302%Z ->
  iter_lines lib response = pre ++ opening :: body ++ closing :: post ->
  Forall (fun line => opens tag_start line = false /\
                      closes tag_start tag_end line = false) pre ->
  opens tag_start opening = true ->
  Forall (fun line => closes tag_start tag_end line = false) body ->
  closes tag_start tag_end closing = true ->
  let rw := download_text_between_tags lib fuel url tag w in
  fst rw = Ok (joined (List.filter (kept tag_start tag_end) body)) /\
  requests_sent (snd rw) = S (requests_sent w) /\
  tickets_taken (snd rw) = S (tickets_taken w).
Proof.
  intros tag_start tag_end Hfuel Henv Hready Hnet H429 H301 H302 Hlines
         Hpre Hopen Hbody Hclose rw.
  destruct (download_text_between_tags_scans lib fuel url tag w i response
              Hfuel Henv Hready Hnet H429 H301 H302) as (H1 & H2 & H3).
  fold tag_start tag_end rw in H1, H2, H3.
  split; [|split; [exact H2|exact H3]].
  rewrite H1, Hlines. f_equal.
  exact (f_equal snd (scan_lines_tags tag_start tag_end opening closing pre body
                        post [] Hpre Hopen Hbody Hclose)).
Qed.

(** X12.  The loop of [download_text_between_tags] over the lines of one
    response, at its edges: without a line that starts with the start tag
    nothing is captured; a line that starts with the end tag ends the scan
    even before any start tag, so that nothing is captured whatever follows;
    and without an end tag everything after the start tag is captured, to
    the end of the response. *)
Theorem scan_without_both_tags (tag_start tag_end : str)
    (pre rest : list str) (line : str) (content : str) :
  (Forall (fun l => opens tag_start l = false) rest ->
   scan_lines tag_start tag_end rest (false, content) = (false, content)) /\
  (Forall (fun l => opens tag_start l = false /\
                    closes tag_start tag_end l = false) pre ->
   closes tag_start tag_end line = true ->
   scan_lines tag_start tag_end (pre ++ line :: rest) (false, content)
   = (false, content)) /\
  (Forall (fun l => opens tag_start l = false /\
                    closes tag_start tag_end l = false) pre ->
   opens tag_start line = true ->
   Forall (fun l => closes tag_start tag_end l = false) rest ->
   scan_lines tag_start tag_end (pre ++ line :: rest) (false, content)
   = (true, content ++ joined (List.filter (kept tag_start tag_end) rest))).
Proof.
  split; [|split].
  - induction 1 as [|l rest Ho _ IH]; [reflexivity|].
    rewrite scan_lines_cons, Ho. cbn [fst andb].
    now destruct (closes tag_start tag_end l).
  - intros Hpre Hclose. rewrite scan_lines_before by exact Hpre.
    rewrite scan_lines_cons, Hclose.
    unfold closes in Hclose. unfold opens.
    destruct (negb (bool_decide (line = []))); [|discriminate].
    destruct (startswith line tag_start); [discriminate|reflexivity].
  - intros Hpre Hopen Hrest. rewrite scan_lines_before by exact Hpre.
    rewrite scan_lines_cons, Hopen. cbn [snd].
    rewrite <- (app_nil_r rest) at 1.
    now rewrite scan_lines_capture by exact Hrest.
Qed.

(** X13.  [download_text_between_tags] cannot follow a redirect: when the
    stream request is answered 301 or 302 with a [Location], the generator
    yields the generator of the re-entered call, and the helper raises
    [AttributeError] on its [iter_lines]; a second ticket has been taken for
    the location, and no request for it is ever sent. *)
Theorem text_between_tags_fails_on_redirect (lib : Imports) (fuel : nat)
    (url : string) (tag : str) (w : World) (i : string) (response : Response)
    (location : string) :
  (11 <= fuel)%nat ->
  environ w !! "EDGAR_IDENTITY"%string = Some i ->
  ready EP_stream_with_retry w ->
  (forall req, outcome (network w (requests_sent w) req) = inl response) ->
  status_code response = 301%Z \/ status_code response = 302%Z ->
  Headers_getitem (headers response) "Location"%string = Some location ->
  let rw := download_text_between_tags lib fuel url tag w in
  fst rw = Raise (AttributeError "'generator' object has no attribute 'iter_lines'") /\
  requests_sent (snd rw) = S (requests_sent w) /\
  tickets_taken (snd rw) = S (S (tickets_taken w)).
Proof.
  intros Hfuel Henv Hready Hnet Hstatus Hloc rw. subst rw.
  assert (Hres : fst (resolve_identity None None w) = Ok (Some i)).
  { cbn. now rewrite Henv. }
  destruct (deferred_call EP_stream_with_retry fuel url None None no_kwargs w i
              Hfuel Hres Hready) as [w1 [Hentry Heq]].
  assert (E429 : (status_code response =? 429)%Z = false).
  { apply Z.eqb_neq. lia. }
  assert (Ered : is_redirect response = true) by now apply is_redirect_true.
  set (kwargs' := set_kw_headers no_kwargs (headers_ref no_kwargs w)) in *.
  pose proof (hop_entry_intro EP_stream_with_retry GET true url i no_kwargs
                kwargs' w w1 Hentry) as Hhop.
  set (w2 := after_request GET true url kwargs' w1) in *.
  destruct (deferred_call EP_stream_with_retry fuel location (Some i) None
              kwargs' w2 i Hfuel eq_refl (he_ready _ _ _ _ _ _ _ Hhop))
    as [w3 [Hentry3 Heq3]].
  assert (Hrun : download_text_between_tags lib fuel url tag w =
                 (Raise (AttributeError
                           "'generator' object has no attribute 'iter_lines'"),
                  w3)).
  { unfold download_text_between_tags. cbv zeta.
    unfold bind at 1. unfold stream_with_retry at 1. rewrite Heq.
    unfold bind at 1. rewrite stream_items_eq.
    cbn [f_url f_kwargs f_identity f_identity_callable].
    rewrite (be_network _ _ _ _ _ Hentry), (be_sent _ _ _ _ _ Hentry), Hnet.
    rewrite E429, Ered, Hloc. fold w2. unfold stream_with_retry. now rewrite Heq3. }
  rewrite Hrun. cbn [fst snd].
  rewrite (be_sent _ _ _ _ _ Hentry3), (be_tickets _ _ _ _ _ Hentry3).
  rewrite (he_sent _ _ _ _ _ _ _ Hhop), (he_tickets _ _ _ _ _ _ _ Hhop).
  repeat split.
Qed.

Lemma text_between_tags_is_extracted_witness :
  let crlf := String "013" (String "010" "") in
  let w := imported {[ "EDGAR_IDENTITY"%string := "Jane Doe jane@example.com"%string ]}
             (scripted [answer_with 200 []
                          (String.concat crlf
                             ["<SEC-DOCUMENT>0001"; "<SEC-HEADER>0001";
                              "ACCESSION NUMBER: 1"; ""; "FILER: 2";
                              "</SEC-HEADER>"; "<DOCUMENT>"]%string)]) in
  fst (download_text_between_tags stand_in 12 "https://www.sec.gov/a"
         (literal "SEC-HEADER") w)
  = Ok (joined [literal "ACCESSION NUMBER: 1"; literal "FILER: 2"]).
Proof.
  intros crlf w.
  refine (proj1 (text_between_tags_is_extracted stand_in 12 "https://www.sec.gov/a"
                   (literal "SEC-HEADER") w "Jane Doe jane@example.com"
                   (mkResponse 200 []
                      (String.concat crlf
                         ["<SEC-DOCUMENT>0001"; "<SEC-HEADER>0001";
                          "ACCESSION NUMBER: 1"; ""; "FILER: 2";
                          "</SEC-HEADER>"; "<DOCUMENT>"]%string))
                   [literal "<SEC-DOCUMENT>0001"]
                   [literal "ACCESSION NUMBER: 1"; []; literal "FILER: 2"]
                   [literal "<DOCUMENT>"]
                   (literal "<SEC-HEADER>0001") (literal "</SEC-HEADER>")
                   _ _ _ _ _ _ _ _ _ _ _ _)).
  - lia.
  - reflexivity.
  - apply imported_ready.
  - intros req. reflexivity.
  - discriminate.
  - discriminate.
  - discriminate.
  - vm_compute. reflexivity.
  - repeat constructor.
  - vm_compute. reflexivity.
  - repeat constructor.
  - vm_compute. reflexivity.
Defined.

Lemma text_between_tags_fails_on_redirect_witness :
  let w := imported {[ "EDGAR_IDENTITY"%string := "Jane Doe jane@example.com"%string ]}
             (scripted [answer 301 [("location"%string, "https://www.sec.gov/b"%string)];
                        answer 200 []]) in
  let rw := download_text_between_tags stand_in 12 "https://www.sec.gov/a"
              (literal "SEC-HEADER") w in
  fst rw = Raise (AttributeError "'generator' object has no attribute 'iter_lines'") /\
  requests_sent (snd rw) = 1%nat /\ tickets_taken (snd rw) = 2%nat.
Proof.
  intros w.
  refine (text_between_tags_fails_on_redirect stand_in 12 "https://www.sec.gov/a"
            (literal "SEC-HEADER") w "Jane Doe jane@example.com"
            (mkResponse 301 [("location"%string, "https://www.sec.gov/b"%string)] "")
            "https://www.sec.gov/b" _ _ _ _ _ _).
  - lia.
  - reflexivity.
  - apply imported_ready.
  - intros req. reflexivity.
  - left. reflexivity.
  - vm_compute. reflexivity.
Defined.

(** ** The download helpers *)

Lemma endswith_spec (s suffix : string) :
  endswith s suffix = true <-> exists front, s = (front ++ suffix)%string.
Proof.
  induction s as [|a s IH]; cbn [endswith].
  - destruct (decide (""%string = suffix)) as [<-|Hne].
    + split; [|reflexivity]. intros _. now exists ""%string.
    + split; [discriminate|]. intros [front Hfront].
      destruct front; [now cbn in Hfront|discriminate].
  - destruct (decide (String a s = suffix)) as [<-|Hne].
    + split; [|reflexivity]. intros _. now exists ""%string.
    + rewrite IH. split; intros [front Hfront].
      * exists (String a front). now rewrite Hfront.
      * destruct front as [|b front]; [now cbn in Hfront|].
        injection Hfront as _ ->. now exists front.
Qed.

Lemma endswith_any_spec (s : string) (suffixes : list string) :
  endswith_any s suffixes = true <->
  exists suffix front, In suffix suffixes /\ s = (front ++ suffix)%string.
Proof.
  unfold endswith_any. rewrite existsb_exists. split.
  - intros [suffix [Hin Hend]]. apply endswith_spec in Hend.
    destruct Hend as [front Hfront]. now exists suffix, front.
  - intros (suffix & front & Hin & Hfront). exists suffix. split; [exact Hin|].
    apply endswith_spec. now exists front.
Qed.

(** Whether [download_file] hands back text, by its two tests (lines
    338-340 and 345-347). *)
Lemma as_text_twice (as_text : option bool) (by_extension : bool) :
  (if negb (match as_text with None => by_extension | Some b => b end)
   then by_extension
   else match as_text with None => by_extension | Some b => b end)
  = match as_text with Some true => true | _ => by_extension end.
Proof. destruct as_text as [[|]|], by_extension; reflexivity. Qed.

(** [download_file], once the request has been answered. *)
Lemma download_file_answered (lib : Imports) (fuel : nat) (url : string)
    (as_text : option bool) (w w' : World) (response : Response) :
  get_with_retry fuel url None None no_kwargs w = (Ok response, w') ->
  download_file lib fuel url as_text w =
  (match (if (status_code response =? 200)%Z then Returned tt
          else raise_for_status lib response) with
   | Returned _ =>
       let text := match as_text with
                   | Some true => true
                   | _ => endswith_any url (text_extensions lib)
                   end in
       if endswith url "gz" then
         match gzip_read lib (content response) with
         | Returned file_content =>
             Returned (if text then Text (decode_content lib file_content)
                       else Bytes file_content)
         | Raised x => Raised x
         | LibraryRaised x => LibraryRaised x
         | Unfinished => Unfinished
         end
       else Returned (if text then Text (response_text lib response)
                      else Bytes (content response))
   | Raised x => Raised x
   | LibraryRaised x => LibraryRaised x
   | Unfinished => Unfinished
   end, w').
Proof.
  intros Hget. unfold download_file. cbv zeta.
  rewrite (as_text_twice as_text (endswith_any url (text_extensions lib))).
  unfold and_then at 1. unfold called. rewrite Hget.
  unfold and_then at 1. unfold inspect_response.
  destruct (status_code response =? 200)%Z.
  - unfold returned at 1.
    destruct (endswith url "gz").
    + unfold and_then, library.
      destruct (gzip_read lib (content response)) as [b|x|x|]; try reflexivity.
      now destruct as_text as [[|]|]; try destruct (endswith_any url (text_extensions lib)).
    + now destruct as_text as [[|]|]; try destruct (endswith_any url (text_extensions lib)).
  - unfold library at 1.
    destruct (raise_for_status lib response) as [[]|x|x|]; try reflexivity.
    destruct (endswith url "gz").
    + unfold and_then, library.
      destruct (gzip_read lib (content response)) as [b|x|x|]; try reflexivity.
      now destruct as_text as [[|]|]; try destruct (endswith_any url (text_extensions lib)).
    + now destruct as_text as [[|]|]; try destruct (endswith_any url (text_extensions lib)).
Qed.

Lemma download_file_not_answered (lib : Imports) (fuel : nat) (url : string)
    (as_text : option bool) (w : World) :
  (forall response, fst (get_with_retry fuel url None None no_kwargs w) <> Ok response) ->
  forall payload, fst (download_file lib fuel url as_text w) <> Returned payload.
Proof.
  intros Hget payload. unfold download_file. cbv zeta.
  unfold and_then at 1. unfold called.
  destruct (get_with_retry fuel url None None no_kwargs w) as [[response|x|] w'].
  - now destruct (Hget response).
  - discriminate.
  - discriminate.
Qed.

Lemma download_file_kind (lib : Imports) (fuel : nat) (url : string)
    (as_text : option bool) (w w' : World) (payload : Payload) :
  download_file lib fuel url as_text w = (Returned payload, w') ->
  is_text payload = match as_text with
                    | Some true => true
                    | _ => endswith_any url (text_extensions lib)
                    end.
Proof.
  intros Hrun.
  destruct (get_with_retry fuel url None None no_kwargs w) as [[response|x|] w1] eqn:Hget.
  2,3: exfalso;
       apply (download_file_not_answered lib fuel url as_text w) with (payload := payload);
       [intros r; rewrite Hget; discriminate|now rewrite Hrun].
  rewrite (download_file_answered lib fuel url as_text w w1 response Hget) in Hrun.
  cbv zeta in Hrun.
  destruct (if (status_code response =? 200)%Z then Returned tt
            else raise_for_status lib response) as [[]|x|x|]; try discriminate.
  destruct (endswith url "gz").
  - destruct (gzip_read lib (content response)) as [b|x|x|]; try discriminate.
    injection Hrun as <- _.
    now destruct as_text as [[|]|]; try destruct (endswith_any url (text_extensions lib)).
  - injection Hrun as <- _.
    now destruct as_text as [[|]|]; try destruct (endswith_any url (text_extensions lib)).
Qed.

(** X14.  Whether [download_file] returns text or bytes: text exactly when
    [as_text] is [True] or the URL ends with one of [text_extensions].  An
    explicit [as_text=False] is overridden for such a URL (the test of
    lines 345-347 runs for [False] as for [None]). *)
Theorem download_file_text_or_bytes (lib : Imports) (fuel : nat) (url : string)
    (as_text : option bool) (w w' : World) (payload : Payload) :
  download_file lib fuel url as_text w = (Returned payload, w') ->
  (is_text payload = true <->
   as_text = Some true \/
   exists extension front,
     In extension (text_extensions lib) /\ url = (front ++ extension)%string).
Proof.
  intros Hrun.
  rewrite <- endswith_any_spec.
  rewrite (download_file_kind lib fuel url as_text w w' payload Hrun).
  destruct as_text as [[|]|]; split; intros H; auto;
    try (destruct H as [H|H]; [discriminate|exact H]).
Qed.

Lemma download_file_text_or_bytes_witness :
  let w := imported {[ "EDGAR_IDENTITY"%string := "Jane Doe jane@example.com"%string ]}
             (scripted [answer_with 200 [] "abc"]) in
  let rw := download_file stand_in 12 "https://www.sec.gov/a.txt" (Some false) w in
  fst rw = Returned (Text [97; 98; 99]%N) /\
  (is_text (Text [97; 98; 99]%N) = true <->
   Some false = Some true \/
   exists extension front,
     In extension (text_extensions stand_in) /\
     "https://www.sec.gov/a.txt"%string = (front ++ extension)%string).
Proof.
  intros w rw. split; [vm_compute; reflexivity|].
  apply (download_file_text_or_bytes stand_in 12 "https://www.sec.gov/a.txt"
           (Some false) w (snd rw)).
  vm_compute. reflexivity.
Defined.

Lemma environment_identity (w : World) (i : string) :
  environ w !! "EDGAR_IDENTITY"%string = Some i ->
  fst (resolve_identity None None w) = Ok (Some i).
Proof. intros H. cbn. now rewrite H. Qed.

(** The request of [download_file] answered with a status other than 429,
    301 and 302. *)
Lemma download_file_request (fuel : nat) (url : string) (w : World) (i : string)
    (response : Response) :
  (11 <= fuel)%nat ->
  environ w !! "EDGAR_IDENTITY"%string = Some i ->
  ready EP_get_with_retry w ->
  (forall req, outcome (network w (requests_sent w) req) = inl response) ->
  status_code response <> 429%Z ->
  status_code response <> 301%Z ->
  status_code response <> 302%Z ->
  exists w',
    get_with_retry fuel url None None no_kwargs w = (Ok response, w') /\
    requests_sent w' = S (requests_sent w) /\
    tickets_taken w' = S (tickets_taken w).
Proof.
  intros Hfuel Henv Hready Hnet H429 H301 H302.
  destruct fuel as [|n]; [lia|].
  destruct (decorate_plain_response EP_get_with_retry (S n) GET (get_with_retry n)
              url None None no_kwargs w i response Hfuel
              (environment_identity w i Henv) Hready)
    as (H1 & H2 & H3 & _); try assumption; [now intros req _|].
  rewrite get_with_retry_S.
  destruct (decorate EP_get_with_retry (S n) (request_body GET (get_with_retry n))
              url None None no_kwargs w) as [res w'].
  cbn [fst snd] in H1, H2, H3. subst res. now exists w'.
Qed.

(** X15.  [download_file] sends one request, with the identity of the
    environment, and leaves the status to [inspect_response]: a 200 is
    never passed to [raise_for_status], and for a URL that does not end in
    [gz] the call then returns [response.text] or [response.content]; for
    any other status the exception of [raise_for_status] reaches the caller
    after that one request (nothing is retried), and when
    [raise_for_status] returns the body is handed back as for a 200. *)
Theorem download_file_checks_the_status (lib : Imports) (fuel : nat)
    (url : string) (as_text : option bool) (w : World) (i : string)
    (response : Response) :
  (11 <= fuel)%nat ->
  environ w !! "EDGAR_IDENTITY"%string = Some i ->
  ready EP_get_with_retry w ->
  (forall req, outcome (network w (requests_sent w) req) = inl response) ->
  status_code response <> 429%Z ->
  status_code response <> 301%Z ->
  status_code response <> 302%Z ->
  endswith url "gz" = false ->
  let rw := download_file lib fuel url as_text w in
  let text := match as_text with
              | Some true => true
              | _ => endswith_any url (text_extensions lib)
              end in
  let handed_back := Returned (if text then Text (response_text lib response)
                               else Bytes (content response)) in
  requests_sent (snd rw) = S (requests_sent w) /\
  tickets_taken (snd rw) = S (tickets_taken w) /\
  (status_code response = 200%Z -> fst rw = handed_back) /\
  (status_code response <> 200%Z ->
   (forall x, raise_for_status lib response = LibraryRaised x ->
              fst rw = LibraryRaised x) /\
   (raise_for_status lib response = Returned tt -> fst rw = handed_back)).
Proof.
  intros Hfuel Henv Hready Hnet H429 H301 H302 Hgz rw text handed_back.
  destruct (download_file_request fuel url w i response Hfuel Henv Hready Hnet
              H429 H301 H302) as [w' (Hget & Hsent & Htick)].
  subst rw.
  rewrite (download_file_answered lib fuel url as_text w w' response Hget).
  cbv zeta. rewrite Hgz. cbn [fst snd].
  split; [exact Hsent|]. split; [exact Htick|]. split.
  - intros H200. apply Z.eqb_eq in H200. now rewrite H200.
  - intros H200. apply Z.eqb_neq in H200. rewrite H200. split.
    + intros x Hx. now rewrite Hx.
    + intros Hok. now rewrite Hok.
Qed.

Lemma download_file_checks_the_status_witness :
  let w := imported {[ "EDGAR_IDENTITY"%string := "Jane Doe jane@example.com"%string ]}
             (scripted [answer_with 404 [] "Not Found"; answer_with 200 [] "abc"]) in
  let rw := download_file stand_in 12 "https://www.sec.gov/a.pdf" None w in
  fst rw = LibraryRaised (LibraryError "HTTPStatusError") /\
  requests_sent (snd rw) = 1%nat.
Proof.
  intros w rw.
  destruct (download_file_checks_the_status stand_in 12 "https://www.sec.gov/a.pdf"
              None w "Jane Doe jane@example.com" (mkResponse 404 [] "Not Found"))
    as (H1 & _ & _ & H4).
  - lia.
  - reflexivity.
  - apply imported_ready.
  - intros req. reflexivity.
  - discriminate.
  - discriminate.
  - discriminate.
  - vm_compute. reflexivity.
  - split; [|exact H1].
    apply (proj1 (H4 ltac:(discriminate))). reflexivity.
Defined.

(** X16.  For a URL that ends in [gz], [download_file] unpacks the body
    with [gzip], whatever the headers of the response say, and a failure
    of [gzip] reaches the caller.  As text the unpacked bytes go through
    [decode_content], not through [response.text]: they are read as UTF-8,
    and when they are not valid UTF-8 as latin-1, every byte the code
    point of its value, so that decoding cannot fail. *)
Theorem download_file_unpacks_gz (lib : Imports) (fuel : nat)
    (url : string) (as_text : option bool) (w : World) (i : string)
    (response : Response) :
  (11 <= fuel)%nat ->
  environ w !! "EDGAR_IDENTITY"%string = Some i ->
  ready EP_get_with_retry w ->
  (forall req, outcome (network w (requests_sent w) req) = inl response) ->
  status_code response = 200%Z ->
  endswith url "gz" = true ->
  let rw := download_file lib fuel url as_text w in
  let text := match as_text with
              | Some true => true
              | _ => endswith_any url (text_extensions lib)
              end in
  (forall x, gzip_read lib (content response) = LibraryRaised x ->
             fst rw = LibraryRaised x) /\
  (forall unpacked, gzip_read lib (content response) = Returned unpacked ->
     (text = false -> fst rw = Returned (Bytes unpacked)) /\
     (text = true ->
      (forall decoded, utf8_decode lib unpacked = Some decoded ->
                       fst rw = Returned (Text decoded)) /\
      (utf8_decode lib unpacked = None ->
       fst rw = Returned (Text (List.map N_of_ascii (list_ascii_of_string unpacked)))))).
Proof.
  intros Hfuel Henv Hready Hnet H200 Hgz rw text.
  destruct (download_file_request fuel url w i response Hfuel Henv Hready Hnet)
    as [w' (Hget & _ & _)]; try (rewrite H200; discriminate).
  subst rw.
  rewrite (download_file_answered lib fuel url as_text w w' response Hget).
  cbv zeta. rewrite H200, Hgz. change (200 =? 200)%Z with true. cbn [fst snd].
  fold text. split.
  - intros x Hx. now rewrite Hx.
  - intros unpacked Hb. rewrite Hb. split.
    + intros Ht. now rewrite Ht.
    + intros Ht. rewrite Ht. unfold decode_content. split.
      * intros decoded Hd. now rewrite Hd.
      * intros Hd. now rewrite Hd.
Qed.

Lemma download_file_unpacks_gz_witness :
  let w := imported {[ "EDGAR_IDENTITY"%string := "Jane Doe jane@example.com"%string ]}
             (scripted [answer_with 200 [] (String "031" (String "139" "abc"))]) in
  fst (download_file stand_in 12 "https://www.sec.gov/a.txt.gz" None w)
  = Returned (Bytes "abc").
Proof.
  intros w.
  destruct (download_file_unpacks_gz stand_in 12 "https://www.sec.gov/a.txt.gz"
              None w "Jane Doe jane@example.com"
              (mkResponse 200 [] (String "031" (String "139" "abc"))))
    as [_ H].
  - lia.
  - reflexivity.
  - apply imported_ready.
  - intros req. reflexivity.
  - reflexivity.
  - vm_compute. reflexivity.
  - apply (proj1 (H "abc"%string eq_refl)). vm_compute. reflexivity.
Defined.

(** X17.  [download_file_async], awaited, sends one request and, on a 200,
    does as [as_text] says: text is [response.text]; bytes are the content,
    unpacked with [gzip] exactly when the [Content-Encoding] header, looked
    up without regard to case, is [gzip].  Unlike [download_file] it honours [as_text=False] for a URL
    with a text extension and does not look at a [gz] ending. *)
Theorem download_file_async_honours_as_text (lib : Imports) (fuel : nat)
    (url : string) (as_text : option bool) (w : World) (i : string)
    (response : Response) :
  (11 <= fuel)%nat ->
  environ w !! "EDGAR_IDENTITY"%string = Some i ->
  ready EP_get_with_retry_async w ->
  (forall req, outcome (network w (requests_sent w) req) = inl response) ->
  status_code response = 200%Z ->
  let rw := download_file_async lib fuel url as_text w in
  let text := match as_text with
              | Some b => b
              | None => endswith_any url (text_extensions lib)
              end in
  requests_sent (snd rw) = S (requests_sent w) /\
  tickets_taken (snd rw) = S (tickets_taken w) /\
  (text = true -> fst rw = Returned (Text (response_text lib response))) /\
  (text = false ->
   (Headers_get (headers response) "Content-Encoding"%string <> Some "gzip"%string ->
    fst rw = Returned (Bytes (content response))) /\
   (Headers_get (headers response) "Content-Encoding"%string = Some "gzip"%string ->
    (forall unpacked, gzip_decompress lib (content response) = Returned unpacked ->
                      fst rw = Returned (Bytes unpacked)) /\
    (forall x, gzip_decompress lib (content response) = LibraryRaised x ->
               fst rw = LibraryRaised x))).
Proof.
  intros Hfuel Henv Hready Hnet H200 rw text.
  destruct (deferred_call EP_get_with_retry_async fuel url None None no_kwargs w i
              Hfuel (environment_identity w i Henv) Hready) as [w1 [Hentry Heq]].
  destruct fuel as [|n]; [lia|].
  set (kwargs' := set_kw_headers no_kwargs (headers_ref no_kwargs w)) in *.
  assert (Hawait : await_get (S n) (mkFrame url (Some i) None kwargs') w1 =
                   (Ok response, after_request GET false url kwargs' w1)).
  { rewrite await_get_S, request_body_eq.
    cbn [f_url f_kwargs f_identity f_identity_callable].
    rewrite (be_network _ _ _ _ _ Hentry), (be_sent _ _ _ _ _ Hentry), Hnet.
    rewrite H200. change (200 =? 429)%Z with false.
    assert (Ered : is_redirect response = false).
    { apply is_redirect_false. rewrite H200. split; discriminate. }
    now rewrite Ered. }
  pose proof (after_request_step EP_get_with_retry_async GET false url kwargs' w1)
    as Hstep.
  assert (Hrun : download_file_async lib (S n) url as_text w =
                 ((if text then Returned (Text (response_text lib response))
                   else if decide (Headers_get (headers response) "Content-Encoding"%string
                                   = Some "gzip"%string)
                        then match gzip_decompress lib (content response) with
                             | Returned unpacked => Returned (Bytes unpacked)
                             | Raised x => Raised x
                             | LibraryRaised x => LibraryRaised x
                             | Unfinished => Unfinished
                             end
                        else Returned (Bytes (content response))),
                  after_request GET false url kwargs' w1)).
  { unfold download_file_async. cbv zeta. fold text.
    unfold and_then at 1. unfold called at 1. unfold get_with_retry_async.
    rewrite Heq.
    unfold and_then at 1. unfold called at 1. rewrite Hawait.
    unfold and_then at 1. unfold inspect_response. rewrite H200.
    change (200 =? 200)%Z with true. unfold returned at 1.
    destruct text; [reflexivity|].
    destruct (decide _); [|reflexivity].
    unfold and_then, library.
    now destruct (gzip_decompress lib (content response)). }
  subst rw. rewrite Hrun. cbn [fst snd].
  split; [now rewrite (rs_sent _ _ _ _ Hstep), (be_sent _ _ _ _ _ Hentry)|].
  split; [now rewrite (rs_tickets _ _ _ _ Hstep), (be_tickets _ _ _ _ _ Hentry)|].
  split.
  - intros Ht. now rewrite Ht.
  - intros Ht. rewrite Ht. split.
    + intros Hne. now rewrite decide_False.
    + intros He. rewrite decide_True by exact He. split.
      * intros unpacked Hb. now rewrite Hb.
      * intros x Hx. now rewrite Hx.
Qed.

Lemma download_file_async_honours_as_text_witness :
  let w := imported {[ "EDGAR_IDENTITY"%string := "Jane Doe jane@example.com"%string ]}
             (scripted [answer_with 200 [("content-encoding", "gzip")]%string "abc"]) in
  fst (download_file_async stand_in 12 "https://www.sec.gov/a.txt" (Some false) w)
  = LibraryRaised (LibraryError "BadGzipFile").
Proof.
  intros w.
  destruct (download_file_async_honours_as_text stand_in 12
              "https://www.sec.gov/a.txt" (Some false) w
              "Jane Doe jane@example.com"
              (mkResponse 200 [("content-encoding", "gzip")]%string "abc"))
    as (_ & _ & _ & H).
  - lia.
  - reflexivity.
  - apply imported_ready.
  - intros req. reflexivity.
  - reflexivity.
  - apply (proj2 (H eq_refl)); reflexivity.
Defined.

Lemma download_file_async_text (lib : Imports) (fuel : nat) (url : string)
    (w w' : World) (payload : Payload) :
  download_file_async lib fuel url (Some true) w = (Returned payload, w') ->
  is_text payload = true.
Proof.
  unfold download_file_async. cbv zeta.
  unfold and_then at 1. unfold called at 1.
  destruct (get_with_retry_async fuel url None None no_kwargs w) as [[c|x|] w1];
    try discriminate.
  unfold and_then at 1. unfold called at 1.
  destruct (await_get fuel c w1) as [[response|x|] w2]; try discriminate.
  unfold and_then, inspect_response, returned, library.
  destruct (status_code response =? 200)%Z.
  - now intros [= <- _].
  - destruct (raise_for_status lib response) as [[]|x|x|]; try discriminate.
    now intros [= <- _].
Qed.

(** X18.  [download_text], [download_json] and [download_json_async] ask
    for text: what [download_text] returns is a [str], and [orjson.loads]
    is handed a [str], never bytes, also for a URL that ends in [gz]. *)
Theorem download_json_parses_text (lib : Imports) (fuel : nat) (url : string)
    (w w' : World) :
  (forall payload, download_text lib fuel url w = (Returned payload, w') ->
                   is_text payload = true) /\
  (forall parsed, download_json lib fuel url w = (Returned parsed, w') ->
                  exists text, json_loads lib (Text text) = Returned parsed) /\
  (forall parsed, download_json_async lib fuel url w = (Returned parsed, w') ->
                  exists text, json_loads lib (Text text) = Returned parsed).
Proof.
  split; [|split].
  - intros payload Hrun.
    exact (download_file_kind lib fuel url (Some true) w w' payload Hrun).
  - intros parsed. unfold download_json, and_then, library.
    destruct (download_file lib fuel url (Some true) w) as [[payload|x|x|] w1] eqn:Hrun;
      try discriminate.
    pose proof (download_file_kind lib fuel url (Some true) w w1 payload Hrun) as Hkind.
    destruct payload as [text|b]; [|discriminate].
    intros [= Hj _]. now exists text.
  - intros parsed. unfold download_json_async, and_then, library.
    destruct (download_file_async lib fuel url (Some true) w) as [[payload|x|x|] w1] eqn:Hrun;
      try discriminate.
    pose proof (download_file_async_text lib fuel url w w1 payload Hrun) as Hkind.
    destruct payload as [text|b]; [|discriminate].
    intros [= Hj _]. now exists text.
Qed.

(** X19.  The helpers pass no identity to the pipeline, so it comes from
    [EDGAR_IDENTITY]: when the variable is not set, [download_file],
    [download_file_async] and [download_text_between_tags] raise
    [IdentityNotSetException] and leave everything as it was, no ticket
    taken and nothing sent. *)
Theorem helpers_need_the_environment (lib : Imports) (fuel : nat)
    (url : string) (tag : str) (as_text : option bool) (w : World) :
  (1 <= fuel)%nat ->
  environ w !! "EDGAR_IDENTITY"%string = None ->
  download_file lib fuel url as_text w
  = (Raised (IdentityNotSetException "User-Agent identity is not set"), w) /\
  download_file_async lib fuel url as_text w
  = (Raised (IdentityNotSetException "User-Agent identity is not set"), w) /\
  download_text_between_tags lib fuel url tag w
  = (Raise (IdentityNotSetException "User-Agent identity is not set"), w).
Proof.
  intros Hfuel Henv.
  assert (Hres : fst (resolve_identity None None w) = Ok None).
  { cbn. now rewrite Henv. }
  assert (Hunset : forall A e (func : pipeline A),
            decorate e fuel func url None None no_kwargs w =
            (Raise (IdentityNotSetException "User-Agent identity is not set"), w)).
  { intros A e func.
    now rewrite (decorate_identity_unset e fuel func url None None no_kwargs w Hres). }
  split; [|split].
  - unfold download_file. cbv zeta. unfold and_then at 1. unfold called.
    destruct fuel as [|n]; [lia|]. rewrite get_with_retry_S.
    now rewrite Hunset.
  - unfold download_file_async. cbv zeta. unfold and_then at 1. unfold called.
    unfold get_with_retry_async. now rewrite Hunset.
  - unfold download_text_between_tags. cbv zeta. unfold bind at 1.
    unfold stream_with_retry. now rewrite Hunset.
Qed.

Lemma helpers_need_the_environment_witness :
  let w := imported ∅ (scripted [answer 200 []]) in
  download_file stand_in 12 "https://www.sec.gov/a.txt" None w
  = (Raised (IdentityNotSetException "User-Agent identity is not set"), w).
Proof.
  intros w.
  refine (proj1 (helpers_need_the_environment stand_in 12 "https://www.sec.gov/a.txt"
                   (literal "SEC-HEADER") None w _ _)).
  - lia.
  - reflexivity.
Defined.

(** ** Many coroutines, awaited later *)

Lemma for_each_cons {A B} (f : A -> M B) (x : A) (rest : list A) (w : World) :
  for_each f (x :: rest) w =
  match f x w with
  | (Ok b, w1) =>
      match for_each f rest w1 with
      | (Ok bs, w2) => (Ok (b :: bs), w2)
      | (Raise e, w2) => (Raise e, w2)
      | (OutOfFuel, w2) => (OutOfFuel, w2)
      end
  | (Raise e, w1) => (Raise e, w1)
  | (OutOfFuel, w1) => (OutOfFuel, w1)
  end.
Proof.
  cbn [for_each]. unfold bind, ret.
  now destruct (f x w) as [[b|e|] w1].
Qed.

Lemma coroutines_made (e : entry_point) (fuel : nat) (identity : option string)
    (identity_callable : option callable) (i : string) (urls : list string) :
  (11 <= fuel)%nat ->
  forall w,
    ready e w ->
    resolves_to i (environ w) identity identity_callable ->
    exists cs w1,
      for_each (fun url => decorate e fuel suspended url identity
                             identity_callable no_kwargs) urls w = (Ok cs, w1) /\
      length cs = length urls /\
      network w1 = network w /\
      requests_sent w1 = requests_sent w /\
      tickets_taken w1 = (tickets_taken w + length urls)%nat.
Proof.
  intros Hfuel. induction urls as [|url rest IH]; intros w Hready Hres.
  - exists [], w. cbn. repeat split; lia.
  - destruct (deferred_call e fuel url identity identity_callable no_kwargs w i
                Hfuel (resolves_to_Ok _ _ _ _ Hres) Hready) as [w1 [Hentry Heq]].
    destruct (IH w1) as (cs & w2 & Hrun & Hlen & Hnet & Hsent & Htick).
    + exact (be_ready _ _ _ _ _ Hentry).
    + now rewrite (be_environ _ _ _ _ _ Hentry).
    + eexists. exists w2. rewrite for_each_cons, Heq, Hrun.
      split; [reflexivity|]. cbn [length]. split; [now rewrite Hlen|].
      split; [now rewrite Hnet, (be_network _ _ _ _ _ Hentry)|].
      split; [now rewrite Hsent, (be_sent _ _ _ _ _ Hentry)|].
      rewrite Htick, (be_tickets _ _ _ _ _ Hentry). lia.
Qed.

Lemma coroutines_awaited (n : nat) (response : Response) (latency : N)
    (cs : list Frame) :
  status_code response <> 429%Z ->
  status_code response <> 301%Z ->
  status_code response <> 302%Z ->
  forall w,
    (forall k req, network w k req = {| outcome := inl response; elapsed_ms := latency |}) ->
    exists w2,
      for_each (await_get (S n)) cs w = (Ok (repeat response (length cs)), w2) /\
      requests_sent w2 = (requests_sent w + length cs)%nat /\
      tickets_taken w2 = tickets_taken w /\
      throttlers w2 = throttlers w /\
      (now w2 == now w + inject_Z (Z.of_nat (length cs)) * (Z.of_N latency # 1000))%Q.
Proof.
  intros H429 H301 H302.
  assert (E429 : (status_code response =? 429)%Z = false) by now apply Z.eqb_neq.
  assert (Ered : is_redirect response = false) by now apply is_redirect_false.
  induction cs as [|c rest IH]; intros w Hnet.
  - exists w. cbn [for_each length repeat]. unfold ret.
    split; [reflexivity|]. split; [lia|]. split; [reflexivity|].
    split; [reflexivity|]. cbn. ring.
  - pose proof (after_request_step EP_get_with_retry_async GET false (f_url c)
                  (f_kwargs c) w) as [Sn _ _ _ Sth _ Ssent Stick _ _ Sel].
    set (w1 := after_request GET false (f_url c) (f_kwargs c) w) in *.
    assert (Hawait : await_get (S n) c w = (Ok response, w1)).
    { rewrite await_get_S, request_body_eq, Hnet. cbn [outcome].
      now rewrite E429, Ered. }
    destruct (IH w1) as (w2 & Hrun & Hsent & Htick & Hth & Hnow).
    { intros k req. now rewrite Sn. }
    exists w2. rewrite for_each_cons, Hawait, Hrun.
    split; [reflexivity|]. cbn [length].
    split; [rewrite Hsent, Ssent; lia|].
    split; [now rewrite Htick, Stick|].
    split; [now rewrite Hth, Sth|].
    rewrite Hnow, Sel, Hnet. cbn [elapsed_ms].
    rewrite Nat2Z.inj_succ, <- Z.add_1_r, inject_Z_plus.
    change (inject_Z 1) with 1%Q. ring.
Qed.

(** X20.  The limiter bounds the rate at which coroutines of
    [get_with_retry_async] are made, not the rate of their requests: the
    tickets are all taken while the coroutines are made, and awaiting them
    afterwards sends one request each with no wait in between, so that the
    requests of any number of coroutines go out in the time the transport
    takes for them, whatever the limit. *)
Theorem awaited_requests_are_not_throttled (fuel : nat) (urls : list string)
    (identity : option string) (identity_callable : option callable)
    (w : World) (i : string) (response : Response) (latency : N) :
  (11 <= fuel)%nat ->
  ready EP_get_with_retry_async w ->
  resolves_to i (environ w) identity identity_callable ->
  (forall k req, network w k req = {| outcome := inl response; elapsed_ms := latency |}) ->
  status_code response <> 429%Z ->
  status_code response <> 301%Z ->
  status_code response <> 302%Z ->
  exists cs w1 w2,
    for_each (fun url => get_with_retry_async fuel url identity identity_callable
                           no_kwargs) urls w = (Ok cs, w1) /\
    requests_sent w1 = requests_sent w /\
    tickets_taken w1 = (tickets_taken w + length urls)%nat /\
    for_each (await_get fuel) cs w1 = (Ok (repeat response (length urls)), w2) /\
    requests_sent w2 = (requests_sent w + length urls)%nat /\
    tickets_taken w2 = tickets_taken w1 /\
    throttlers w2 = throttlers w1 /\
    (now w2 == now w1 + inject_Z (Z.of_nat (length urls)) * (Z.of_N latency # 1000))%Q.
Proof.
  intros Hfuel Hready Hres Hnet H429 H301 H302.
  destruct (coroutines_made EP_get_with_retry_async fuel identity identity_callable
              i urls Hfuel w Hready Hres) as (cs & w1 & Hmade & Hlen & Hn1 & Hs1 & Ht1).
  destruct fuel as [|n]; [lia|].
  destruct (coroutines_awaited n response latency cs H429 H301 H302 w1)
    as (w2 & Hrun & Hs2 & Ht2 & Hth2 & Hnow).
  { intros k req. now rewrite Hn1. }
  exists cs, w1, w2. rewrite Hlen in *.
  split; [exact Hmade|]. split; [exact Hs1|]. split; [exact Ht1|].
  split; [exact Hrun|]. split; [now rewrite Hs2, Hs1|].
  split; [exact Ht2|]. split; [exact Hth2|exact Hnow].
Qed.

Lemma awaited_requests_are_not_throttled_witness :
  let w := imported ∅ (scripted []) in
  let urls := repeat "https://www.sec.gov/a"%string 20 in
  exists cs w1 w2,
    for_each (fun url => get_with_retry_async 12 url
                           (Some "Jane Doe jane@example.com"%string) None no_kwargs)
             urls w = (Ok cs, w1) /\
    for_each (await_get 12) cs w1 = (Ok (repeat (mkResponse 200 [] "") 20), w2) /\
    requests_sent w2 = 20%nat /\
    (now w2 == now w1 + inject_Z 20 * (Z.of_N 20 # 1000))%Q.
Proof.
  intros w urls.
  destruct (awaited_requests_are_not_throttled 12 urls
              (Some "Jane Doe jane@example.com"%string) None w
              "Jane Doe jane@example.com" (mkResponse 200 [] "") 20)
    as (cs & w1 & w2 & H1 & _ & _ & H4 & H5 & _ & _ & H8).
  - lia.
  - apply imported_ready.
  - reflexivity.
  - intros k req. unfold w, imported, scripted. cbn [network].
    now destruct k.
  - discriminate.
  - discriminate.
  - discriminate.
  - exists cs, w1, w2. split; [exact H1|]. split; [exact H4|].
    split; [exact H5|exact H8].
Defined.

(** ** The limit, over any sequence of calls *)

Lemma tickets_of_same (e : entry_point) (w w' : World) :
  trace w' = trace w -> tickets_of e w' = tickets_of e w.
Proof. intros H. unfold tickets_of. now rewrite H. Qed.

Lemma tickets_of_log (e : entry_point) (ev : event) (w : World) :
  tickets_of e (log ev w) =
  tickets_of e w ++ match ev with
                    | EvTicket e' t => if decide (e' = e) then [t] else []
                    | _ => []
                    end.
Proof.
  unfold tickets_of. cbn [trace log omap list_omap].
  destruct ev as [e' t|d|r|]; cbn; rewrite ?app_nil_r; try reflexivity.
  destruct (decide (e' = e)); cbn; now rewrite ?app_nil_r.
Qed.

Lemma window_inv_same (rate : RequestRate) (last : Q) (history : list Q)
    (th th' : Throttler) :
  request_rate th' = request_rate th ->
  request_timestamps th' = request_timestamps th ->
  window_inv rate last history th -> window_inv rate last history th'.
Proof.
  intros Hr Ht [Hrate Hsplit Hpast Hasc Hlen Hbound].
  split; try assumption; rewrite ?Hr, ?Ht; assumption.
Qed.

Lemma limited_later (w w' : World) :
  limited w ->
  (now w <= now w')%Q ->
  retry_wait w' = retry_wait w ->
  throttlers w' = throttlers w ->
  (forall e, tickets_of e w' = tickets_of e w) ->
  limited w'.
Proof.
  intros [Hwait Hsleep Hwin Hmet] Hnow Hrw Hth Hticks. split.
  - intros n. rewrite Hrw. apply Hwait.
  - intros e. rewrite Hth. apply Hsleep.
  - intros e. rewrite Hth, Hticks.
    exact (window_inv_later _ _ _ _ _ Hnow (Hwin e)).
  - intros e. rewrite Hth. apply Hmet.
Qed.

Section LimitedCalls.
Variable e : entry_point.

Let Rel : World -> World -> Prop := fun _ _ => True.
Let okargs : option string -> option callable -> Kwargs -> Prop :=
  fun _ _ _ => True.

Lemma limited_sleep (d : Q) (w : World) :
  limited w ->
  (d = sleep_interval (throttlers w e) \/ exists n, d = retry_wait w wait_initial n) ->
  limited (snd (time_sleep d w)) /\ Rel w (snd (time_sleep d w)).
Proof.
  intros HI Hd. split; [|exact I].
  assert (Hpos : (0 <= d)%Q).
  { destruct Hd as [->|[n ->]]; [|apply (lim_wait _ HI)].
    rewrite (lim_sleep _ HI). discriminate. }
  apply (limited_later w); try reflexivity; [exact HI|].
  cbn [time_sleep snd now log set_now]. lra.
Qed.

Lemma limited_ticket : keeps limited Rel anything (Throttler_get_ticket e).
Proof.
  intros w HI. split; [|split; [exact I|now intros]].
  unfold Throttler_get_ticket.
  pose proof (window_inv_step _ (now w) (now w) _ _ (Qle_refl _) (lim_window _ HI e))
    as Hstep.
  pose proof (get_ticket_request_rate (now w) (throttlers w e)) as Hrate.
  pose proof (get_ticket_sleep_interval (now w) (throttlers w e)) as Hsl.
  pose proof (proj1 (metrics_inv_step (mkRequestRate max_requests_per_second 1)
                       _ (GetTicket (now w)) eq_refl (lim_metrics _ HI e))) as Hmet.
  cbn [throttler_step] in Hmet.
  destruct (get_ticket (now w) (throttlers w e)) as [ok th].
  cbn [fst snd] in *.
  assert (Hsleep : forall e', sleep_interval (throttlers (set_throttler e th w) e')
                              = (1 # 10)%Q).
  { intros e'. cbn [throttlers set_throttler].
    destruct (decide (e' = e)) as [->|Hne]; [rewrite Hsl|]; apply (lim_sleep _ HI). }
  assert (Hmets : forall e', metrics_inv (mkRequestRate max_requests_per_second 1)
                               (throttlers (set_throttler e th w) e')).
  { intros e'. cbn [throttlers set_throttler].
    destruct (decide (e' = e)) as [->|Hne]; [exact Hmet|apply (lim_metrics _ HI)]. }
  destruct ok; split; try exact (lim_wait _ HI); try exact Hsleep; try exact Hmets.
  - intros e'. rewrite tickets_of_log. cbn [now log set_throttler throttlers].
    destruct (decide (e' = e)) as [->|Hne].
    + rewrite decide_True by reflexivity. exact Hstep.
    + rewrite decide_False by congruence. rewrite app_nil_r.
      apply (lim_window _ HI).
  - intros e'. cbn [now set_throttler throttlers].
    change (tickets_of e' (set_throttler e th w)) with (tickets_of e' w).
    destruct (decide (e' = e)) as [->|Hne].
    + now rewrite app_nil_r in Hstep.
    + apply (lim_window _ HI).
Qed.

Lemma limited_metrics : keeps limited Rel anything (Throttler_update_metrics e).
Proof.
  intros w HI. split; [|split; [exact I|now intros]].
  unfold Throttler_update_metrics. cbn [snd]. split.
  - exact (lim_wait _ HI).
  - intros e'. cbn [throttlers set_throttler].
    destruct (decide (e' = e)) as [->|Hne]; apply (lim_sleep _ HI).
  - intros e'. cbn [now throttlers set_throttler].
    change (tickets_of e' (set_throttler e (update_metrics (throttlers w e)) w))
      with (tickets_of e' w).
    destruct (decide (e' = e)) as [->|Hne]; [|apply (lim_window _ HI)].
    apply (window_inv_same _ _ _ (throttlers w e)); try reflexivity.
    apply (lim_window _ HI).
  - intros e'. cbn [throttlers set_throttler].
    destruct (decide (e' = e)) as [->|Hne]; [|apply (lim_metrics _ HI)].
    exact (proj1 (metrics_inv_step (mkRequestRate max_requests_per_second 1)
                    _ UpdateMetrics eq_refl (lim_metrics _ HI e))).
Qed.

Lemma limited_request (m : http_method) (streaming : bool) (url : string)
    (identity : option string) (identity_callable : option callable)
    (kwargs : Kwargs) :
  okargs identity identity_callable kwargs ->
  keeps limited Rel anything (client_request m streaming url kwargs).
Proof.
  intros _ w HI. split; [|split; [exact I|now intros]].
  rewrite client_request_eq. cbn [snd].
  destruct (after_request_step e m streaming url kwargs w)
    as [_ Hrw _ _ Hth _ _ _ _ Hclock Hel].
  apply (limited_later w); try assumption.
  intros e'. unfold after_request, client_request.
  destruct (outcome _); cbn [snd]; now rewrite tickets_of_log, app_nil_r.
Qed.

Lemma limited_resolve (identity : option string)
    (identity_callable : option callable) :
  keeps limited Rel anything (resolve_identity identity identity_callable).
Proof.
  intros w HI. split; [|split; [exact I|now intros]].
  destruct identity as [i|]; [exact HI|].
  destruct identity_callable as [f|]; [|exact HI].
  cbn [resolve_identity snd].
  apply (limited_later w);
    [exact HI|apply Qle_refl|reflexivity|reflexivity|intros e'; reflexivity].
Qed.

Lemma limited_headers (identity : option string)
    (identity_callable : option callable) (kwargs : Kwargs) (w : World)
    (i : string) :
  okargs identity identity_callable kwargs -> limited w ->
  fst (resolve_identity identity identity_callable w) = Ok (Some i) ->
  let w1 := snd (resolve_identity identity identity_callable w) in
  limited (with_user_agent i kwargs w1) /\
  Rel w1 (with_user_agent i kwargs w1) /\
  okargs (Some i) identity_callable (set_kw_headers kwargs (headers_ref kwargs w)).
Proof.
  intros _ HI _ w1. split; [|split; exact I].
  destruct (limited_resolve identity identity_callable w HI) as [HI1 _].
  fold w1 in HI1.
  destruct (with_user_agent_quiet i kwargs w1) as [Hn _ Hrw _ Hth _ _ _].
  apply (limited_later w1); try assumption.
  - rewrite Hn. apply Qle_refl.
  - intros e'. apply tickets_of_same.
    unfold with_user_agent, bind. now destruct (kw_headers kwargs).
Qed.

Lemma limited_request_entry_point (m : http_method) (f : nat -> pipeline Response) :
  (forall url i c k, f 0%nat url i c k = out_of_fuel) ->
  (forall n, f (S n) = decorate e (S n) (request_body m (f n))) ->
  forall fuel url identity identity_callable kwargs w,
    limited w -> limited (snd (f fuel url identity identity_callable kwargs w)).
Proof.
  intros H0 HS fuel url identity ic kwargs w HI.
  apply (keeps_request_entry_point e limited Rel okargs
           (fun _ _ => I) (fun _ _ _ _ _ => I)
           limited_sleep limited_ticket limited_metrics limited_request
           limited_resolve limited_headers m f H0 HS fuel url identity ic kwargs I w HI).
Qed.

Lemma limited_deferred (fuel : nat) (url : string) (identity : option string)
    (identity_callable : option callable) (kwargs : Kwargs) (w : World) :
  limited w ->
  limited (snd (decorate e fuel suspended url identity identity_callable kwargs w)).
Proof.
  intros HI.
  apply (keeps_deferred e limited Rel okargs
           (fun _ _ => I) (fun _ _ _ _ _ => I)
           limited_sleep limited_ticket limited_metrics
           limited_resolve limited_headers fuel url identity identity_callable
           kwargs I w HI).
Qed.

Lemma limited_await (m : http_method) (await : nat -> Frame -> M Response) :
  (forall c, await 0%nat c = out_of_fuel) ->
  (forall n c,
     await (S n) c =
     request_body m
       (fun url identity identity_callable kwargs =>
          bind (decorate e n suspended url identity identity_callable kwargs)
               (fun c' => await n c'))
       (f_url c) (f_identity c) (f_identity_callable c) (f_kwargs c)) ->
  forall fuel c w, limited w -> limited (snd (await fuel c w)).
Proof.
  intros H0 HS fuel c w HI.
  apply (keeps_await e limited Rel okargs
           (fun _ _ => I) (fun _ _ _ _ _ => I)
           limited_sleep limited_ticket limited_metrics limited_request
           limited_resolve limited_headers m await H0 HS fuel c I w HI).
Qed.

Lemma limited_stream_items (fuel : nat) (g : Frame) (w : World) :
  e = EP_stream_with_retry ->
  limited w -> limited (snd (stream_items fuel g w)).
Proof.
  intros He HI.
  apply (keeps_stream_items e limited Rel okargs
           (fun _ _ => I) (fun _ _ _ _ _ => I)
           limited_sleep limited_ticket limited_metrics limited_request
           limited_resolve limited_headers fuel g He I w HI).
Qed.
End LimitedCalls.

Lemma snd_bind {A B} (m : M A) (k : A -> M B) (w : World) (P : World -> Prop) :
  P (snd (m w)) ->
  (forall a w1, m w = (Ok a, w1) -> P (snd (k a w1))) ->
  P (snd (bind m k w)).
Proof.
  intros Hm Hk. unfold bind.
  destruct (m w) as [[a|x|] w1] eqn:E; cbn [snd] in *; auto.
Qed.

Lemma limited_run_call (fuel : nat) (c : call) (w : World) :
  limited w -> limited (snd (run_call fuel c w)).
Proof.
  intros HI. destruct c as [url i ic k|url i ic k|url i ic k|url i ic k|url i ic k];
    cbn [run_call].
  - apply snd_bind; [|intros a w1 E; cbn [ret snd]].
    + apply (limited_request_entry_point EP_get_with_retry GET get_with_retry);
        [reflexivity|apply get_with_retry_S|exact HI].
    + change w1 with (snd (Ok a, w1)). rewrite <- E.
      apply (limited_request_entry_point EP_get_with_retry GET get_with_retry);
        [reflexivity|apply get_with_retry_S|exact HI].
  - assert (H1 : limited (snd (get_with_retry_async fuel url i ic k w))).
    { now apply limited_deferred. }
    apply snd_bind; [exact H1|]. intros c w1 E.
    assert (HI1 : limited w1).
    { change w1 with (snd (Ok c, w1)). now rewrite <- E. }
    assert (H2 : limited (snd (await_get fuel c w1))).
    { apply (limited_await EP_get_with_retry_async GET await_get);
        [reflexivity|intros n c'; apply await_get_S|exact HI1]. }
    apply snd_bind; [exact H2|]. intros a w2 E2. cbn [ret snd].
    change w2 with (snd (Ok a, w2)). now rewrite <- E2.
  - assert (H1 : limited (snd (stream_with_retry fuel url i ic k w))).
    { now apply limited_deferred. }
    apply snd_bind; [exact H1|]. intros g w1 E.
    assert (HI1 : limited w1).
    { change w1 with (snd (Ok g, w1)). now rewrite <- E. }
    assert (H2 : limited (snd (stream_items fuel g w1))).
    { now apply (limited_stream_items EP_stream_with_retry). }
    apply snd_bind; [exact H2|]. intros a w2 E2. cbn [ret snd].
    change w2 with (snd (Ok a, w2)). now rewrite <- E2.
  - apply snd_bind; [|intros a w1 E; cbn [ret snd]].
    + apply (limited_request_entry_point EP_post_with_retry POST post_with_retry);
        [reflexivity|apply post_with_retry_S|exact HI].
    + change w1 with (snd (Ok a, w1)). rewrite <- E.
      apply (limited_request_entry_point EP_post_with_retry POST post_with_retry);
        [reflexivity|apply post_with_retry_S|exact HI].
  - assert (H1 : limited (snd (post_with_retry_async fuel url i ic k w))).
    { now apply limited_deferred. }
    apply snd_bind; [exact H1|]. intros c w1 E.
    assert (HI1 : limited w1).
    { change w1 with (snd (Ok c, w1)). now rewrite <- E. }
    assert (H2 : limited (snd (await_post fuel c w1))).
    { apply (limited_await EP_post_with_retry_async POST await_post);
        [reflexivity|intros n c'; apply await_post_S|exact HI1]. }
    apply snd_bind; [exact H2|]. intros a w2 E2. cbn [ret snd].
    change w2 with (snd (Ok a, w2)). now rewrite <- E2.
Qed.

Lemma limited_run_calls (fuel : nat) (calls : list call) :
  forall w, limited w -> limited (run_calls fuel calls w).
Proof.
  induction calls as [|c rest IH]; intros w HI; [exact HI|].
  change (run_calls fuel (c :: rest) w)
    with (run_calls fuel rest (snd (run_call fuel c w))).
  apply IH. now apply limited_run_call.
Qed.

(** X21.  The limit holds over any use of the module: however the five
    entry points are called one after the other from a freshly imported
    module, whatever the transport answers and whatever the calls raise,
    the tickets granted by the throttler of an entry point are in the
    order of the clock and no more than [max_requests_per_second] of them
    lie in a window [(T - 1, T]], for every [T]; and the peak call rate
    its metrics report is never above the limit. *)
Theorem tickets_respect_the_limit (fuel : nat) (calls : list call) (w : World)
    (e : entry_point) (T : Q) :
  (forall e', throttlers w e' = module_throttler e') ->
  trace w = [] ->
  (forall n, (0 <= retry_wait w wait_initial n)%Q) ->
  let w' := run_calls fuel calls w in
  (Z.of_nat (count_in_window 1 T (tickets_of e w')) <= max_requests_per_second)%Z /\
  ascending (tickets_of e w') /\
  Forall (fun t => (t <= now w')%Q) (tickets_of e w') /\
  (m_peak_call_rate (get_metrics (throttlers w' e))
   <= inject_Z (m_request_rate_limit (get_metrics (throttlers w' e))))%Q.
Proof.
  intros Hth Htrace Hwait w'.
  assert (HI : limited w).
  { split.
    - exact Hwait.
    - intros e'. now rewrite Hth.
    - intros e'. rewrite Hth. unfold tickets_of. rewrite Htrace.
      split; cbn; try reflexivity; try constructor.
      + exists []. split; [reflexivity|constructor].
      + discriminate.
      + intros T'. unfold count_in_window. cbn. discriminate.
    - intros e'. rewrite Hth. split; cbn; try reflexivity; discriminate. }
  pose proof (limited_run_calls fuel calls w HI) as HI'. fold w' in HI'.
  destruct (lim_window _ HI' e) as [_ _ Hpast Hasc _ Hbound].
  split; [exact (Hbound T)|]. split; [exact Hasc|]. split; [exact Hpast|].
  destruct (lim_metrics _ HI' e) as [Hrate _ _ Hhigh].
  unfold get_metrics. cbn [m_peak_call_rate m_request_rate_limit].
  rewrite Hrate. cbn [max_requests].
  apply Qle_trans with (1 := Hhigh). cbn [max_requests time_window].
  unfold Qle. cbn. lia.
Qed.

Lemma tickets_respect_the_limit_witness :
  let w := imported ∅ (scripted []) in
  let calls := repeat (CallGet "https://www.sec.gov/a"
                         (Some "Jane Doe jane@example.com"%string) None no_kwargs) 10 in
  (Z.of_nat (count_in_window 1 1 (tickets_of EP_get_with_retry (run_calls 12 calls w)))
   <= max_requests_per_second)%Z.
Proof.
  intros w calls.
  refine (proj1 (tickets_respect_the_limit 12 calls w EP_get_with_retry 1 _ _ _)).
  - reflexivity.
  - reflexivity.
  - intros n. vm_compute. discriminate.
Defined.
(** ** How long a call may take, how often it may ask *)

Lemma decorate_returns_soon (e : entry_point) (fuel : nat) (m : http_method)
    (self : pipeline Response) (url : string) (identity : option string)
    (identity_callable : option callable) (kwargs : Kwargs) (w : World)
    (i : string) (response : Response) (latency : N) :
  (11 <= fuel)%nat ->
  fst (resolve_identity identity identity_callable w) = Ok (Some i) ->
  ready e w ->
  (forall req, network w (requests_sent w) req
               = {| outcome := inl response; elapsed_ms := latency |}) ->
  status_code response <> 301%Z ->
  status_code response <> 302%Z ->
  let rw := decorate e fuel (request_body m self) url identity
                     identity_callable kwargs w in
  (now w + (Z.of_N latency # 1000) <= now (snd rw))%Q /\
  (now (snd rw) <= now w + (11 # 10) + (Z.of_N latency # 1000))%Q.
Proof.
  intros Hfuel Hres Hready Hnet H301 H302 rw. subst rw.
  destruct (attempt_request e fuel m self url identity identity_callable
              kwargs w i Hres Hready Hfuel) as [w1 [Hentry Heq]].
  cbv zeta in Heq. rewrite Hnet in Heq. cbn [outcome] in Heq.
  assert (Ered : is_redirect response = false) by now apply is_redirect_false.
  rewrite Ered in Heq.
  pose proof (after_request_step e m false url
                (set_kw_headers kwargs (headers_ref kwargs w)) w1) as Hstep.
  set (w2 := after_request m false url
               (set_kw_headers kwargs (headers_ref kwargs w)) w1) in *.
  assert (Hnow : now w2 = (now w1 + (Z.of_N latency # 1000))%Q).
  { rewrite (rs_elapsed _ _ _ _ Hstep), (be_network _ _ _ _ _ Hentry),
      (be_sent _ _ _ _ _ Hentry), Hnet. reflexivity. }
  pose proof (be_clock _ _ _ _ _ Hentry) as Hlo.
  pose proof (be_soon _ _ _ _ _ Hentry) as Hhi.
  destruct (status_code response =? 429)%Z.
  - rewrite decorate_attempt, with_retry_passes; rewrite Heq; cbn [fst snd].
    + rewrite Hnow. split; lra.
    + intros x Hx. injection Hx as <-. reflexivity.
  - rewrite decorate_attempt, with_retry_passes; rewrite Heq;
      unfold throttle_epilogue, Throttler_update_metrics; cbn [fst snd].
    + change (now (set_throttler e (update_metrics (throttlers w2 e)) w2))
        with (now w2).
      rewrite Hnow. split; lra.
    + intros x Hx. discriminate Hx.
Qed.

(** X23.  The throttle holds a call back for 1.1 seconds at most: a call of
    [get_with_retry] or [post_with_retry] that the transport answers with a
    response, not a redirect, is over (returned, or raised for a 429) within
    1.1 seconds plus the time the transport took, whatever tickets the
    throttler has given before. *)
Theorem call_returns_within_the_window (fuel : nat) (url : string)
    (identity : option string) (identity_callable : option callable)
    (kwargs : Kwargs) (w : World) (i : string) (response : Response)
    (latency : N) :
  (11 <= fuel)%nat ->
  fst (resolve_identity identity identity_callable w) = Ok (Some i) ->
  ready EP_get_with_retry w ->
  ready EP_post_with_retry w ->
  (forall req, network w (requests_sent w) req
               = {| outcome := inl response; elapsed_ms := latency |}) ->
  status_code response <> 301%Z ->
  status_code response <> 302%Z ->
  let g := get_with_retry fuel url identity identity_callable kwargs w in
  let p := post_with_retry fuel url identity identity_callable kwargs w in
  ((now w + (Z.of_N latency # 1000) <= now (snd g))%Q /\
   (now (snd g) <= now w + (11 # 10) + (Z.of_N latency # 1000))%Q) /\
  ((now w + (Z.of_N latency # 1000) <= now (snd p))%Q /\
   (now (snd p) <= now w + (11 # 10) + (Z.of_N latency # 1000))%Q).
Proof.
  intros Hfuel Hres Hget Hpost Hnet H301 H302 g p. subst g p.
  destruct fuel as [|n]; [lia|]. split.
  - exact (decorate_returns_soon EP_get_with_retry (S n) GET (get_with_retry n)
             url identity identity_callable kwargs w i response latency
             Hfuel Hres Hget Hnet H301 H302).
  - exact (decorate_returns_soon EP_post_with_retry (S n) POST (post_with_retry n)
             url identity identity_callable kwargs w i response latency
             Hfuel Hres Hpost Hnet H301 H302).
Qed.

Lemma call_returns_within_the_window_witness :
  let w := set_throttler EP_get_with_retry
             (with_timestamps (module_throttler EP_get_with_retry) (repeat 0%Q 8))
             (imported ∅ (scripted [])) in
  let g := get_with_retry 12 "https://www.sec.gov/b"
             (Some "Jane Doe jane@example.com"%string) None no_kwargs w in
  (now (snd g) <= now w + (11 # 10) + (Z.of_N 20 # 1000))%Q.
Proof.
  intros w g.
  refine (proj2 (proj1 (call_returns_within_the_window 12 "https://www.sec.gov/b"
                   (Some "Jane Doe jane@example.com"%string) None no_kwargs w
                   "Jane Doe jane@example.com" (mkResponse 200 [] "") 20
                   _ _ _ _ _ _ _))).
  - lia.
  - reflexivity.
  - split; [reflexivity|]. split; [reflexivity|].
    repeat constructor; discriminate.
  - apply imported_ready.
  - intros req. reflexivity.
  - discriminate.
  - discriminate.
Defined.

Lemma wait_for_ticket_sends_nothing (e : entry_point) (fuel : nat) (w : World) :
  requests_sent (snd (wait_for_ticket fuel e w)) = requests_sent w /\
  network (snd (wait_for_ticket fuel e w)) = network w.
Proof.
  apply (keeps_wait_for_ticket e (fun _ => True)
           (fun w w' => requests_sent w' = requests_sent w /\ network w' = network w));
    try exact I.
  - now intros.
  - intros w1 w2 w3 [H1 H2] [H3 H4]. split; congruence.
  - intros d w0 _ _. split; [exact I|]. now split.
  - intros w0 _. split; [exact I|]. split; [|now intros].
    unfold Throttler_get_ticket.
    destruct (get_ticket (now w0) (throttlers w0 e)) as [[|] th]; now split.
Qed.

(** One attempt of a request entry point sends one request at most, as
    long as the transport does not answer with a redirect. *)
Lemma attempt_sends_at_most_one (e : entry_point) (fuel : nat) (m : http_method)
    (self : pipeline Response) (url : string) (identity : option string)
    (identity_callable : option callable) (kwargs : Kwargs) (w : World) :
  (forall n req r, outcome (network w n req) = inl r -> is_redirect r = false) ->
  let rw := attempt e fuel (request_body m self) url identity identity_callable
              kwargs w in
  (requests_sent (snd rw) <= S (requests_sent w))%nat /\
  network (snd rw) = network w.
Proof.
  intros Hnet rw. subst rw.
  set (P := fun w' => (requests_sent w' <= S (requests_sent w))%nat /\
                      network w' = network w).
  change (P (snd (attempt e fuel (request_body m self) url identity
                    identity_callable kwargs w))).
  destruct (resolve_identity_quiet identity identity_callable w) as [r [Hr Hq1]].
  destruct r as [i|].
  2:{ unfold attempt. rewrite with_identity_unset by exact Hr. cbn [fst snd].
      unfold P. rewrite (q_sent _ _ Hq1), (q_network _ _ Hq1).
      split; [lia|reflexivity]. }
  unfold attempt. rewrite (with_identity_resolved _ _ _ _ _ _ i Hr).
  pose proof (with_user_agent_quiet i kwargs
                (snd (resolve_identity identity identity_callable w))) as Hq2.
  pose proof (quiet_trans _ _ _ Hq1 Hq2) as Hq.
  set (w1 := with_user_agent i kwargs
               (snd (resolve_identity identity identity_callable w))) in *.
  set (kwargs' := set_kw_headers kwargs (headers_ref kwargs w)).
  unfold throttle_requests. unfold bind at 1.
  destruct (wait_for_ticket_sends_nothing e fuel w1) as [Hs2 Hn2].
  destruct (wait_for_ticket fuel e w1) as [[[]|x|] w2]; cbn [fst snd] in *.
  2,3: unfold P; rewrite Hs2, Hn2, (q_sent _ _ Hq), (q_network _ _ Hq);
       split; [lia|reflexivity].
  unfold bind at 1. rewrite request_body_eq.
  pose proof (after_request_step e m false url kwargs' w2) as Hstep.
  assert (Hsent : requests_sent (after_request m false url kwargs' w2)
                  = S (requests_sent w)).
  { now rewrite (rs_sent _ _ _ _ Hstep), Hs2, (q_sent _ _ Hq). }
  assert (Hnetw : network (after_request m false url kwargs' w2) = network w).
  { now rewrite (rs_network _ _ _ _ Hstep), Hn2, (q_network _ _ Hq). }
  assert (Hafter : P (after_request m false url kwargs' w2)).
  { unfold P. rewrite Hsent, Hnetw. split; [lia|reflexivity]. }
  destruct (outcome (network w2 (requests_sent w2)
                       (request_made m false url kwargs' w2))) as [r|message] eqn:Hout.
  - assert (Ered : is_redirect r = false).
    { apply (Hnet (requests_sent w2) (request_made m false url kwargs' w2)).
      now rewrite <- (q_network _ _ Hq), <- Hn2. }
    rewrite Ered.
    destruct (status_code r =? 429)%Z; cbn [fst snd]; [exact Hafter|].
    unfold bind, Throttler_update_metrics, ret. cbn [fst snd].
    exact Hafter.
  - cbn [fst snd]. exact Hafter.
Qed.

Lemma retry_from_sends (attempt : M Response) (net : nat -> Request -> Reply)
    (timeout start : Q) :
  (forall w, network w = net ->
     (requests_sent (snd (attempt w)) <= S (requests_sent w))%nat /\
     network (snd (attempt w)) = net) ->
  forall remaining number w,
    network w = net ->
    (requests_sent (snd (retry_from is_RequestError now stamina_pause remaining
                           number timeout start attempt w))
     <= requests_sent w + S remaining)%nat.
Proof.
  intros Ha. induction remaining as [|r IH]; intros number w Hw;
    destruct (Ha w Hw) as [H1 H2]; cbn [retry_from];
    destruct (attempt w) as [[a|x|] w1]; cbn [fst snd] in *; try lia.
  - destruct (is_RequestError x); cbn [snd]; lia.
  - destruct (is_RequestError x); cbn [snd]; [|lia].
    destruct (Qle_bool timeout (now w1 - start)); cbn [snd]; [lia|].
    specialize (IH (S number) (stamina_pause number w1) H2).
    change (requests_sent (stamina_pause number w1)) with (requests_sent w1) in IH.
    lia.
Qed.

(** X24.  One call of [get_with_retry] or [post_with_retry] never sends
    more than [attempts] requests, in whatever state it is made and
    whatever the clock does, as long as the transport answers with no
    redirect (every redirect starts a call of its own, with attempts of its
    own). *)
Theorem no_more_requests_than_attempts (fuel : nat) (url : string)
    (identity : option string) (identity_callable : option callable)
    (kwargs : Kwargs) (w : World) :
  (forall n req r, outcome (network w n req) = inl r -> is_redirect r = false) ->
  (requests_sent (snd (get_with_retry fuel url identity identity_callable kwargs w))
   <= requests_sent w + attempts)%nat /\
  (requests_sent (snd (post_with_retry fuel url identity identity_callable kwargs w))
   <= requests_sent w + attempts)%nat.
Proof.
  intros Hnet.
  assert (Hone : forall e m self,
            forall w', network w' = network w ->
              (requests_sent (snd (attempt e fuel (request_body m self) url identity
                                     identity_callable kwargs w'))
               <= S (requests_sent w'))%nat /\
              network (snd (attempt e fuel (request_body m self) url identity
                              identity_callable kwargs w')) = network w).
  { intros e m self w' Hw'.
    destruct (attempt_sends_at_most_one e fuel m self url identity
                identity_callable kwargs w') as [H1 H2].
    - intros n req r. rewrite Hw'. apply Hnet.
    - split; [exact H1|]. now rewrite H2. }
  destruct fuel as [|n]; [cbn; unfold attempts; split; lia|].
  split.
  - rewrite get_with_retry_S, decorate_attempt. unfold with_retry, retry.
    apply (retry_from_sends _ (network w)); [|reflexivity].
    apply Hone.
  - rewrite post_with_retry_S, decorate_attempt. unfold with_retry, retry.
    apply (retry_from_sends _ (network w)); [|reflexivity].
    apply Hone.
Qed.

Lemma no_more_requests_than_attempts_witness :
  let w := imported ∅ (scripted (repeat (failure "timed out") 9)) in
  (requests_sent (snd (get_with_retry 12 "https://www.sec.gov/a"
                         (Some "Jane Doe jane@example.com"%string) None no_kwargs w))
   <= requests_sent w + attempts)%nat.
Proof.
  intros w.
  refine (proj1 (no_more_requests_than_attempts 12 "https://www.sec.gov/a"
                   (Some "Jane Doe jane@example.com"%string) None no_kwargs w _)).
  intros n req r.
  do 9 (destruct n as [|n]; [discriminate|]).
  destruct n; intros [= <-]; reflexivity.
Defined.

Lemma limited_ready (w : World) (e : entry_point) : limited w -> ready e w.
Proof.
  intros HI. destruct (lim_window _ HI e) as [Hrate [purged [Hsplit _]] Hpast _ _ _].
  split; [exact Hrate|]. split; [exact (lim_sleep _ HI e)|].
  rewrite Hsplit in Hpast. apply Forall_app in Hpast. tauto.
Qed.

(** X25.  Every state the module can reach is one in which a call gets its
    ticket: after any sequence of calls of the five entry points from a
    freshly imported module, the throttler of every entry point has the
    rate and the polling interval the module gave it and holds no timestamp
    of the future, so that the next call, of whichever entry point, returns
    the response of the transport after one ticket and one request. *)
Theorem reachable_states_are_ready (fuel : nat) (calls : list call) (w : World)
    (url : string) (identity : option string)
    (identity_callable : option callable) (kwargs : Kwargs) (i : string)
    (response : Response) :
  (forall e, throttlers w e = module_throttler e) ->
  trace w = [] ->
  (forall n, (0 <= retry_wait w wait_initial n)%Q) ->
  let w' := run_calls fuel calls w in
  (forall e, ready e w') /\
  ((11 <= fuel)%nat ->
   fst (resolve_identity identity identity_callable w') = Ok (Some i) ->
   (forall req, outcome (network w' (requests_sent w') req) = inl response) ->
   status_code response <> 429%Z ->
   status_code response <> 301%Z ->
   status_code response <> 302%Z ->
   let g := get_with_retry fuel url identity identity_callable kwargs w' in
   fst g = Ok response /\
   requests_sent (snd g) = S (requests_sent w') /\
   tickets_taken (snd g) = S (tickets_taken w')).
Proof.
  intros Hth Htrace Hwait w'.
  assert (HI : limited w).
  { split.
    - exact Hwait.
    - intros e'. now rewrite Hth.
    - intros e'. rewrite Hth. unfold tickets_of. rewrite Htrace.
      split; cbn; try reflexivity; try constructor.
      + exists []. split; [reflexivity|constructor].
      + discriminate.
      + intros T'. unfold count_in_window. cbn. discriminate.
    - intros e'. rewrite Hth. split; cbn; try reflexivity; discriminate. }
  pose proof (limited_run_calls fuel calls w HI) as HI'. fold w' in HI'.
  split; [intros e; now apply limited_ready|].
  intros Hfuel Hres Hnet H429 H301 H302 g. subst g.
  destruct fuel as [|n]; [lia|]. rewrite get_with_retry_S.
  destruct (decorate_plain_response EP_get_with_retry (S n) GET (get_with_retry n)
              url identity identity_callable kwargs w' i response Hfuel Hres
              (limited_ready w' _ HI')) as (H1 & H2 & H3 & _);
    try assumption; [now intros req _|].
  split; [exact H1|]. split; [exact H2|exact H3].
Qed.

Lemma reachable_states_are_ready_witness :
  let w := imported ∅ (scripted []) in
  let calls := repeat (CallStream "https://www.sec.gov/a"
                         (Some "Jane Doe jane@example.com"%string) None no_kwargs) 20 in
  ready EP_stream_with_retry (run_calls 12 calls w).
Proof.
  intros w calls.
  refine (proj1 (reachable_states_are_ready 12 calls w "https://www.sec.gov/b"
                   None None no_kwargs "" (mkResponse 200 [] "") _ _ _)
            EP_stream_with_retry).
  - reflexivity.
  - reflexivity.
  - intros n. vm_compute. discriminate.
Defined.
